(** * mcp-chat-adapter: conversation store, manager and chat orchestration

    A shallow embedding of the TypeScript sources

    - [src/utils.ts]         (file-per-conversation store, ID allocation,
                              argument validators),
    - [src/conversation.ts]  (ConversationManager: cache and store),
    - [src/tools/*.ts]       (the five tools and the shared error handler),

    followed by the properties of the specification that are settled on it
    and by further properties of the same code.

    Conventions of the model.
    - A JavaScript string is a [string]; its characters are the code units
      below 256.
    - The numbers handled by the ID allocator are integer-valued doubles:
      [number] keeps NaN, the two zeros and the infinities apart, and
      [Number.round_double] writes out the rounding to 53 significant bits.
    - The five sampling controls are finite numbers that the code only
      stores, compares with bounds and forwards; they are rationals. (The
      schemas of the tools accept no other number: they reject NaN, and
      their bounds and integer check reject the infinities.) The numbers
      in the open part of the metadata are finite, NaN or infinite
      ([json_number]).
    - A JSON text is given by the value that [JSON.parse] reads from it.
      The text that [JSON.stringify] writes for a conversation
      ([JSON.stringify]) is the conversation with [null] in the place of
      every number that is not finite. The list and get tools answer with
      the JSON text of a value; they are given by that value.
    - An entry of the storage directory ([file]) cannot be read, or holds
      text that [JSON.parse] rejects, or holds the text of a conversation
      record. Text that parses to a value of another shape is left out:
      the cast [as Conversation] of the source does not check the shape.
    - The storage directory is flat and the system is POSIX: its entries
      are named by their file names, and [path.join] sends an ID without
      path separator to the entry [<ID>.json]. The statements that
      depend on it are about such IDs ([Str.is_file_name]).
    - Asynchronous functions are run to completion one after the other:
      a computation [M A] takes the state of the process and of its
      surroundings ([world]) and returns a value or a thrown error, with
      the new state. The conversation objects live in a heap, so that the
      cache and the local variables of a tool share them as in the source.
    - The surroundings answer through [clock] (the time of each reading)
      and [fault] (the I/O error, if any, of each call of mkdir, readdir,
      writeFile and unlink); readFile fails on an absent entry and on an
      entry that cannot be read.
    - The observable effects (progress reports, remote requests, files
      written and removed) are recorded in [trace], oldest first.
    - Log calls have no effect on state or results and are left out. *)

From Stdlib Require Import ZArith NArith String Ascii List Lia QArith Bool.
From stdpp Require Import gmap strings.

Open Scope string_scope.

(* ===================================================================== *)
(** * Strings *)
(* ===================================================================== *)

Module Str.

(** [strip_suffix suffix s] is [Some p] exactly when [s = p ++ suffix]. *)
Fixpoint strip_suffix (suffix s : string) : option string :=
  if String.eqb s suffix then Some ""
  else match s with
       | "" => None
       | String c s' =>
           match strip_suffix suffix s' with
           | Some p => Some (String c p)
           | None => None
           end
       end.

(** [file.endsWith(suffix)] *)
Definition endsWith (s suffix : string) : bool :=
  match strip_suffix suffix s with Some _ => true | None => false end.

(** [path.basename(file, ext)] on a directory entry (no separators). *)
Definition basename (file ext : string) : string :=
  match strip_suffix ext file with Some p => p | None => file end.

(** Code units that [parseInt] skips at the start of its argument
    (StrWhiteSpaceChar, restricted to code units below 256). *)
Definition is_white_space (c : ascii) : bool :=
  let n := N_of_ascii c in
  ((9 <=? n) && (n <=? 13) || (n =? 32) || (n =? 160))%N.

Fixpoint trim_start (s : string) : string :=
  match s with
  | String c s' => if is_white_space c then trim_start s' else s
  | "" => ""
  end.

Definition digit_value (c : ascii) : option N :=
  let n := N_of_ascii c in
  if ((48 <=? n) && (n <=? 57))%N then Some (n - 48)%N else None.

Definition digit_char (d : N) : ascii := ascii_of_N (48 + d).

(** Values of the longest prefix of decimal digits. *)
Fixpoint leading_digits (s : string) : list N :=
  match s with
  | String c s' =>
      match digit_value c with
      | Some d => d :: leading_digits s'
      | None => []
      end
  | "" => []
  end.

Definition horner (ds : list N) : N :=
  fold_left (fun acc d => 10 * acc + d)%N ds 0%N.

Fixpoint digits_aux (fuel : nat) (n : N) (acc : list N) : list N :=
  match fuel with
  | O => acc
  | S f =>
      if (n <? 10)%N then n :: acc
      else digits_aux f (n / 10)%N ((n mod 10)%N :: acc)
  end.

(** Decimal digits of [n], most significant first; [0] has the digit 0. *)
Definition digits (n : N) : list N :=
  digits_aux (S (N.to_nat (N.log2 n))) n [].

Fixpoint of_digits (ds : list N) : string :=
  match ds with
  | [] => ""
  | d :: ds' => String (digit_char d) (of_digits ds')
  end.

(** The canonical decimal numeral of a natural number. *)
Definition decimal (n : N) : string := of_digits (digits n).

Fixpoint all_digits (s : string) : bool :=
  match s with
  | "" => true
  | String c s' =>
      match digit_value c with
      | Some _ => all_digits s'
      | None => false
      end
  end.

(** A plain non-negative integer: one or more decimal digits, without a
    leading zero unless it is the single digit 0. *)
Definition plain_numeral (s : string) : bool :=
  match s with
  | "" => false
  | String c rest =>
      all_digits s && (negb (Ascii.eqb c "0") || String.eqb rest "")
  end.

(** A string without the path separator ['/']: as an ID, it names the
    entry [<ID>.json] of the storage directory itself. *)
Fixpoint is_file_name (s : string) : bool :=
  match s with
  | "" => true
  | String c s' => negb (Ascii.eqb c "/") && is_file_name s'
  end.

End Str.

(* ===================================================================== *)
(** * Numbers of the ID allocator *)
(* ===================================================================== *)

(** Integer-valued doubles. [Num 0] is +0; [Num z] is meant for [z] that a
    double represents exactly, which [round_double] guarantees for every
    value built below. *)
Inductive number : Type :=
| NaN
| NegZero
| Num (z : Z)
| PosInfinity
| NegInfinity.

Module Number.

(** Round a natural number to the nearest double (ties to even);
    [None] is overflow to Infinity. *)
Definition round_double (n : N) : option N :=
  let bits := (N.log2 n + 1)%N in
  if (bits <=? 53)%N then Some n
  else
    let sh := (bits - 53)%N in
    let q := N.shiftr n sh in
    let r := (n - N.shiftl q sh)%N in
    let half := N.shiftl 1 (sh - 1) in
    let q' := if (half <? r)%N || ((r =? half)%N && N.odd q)
              then (q + 1)%N else q in
    let v := N.shiftl q' sh in
    if (v <? 2 ^ 1024)%N then Some v else None.

(** The double nearest to the integer of sign [neg] and magnitude [m]. *)
Definition of_sign_magnitude (neg : bool) (m : N) : number :=
  if (m =? 0)%N then (if neg then NegZero else Num 0)
  else match round_double m with
       | Some v => Num (if neg then - Z.of_N v else Z.of_N v)
       | None => if neg then NegInfinity else PosInfinity
       end.

Definition of_Z (z : Z) : number :=
  if (z =? 0)%Z then Num 0 else of_sign_magnitude (z <? 0)%Z (Z.abs_N z).

(** [parseInt(s, 10)] *)
Definition parseInt (s : string) : number :=
  let s1 := Str.trim_start s in
  let '(neg, s2) :=
    match s1 with
    | String "-"%char r => (true, r)
    | String "+"%char r => (false, r)
    | _ => (false, s1)
    end in
  match Str.leading_digits s2 with
  | [] => NaN
  | ds => of_sign_magnitude neg (Str.horner ds)
  end.

Definition isNaN (x : number) : bool :=
  match x with NaN => true | _ => false end.

(** [Math.max(a, b)] *)
Definition max (a b : number) : number :=
  match a, b with
  | NaN, _ | _, NaN => NaN
  | PosInfinity, _ | _, PosInfinity => PosInfinity
  | NegInfinity, y => y
  | x, NegInfinity => x
  | NegZero, NegZero => NegZero
  | NegZero, Num z => if (z <? 0)%Z then NegZero else Num z
  | Num z, NegZero => if (z <? 0)%Z then NegZero else Num z
  | Num x, Num y => Num (Z.max x y)
  end.

(** [a + b] *)
Definition add (a b : number) : number :=
  match a, b with
  | NaN, _ | _, NaN => NaN
  | PosInfinity, NegInfinity | NegInfinity, PosInfinity => NaN
  | PosInfinity, _ | _, PosInfinity => PosInfinity
  | NegInfinity, _ | _, NegInfinity => NegInfinity
  | NegZero, y => y
  | x, NegZero => x
  | Num x, Num y => of_Z (x + y)
  end.

Fixpoint strip_trailing_zeros_rev (ds : list N) : list N :=
  match ds with
  | 0%N :: ds' => strip_trailing_zeros_rev ds'
  | _ => ds
  end.

Definition strip_trailing_zeros (ds : list N) : list N :=
  rev (strip_trailing_zeros_rev (rev ds)).

(** Scientific notation [d.ddde+n] from the significant digits. *)
Definition sci_format (ds : string) (e : N) : string :=
  match ds with
  | "" => ""
  | String d "" => String d ("e+" ++ Str.decimal e)
  | String d rest => String d ("." ++ rest ++ "e+" ++ Str.decimal e)
  end.

Definition sci_of (s e : N) : string :=
  let ds := Str.digits s in
  sci_format (Str.of_digits (strip_trailing_zeros ds))
             (e + N.of_nat (length ds) - 1).

Definition distance (a b : N) : N := if (a <? b)%N then (b - a)%N else (a - b)%N.

(** Number::toString for an integer [m >= 10^21]: the shortest digit
    string [s] with [s * 10^e] rounding to [m], the closest if several. *)
Fixpoint shortest (fuel : nat) (k : N) (m : N) : string :=
  let e := (N.of_nat (length (Str.digits m)) - k)%N in
  let lo := (m / 10 ^ e)%N in
  let hi := (lo + 1)%N in
  let ok s := match round_double (s * 10 ^ e) with
              | Some v => (v =? m)%N
              | None => false
              end in
  match fuel with
  | O => sci_of m 0
  | S f =>
      match ok lo, ok hi with
      | true, true =>
          if (distance (hi * 10 ^ e) m <? distance (lo * 10 ^ e) m)%N
          then sci_of hi e else sci_of lo e
      | true, false => sci_of lo e
      | false, true => sci_of hi e
      | false, false => shortest f (k + 1) m
      end
  end.

Definition nonneg_to_string (m : N) : string :=
  if (m <? 10 ^ 21)%N then Str.decimal m else shortest 17 1 m.

(** [String(x)] *)
Definition to_string (x : number) : string :=
  match x with
  | NaN => "NaN"
  | NegZero => "0"
  | PosInfinity => "Infinity"
  | NegInfinity => "-Infinity"
  | Num z =>
      if (z <? 0)%Z then "-" ++ nonneg_to_string (Z.abs_N z)
      else nonneg_to_string (Z.abs_N z)
  end.

End Number.

(* ===================================================================== *)
(** * ID allocation over a directory listing ([getNextConversationId]) *)
(* ===================================================================== *)

Module Alloc.

(** The body of the [for (const file of jsonFiles)] loop. *)
Definition step (highestId : number) (file : string) : number :=
  let fileBaseName := Str.basename file ".json" in
  let idNumber := Number.parseInt fileBaseName in
  if negb (Number.isNaN idNumber)
     && String.eqb (Number.to_string idNumber) fileBaseName
  then Number.max highestId idNumber
  else highestId.

(** What [getNextConversationId] returns for the entries [files] of the
    storage directory. *)
Definition next_id (files : list string) : string :=
  let jsonFiles := List.filter (fun file => Str.endsWith file ".json") files in
  let highestId := fold_left step jsonFiles (Num 0) in
  Number.to_string (Number.add highestId (Num 1)).

(** [n] is counted in a listing: the directory has the entry [<n>.json],
    where [<n>] is the canonical decimal numeral of [n] (no sign, no
    leading zero, nothing after the digits). *)
Definition counted (files : list string) (n : N) : Prop :=
  In (Str.decimal n ++ ".json") files.

End Alloc.

(* ===================================================================== *)
(** * Data model ([src/types.ts]) *)
(* ===================================================================== *)

Inductive role : Type := system | user | assistant.

Record Message : Type := {
  msg_role : role;
  content : string;
}.

(** The five sampling controls. *)
Record Parameters : Type := {
  temperature : Q;
  max_tokens : Q;
  top_p : Q;
  frequency_penalty : Q;
  presence_penalty : Q;
}.

(** The same five controls, each one optional (tool arguments). *)
Record PartialParameters : Type := {
  opt_temperature : option Q;
  opt_max_tokens : option Q;
  opt_top_p : option Q;
  opt_frequency_penalty : option Q;
  opt_presence_penalty : option Q;
}.

Definition no_parameters : PartialParameters :=
  {| opt_temperature := None; opt_max_tokens := None; opt_top_p := None;
     opt_frequency_penalty := None; opt_presence_penalty := None |}.

(** A number as a JSON value holds it: a finite one, or one of the three
    values of the runtime for which JSON has no text. ([JSON.parse] reads
    a literal that overflows, such as [1e999], as Infinity.) The two zeros
    are not told apart. *)
Inductive json_number : Type :=
| Finite (q : Q)
| NotANumber
| Infinite (negative : bool).

(** Values of the open part of a metadata record. *)
#[warnings="-register-all"] Inductive json : Type :=
| JNull
| JBool (b : bool)
| JNumber (x : json_number)
| JString (s : string)
| JArray (items : list json)
| JObject (fields : list (string * json)).

Record Metadata : Type := {
  title : option string;
  tags : option (list string);
  extra : list (string * json);
}.

Definition empty_metadata : Metadata :=
  {| title := None; tags := None; extra := [] |}.

Record Conversation : Type := {
  id : string;
  model : string;
  created_at : string;
  updated_at : string;
  parameters : Parameters;
  messages : list Message;
  metadata : option Metadata;
}.

(** ** JSON texts

    A JSON text is given by the value that [JSON.parse] reads from it. *)
Module JSON.

(** The value of the text that [JSON.stringify] writes for [v]: a
    number that is not finite is written as [null]. *)
Fixpoint stringify_value (v : json) : json :=
  match v with
  | JNumber (Finite q) => JNumber (Finite q)
  | JNumber _ => JNull
  | JArray items => JArray (map stringify_value items)
  | JObject fields =>
      JObject (map (fun field => (fst field, stringify_value (snd field)))
                   fields)
  | JNull | JBool _ | JString _ => v
  end.

Definition stringify_metadata (md : Metadata) : Metadata :=
  {| title := title md; tags := tags md;
     extra := map (fun field => (fst field, stringify_value (snd field)))
                  (extra md) |}.

(** [JSON.stringify(conversation, null, 2)]: the text of the
    conversation, which differs from it where the metadata holds a
    number that is not finite. *)
Definition stringify (conversation : Conversation) : Conversation :=
  {| id := id conversation; model := model conversation;
     created_at := created_at conversation;
     updated_at := updated_at conversation;
     parameters := parameters conversation;
     messages := messages conversation;
     metadata := option_map stringify_metadata (metadata conversation) |}.

(** Every number in [v] is finite. *)
Fixpoint finite_value (v : json) : bool :=
  match v with
  | JNumber (Finite _) => true
  | JNumber _ => false
  | JArray items => forallb finite_value items
  | JObject fields => forallb (fun field => finite_value (snd field)) fields
  | JNull | JBool _ | JString _ => true
  end.

(** Every number in the metadata of the conversation is finite. *)
Definition finite (conversation : Conversation) : bool :=
  match metadata conversation with
  | Some md => forallb (fun field => finite_value (snd field)) (extra md)
  | None => true
  end.

End JSON.

Record ConversationMetadata : Type := {
  meta_id : string;
  meta_model : string;
  meta_created_at : string;
  meta_updated_at : string;
  message_count : nat;
  meta_metadata : option Metadata;
}.

Record CreateConversationArgs : Type := {
  arg_model : option string;
  arg_system_prompt : option string;
  arg_parameters : option PartialParameters;
  arg_metadata : option Metadata;
}.

(** The error classes of [src/types.ts], an error named ['AbortError'],
    and every other [Error]. *)
Inductive error : Type :=
| ConversationNotFoundError (conversationId : string)
| ConversationStorageError (msg : string)
| ConversationCreateError (msg : string)
| ChatTimeoutError (msg : string)
| AbortError (msg : string)
| InvalidParams (msg : string)
| Error (msg : string).

(** [error.message] *)
Definition message (e : error) : string :=
  match e with
  | ConversationNotFoundError conversationId =>
      "Conversation not found: " ++ conversationId
  | ConversationStorageError m | ConversationCreateError m
  | ChatTimeoutError m | AbortError m | InvalidParams m | Error m => m
  end.

(** Values of [src/constants.ts] that depend on the process environment. *)
Record constants : Type := {
  DEFAULT_MODEL : string;
  DEFAULT_SYSTEM_PROMPT : string;
  DEFAULT_MAX_TOKENS : Q;
  DEFAULT_TEMPERATURE : Q;
  DEFAULT_TOP_P : Q;
  DEFAULT_FREQUENCY_PENALTY : Q;
  DEFAULT_PRESENCE_PENALTY : Q;
}.

(** The constants of a process started with none of the variables set. *)
Definition unset_environment : constants :=
  {| DEFAULT_MODEL := "gpt-4o-mini";
     DEFAULT_SYSTEM_PROMPT := "You are a helpful assistant.";
     DEFAULT_MAX_TOKENS := 50000;
     DEFAULT_TEMPERATURE := 7 # 10;
     DEFAULT_TOP_P := 1;
     DEFAULT_FREQUENCY_PENALTY := 0;
     DEFAULT_PRESENCE_PENALTY := 0 |}.

(** [x ?? d] *)
Definition nullish {A : Type} (x : option A) (d : A) : A :=
  match x with Some v => v | None => d end.

(** [s || d] on an optional string: the empty string is falsy. *)
Definition or_else (s : option string) (d : string) : string :=
  match s with
  | Some (String _ _ as v) => v
  | _ => d
  end.

(** Truthiness of an optional string. *)
Definition truthy (s : option string) : bool :=
  match s with
  | Some (String _ _) => true
  | _ => false
  end.

(* ===================================================================== *)
(** * The process state and its environment *)
(* ===================================================================== *)

(** An entry of the storage directory: one whose text [JSON.parse]
    rejects, one whose text is the JSON of a conversation [c], or one
    that cannot be read (for lack of permission, for one). *)
Inductive file : Type :=
| Unparseable (syntax_error : string)
| Json (c : Conversation)
| Unreadable (io_error : string).

(** The body of the streaming completion request. *)
Record ChatRequest : Type := {
  req_model : string;
  req_messages : list Message;
  req_max_tokens : Q;
  req_temperature : Q;
  req_top_p : Q;
  req_frequency_penalty : Q;
  req_presence_penalty : Q;
}.

(** Effects that the surroundings of the core can observe. *)
Inductive event : Type :=
| Progress (progress total : nat)
| Request (r : ChatRequest)
| Written (name : string) (c : Conversation)
| Removed (name : string).

(** References to conversation objects. *)
Definition ref := nat.

Record world : Type := {
  files : gmap string file;          (* entries of CONVERSATION_DIR *)
  heap : ref -> Conversation;        (* conversation objects *)
  next_ref : ref;                    (* next fresh reference *)
  conversations : gmap string ref;   (* ConversationManager.conversations *)
  trace : list event;                (* effects so far, oldest first *)
  clock : nat -> string;             (* new Date().toISOString(), per reading *)
  fault : nat -> option string;      (* I/O error of a file-system call *)
  ticks : nat;                       (* calls to the environment so far *)
}.

Definition set_files (f : gmap string file) (w : world) : world :=
  {| files := f; heap := heap w; next_ref := next_ref w;
     conversations := conversations w; trace := trace w; clock := clock w;
     fault := fault w; ticks := ticks w |}.

Definition set_heap (h : ref -> Conversation) (w : world) : world :=
  {| files := files w; heap := h; next_ref := next_ref w;
     conversations := conversations w; trace := trace w; clock := clock w;
     fault := fault w; ticks := ticks w |}.

Definition set_next_ref (n : ref) (w : world) : world :=
  {| files := files w; heap := heap w; next_ref := n;
     conversations := conversations w; trace := trace w; clock := clock w;
     fault := fault w; ticks := ticks w |}.

Definition set_conversations (m : gmap string ref) (w : world) : world :=
  {| files := files w; heap := heap w; next_ref := next_ref w;
     conversations := m; trace := trace w; clock := clock w;
     fault := fault w; ticks := ticks w |}.

Definition set_trace (t : list event) (w : world) : world :=
  {| files := files w; heap := heap w; next_ref := next_ref w;
     conversations := conversations w; trace := t; clock := clock w;
     fault := fault w; ticks := ticks w |}.

Definition set_ticks (n : nat) (w : world) : world :=
  {| files := files w; heap := heap w; next_ref := next_ref w;
     conversations := conversations w; trace := trace w; clock := clock w;
     fault := fault w; ticks := n |}.

(** ** Computations: state and exceptions *)

Inductive result (A : Type) : Type :=
| Ok (a : A)
| Throw (e : error).
Arguments Ok {A} a.
Arguments Throw {A} e.

Definition M (A : Type) : Type := world -> result A * world.

Definition ret {A : Type} (a : A) : M A := fun w => (Ok a, w).

Definition throw {A : Type} (e : error) : M A := fun w => (Throw e, w).

Definition bind {A B : Type} (m : M A) (k : A -> M B) : M B :=
  fun w => match m w with
           | (Ok a, w') => k a w'
           | (Throw e, w') => (Throw e, w')
           end.

(** [try { m } catch (error) { handler error }] *)
Definition try_catch {A : Type} (m : M A) (handler : error -> M A) : M A :=
  fun w => match m w with
           | (Ok a, w') => (Ok a, w')
           | (Throw e, w') => handler e w'
           end.

Declare Scope js_scope.
Delimit Scope js_scope with js.
Notation "x <- m ;; k" := (bind m (fun x => k))
  (at level 100, m at next level, right associativity) : js_scope.
Notation "m ;; k" := (bind m (fun _ => k))
  (at level 100, right associativity) : js_scope.
Open Scope js_scope.

Definition get_world : M world := fun w => (Ok w, w).

Definition modify (f : world -> world) : M unit := fun w => (Ok tt, f w).

Definition emit (e : event) : M unit :=
  modify (fun w => set_trace (trace w ++ [e]) w).

(** One call to the environment; returns its index. *)
Definition tick : M nat :=
  fun w => (Ok (ticks w), set_ticks (S (ticks w)) w).

(** [new Date().toISOString()] *)
Definition now_ISO : M string :=
  n <- tick ;; w <- get_world ;; ret (clock w n).

(** A file-system call that the environment may fail. *)
Definition io_call : M unit :=
  n <- tick ;; w <- get_world ;;
  match fault w n with
  | Some m => throw (Error m)
  | None => ret tt
  end.

(** ** Conversation objects *)

Definition new_object (c : Conversation) : M ref :=
  fun w =>
    let r := next_ref w in
    (Ok r, set_next_ref (S r)
             (set_heap (fun r' => if Nat.eqb r' r then c else heap w r') w)).

Definition deref (r : ref) : M Conversation :=
  fun w => (Ok (heap w r), w).

Definition update_object (r : ref) (f : Conversation -> Conversation) : M unit :=
  modify (fun w =>
    set_heap (fun r' => if Nat.eqb r' r then f (heap w r) else heap w r') w).

Definition with_updated_at (t : string) (c : Conversation) : Conversation :=
  {| id := id c; model := model c; created_at := created_at c;
     updated_at := t; parameters := parameters c; messages := messages c;
     metadata := metadata c |}.

(** [conversation.messages.push(m)] *)
Definition push_message (m : Message) (c : Conversation) : Conversation :=
  {| id := id c; model := model c; created_at := created_at c;
     updated_at := updated_at c; parameters := parameters c;
     messages := messages c ++ [m]; metadata := metadata c |}.

(** ** The file system under CONVERSATION_DIR *)

(** [fs.mkdir(CONVERSATION_DIR, { recursive: true })] *)
Definition fs_mkdir : M unit := io_call.

(** [fs.readdir(CONVERSATION_DIR)] *)
Definition fs_readdir : M (list string) :=
  io_call ;; w <- get_world ;; ret (map fst (map_to_list (files w))).

(** [fs.readFile(path, 'utf-8')]: fails on an absent entry and on one
    that cannot be read. *)
Definition fs_readFile (name : string) : M file :=
  w <- get_world ;;
  match files w !! name with
  | Some (Unreadable m) => throw (Error m)
  | Some f => ret f
  | None => throw (Error ("ENOENT: no such file or directory, open '" ++ name ++ "'"))
  end.

(** [fs.writeFile(path, data, 'utf-8')]; [data] is the text of a
    conversation. *)
Definition fs_writeFile (name : string) (data : Conversation) : M unit :=
  io_call ;;
  modify (fun w => set_files (<[name := Json data]> (files w)) w) ;;
  emit (Written name data).

(** [fs.unlink(path)] *)
Definition fs_unlink (name : string) : M unit :=
  w <- get_world ;;
  match files w !! name with
  | None => throw (Error ("ENOENT: no such file or directory, unlink '" ++ name ++ "'"))
  | Some _ =>
      io_call ;;
      modify (fun w => set_files (delete name (files w)) w) ;;
      emit (Removed name)
  end.

(** [JSON.parse(data) as Conversation], on what [fs.readFile] returned. *)
Definition JSON_parse (data : file) : M Conversation :=
  match data with
  | Json c => ret c
  | Unparseable m | Unreadable m => throw (Error m)
  end.

Definition result_map {A B : Type} (f : A -> B) (r : result A) : result B :=
  match r with
  | Ok a => Ok (f a)
  | Throw e => Throw e
  end.

(* ===================================================================== *)
(** * The conversation store ([src/utils.ts]) *)
(* ===================================================================== *)

Module Store.

Definition ensureConversationDir : M unit :=
  try_catch fs_mkdir (fun error =>
    throw (ConversationStorageError
             ("Failed to create conversations directory: " ++ message error))).

(** [path.join(CONVERSATION_DIR, `${conversationId}.json`)], for an ID
    that is a file name ([Str.is_file_name]): the result is then the
    entry [<ID>.json] of CONVERSATION_DIR, which the model names by the
    name of the entry. An ID with a path separator names a file by
    another path, which [path.join] normalises; the statements that
    depend on the file of an ID exclude it. *)
Definition getConversationFilePath (conversationId : string) : string :=
  conversationId ++ ".json".

Definition readConversation (conversationId : string) : M Conversation :=
  try_catch
    (let filePath := getConversationFilePath conversationId in
     data <- fs_readFile filePath ;;
     JSON_parse data)
    (fun error =>
       throw (ConversationStorageError
                ("Failed to read conversation: " ++ message error))).

Definition writeConversation (conversation : ref) : M unit :=
  try_catch
    (ensureConversationDir ;;
     c <- deref conversation ;;
     let filePath := getConversationFilePath (id c) in
     let data := JSON.stringify c in
     fs_writeFile filePath data)
    (fun error =>
       throw (ConversationStorageError
                ("Failed to write conversation: " ++ message error))).

Definition deleteConversation (conversationId : string) : M unit :=
  try_catch
    (let filePath := getConversationFilePath conversationId in
     fs_unlink filePath)
    (fun error =>
       throw (ConversationStorageError
                ("Failed to delete conversation: " ++ message error))).

Definition getNextConversationId : M string :=
  try_catch
    (ensureConversationDir ;;
     files <- fs_readdir ;;
     ret (Alloc.next_id files))
    (fun error =>
       throw (ConversationStorageError
                ("Failed to get next conversation ID: " ++ message error))).

Section Listing.

(** [new Date(s).getTime()]; [None] is NaN (an invalid date). *)
Variable getTime : string -> option Z.

(** [new Date(b.updated_at).getTime() - new Date(a.updated_at).getTime()],
    [None] being NaN. *)
Definition compare_updated (a b : ConversationMetadata) : option Z :=
  match getTime (meta_updated_at b), getTime (meta_updated_at a) with
  | Some tb, Some ta => Some (tb - ta)%Z
  | _, _ => None
  end.

(** [x] goes before [y] when the comparator is negative; NaN counts
    as zero. *)
Definition goes_before (x y : ConversationMetadata) : bool :=
  match compare_updated x y with
  | Some d => (d <? 0)%Z
  | None => false
  end.

Fixpoint insert_sorted (x : ConversationMetadata)
         (l : list ConversationMetadata) : list ConversationMetadata :=
  match l with
  | [] => [x]
  | y :: l' => if goes_before x y then x :: l else y :: insert_sorted x l'
  end.

(** [metadataList.sort(...)]: a stable sort. *)
Definition sort_by_updated (l : list ConversationMetadata)
  : list ConversationMetadata :=
  fold_left (fun sorted x => insert_sorted x sorted) l [].

Definition metadata_of (conversationData : Conversation) : ConversationMetadata :=
  {| meta_id := id conversationData;
     meta_model := model conversationData;
     meta_created_at := created_at conversationData;
     meta_updated_at := updated_at conversationData;
     message_count := length (messages conversationData);
     meta_metadata := metadata conversationData |}.

(** The loop over [jsonFiles]; a file that cannot be read is skipped. *)
Fixpoint read_all (jsonFiles : list string)
         (metadataList : list ConversationMetadata)
  : M (list ConversationMetadata) :=
  match jsonFiles with
  | [] => ret metadataList
  | file :: rest =>
      metadataList' <-
        try_catch
          (let conversationId := Str.basename file ".json" in
           conversationData <- readConversation conversationId ;;
           ret (metadataList ++ [metadata_of conversationData])%list)
          (fun _ => ret metadataList) ;;
      read_all rest metadataList'
  end.

Definition listConversations : M (list ConversationMetadata) :=
  try_catch
    (ensureConversationDir ;;
     files <- fs_readdir ;;
     let jsonFiles := List.filter (fun file => Str.endsWith file ".json") files in
     metadataList <- read_all jsonFiles [] ;;
     ret (sort_by_updated metadataList))
    (fun error =>
       throw (ConversationStorageError
                ("Failed to list conversations: " ++ message error))).

End Listing.

End Store.

(* ===================================================================== *)
(** * ConversationManager ([src/conversation.ts]) *)
(* ===================================================================== *)

Module Manager.

(** [this.conversations.set(key, conversation)] *)
Definition cache_set (key : string) (conversation : ref) : M unit :=
  modify (fun w => set_conversations (<[key := conversation]> (conversations w)) w).

(** [this.conversations.delete(key)] *)
Definition cache_delete (key : string) : M unit :=
  modify (fun w => set_conversations (delete key (conversations w)) w).

Definition createConversation (k : constants) (args : CreateConversationArgs)
  : M ref :=
  try_catch
    (let model := or_else (arg_model args) (DEFAULT_MODEL k) in
     now <- now_ISO ;;
     let given := nullish (arg_parameters args) no_parameters in
     let parameters :=
       {| temperature := nullish (opt_temperature given) (7 # 10);
          max_tokens := nullish (opt_max_tokens given) 1000%Q;
          top_p := nullish (opt_top_p given) 1%Q;
          frequency_penalty := nullish (opt_frequency_penalty given) 0%Q;
          presence_penalty := nullish (opt_presence_penalty given) 0%Q |} in
     let messages :=
       if truthy (arg_system_prompt args)
       then [ {| msg_role := system;
                 content := nullish (arg_system_prompt args) "" |} ]
       else [] in
     id <- Store.getNextConversationId ;;
     conversation <- new_object
       {| id := id; model := model; created_at := now; updated_at := now;
          parameters := parameters; messages := messages;
          metadata := arg_metadata args |} ;;
     cache_set id conversation ;;
     Store.writeConversation conversation ;;
     ret conversation)
    (fun error =>
       throw (ConversationCreateError
                ("Failed to create conversation: " ++ message error))).

Definition getConversation (conversationId : string) : M ref :=
  w <- get_world ;;
  match conversations w !! conversationId with
  | Some conversation => ret conversation
  | None =>
      try_catch
        (c <- Store.readConversation conversationId ;;
         conversation <- new_object c ;;
         cache_set conversationId conversation ;;
         ret conversation)
        (fun _ => throw (ConversationNotFoundError conversationId))
  end.

Definition updateConversation (conversation : ref) : M unit :=
  try_catch
    (now <- now_ISO ;;
     update_object conversation (with_updated_at now) ;;
     c <- deref conversation ;;
     cache_set (id c) conversation ;;
     Store.writeConversation conversation)
    (fun error =>
       throw (ConversationStorageError
                ("Failed to update conversation: " ++ message error))).

Definition addMessage (conversationId : string) (r : role) (text : string)
  : M ref :=
  conversation <- getConversation conversationId ;;
  update_object conversation
    (push_message {| msg_role := r; content := text |}) ;;
  updateConversation conversation ;;
  ret conversation.

Definition listConversations (getTime : string -> option Z)
  : M (list ConversationMetadata) :=
  try_catch (Store.listConversations getTime)
    (fun error =>
       throw (ConversationStorageError
                ("Failed to list conversations: " ++ message error))).

Definition deleteConversation (conversationId : string) : M bool :=
  try_catch
    (cache_delete conversationId ;;
     Store.deleteConversation conversationId ;;
     ret true)
    (fun _ => ret false).

End Manager.

(* ===================================================================== *)
(** * The tools ([src/tools/*.ts]) *)
(* ===================================================================== *)

(** What the remote completion API does with one streaming request:
    the call is rejected (after the client's own retries), or it yields
    content fragments and then ends or fails. A fragment without content
    is [None]. *)
Inductive stream_end : Type :=
| EndOfStream
| StreamFails (e : error).

Inductive api_response : Type :=
| Rejected (e : error)
| Stream (chunks : list (option string)) (fin : stream_end).

Record ChatArgs : Type := {
  conversation_id : string;
  chat_message : string;
  chat_parameters : option PartialParameters;
}.

Record ListFilter : Type := {
  filter_tags : option (list string);
  created_after : option string;
  created_before : option string;
}.

Record ListConversationsArgs : Type := {
  list_filter : option ListFilter;
  list_limit : option nat;
  list_offset : option nat;
}.

Module Tools.

(** [handleToolError(log, context, error, customMessage)]: never
    returns; the result is the error it throws. *)
Definition handleToolError {A : Type} (context : string) (error : error)
           (customMessage : option string) : M A :=
  match error with
  | ConversationNotFoundError _ => throw error
  | ChatTimeoutError _ => throw error
  | AbortError _ => throw (ChatTimeoutError "OpenAI API request timed out")
  | _ =>
      throw (Error (or_else customMessage "Error in" ++ " " ++ context
                    ++ ": " ++ message error))
  end.

(** ** Argument schemas (zod): defaults first, then the bounds *)

Definition between (lo hi : Q) (q : Q) : bool :=
  Qle_bool lo q && Qle_bool q hi.

Definition positive_int (q : Q) : bool :=
  (Qden (Qred q) =? 1)%positive && (0 <? Qnum q)%Z.

(** [z.number()...optional().default(d)] *)
Definition number_field (valid : Q -> bool) (d : Q) (x : option Q) : option Q :=
  let v := nullish x d in
  if valid v then Some v else None.

(** [z.object({ temperature: ..., ... }).optional().default({})] with the
    five defaults [d]. Every field of the output is defined. *)
Definition parameters_schema (d : Parameters) (p : option PartialParameters)
  : option PartialParameters :=
  let p := nullish p no_parameters in
  match number_field (between 0 2) (temperature d) (opt_temperature p),
        number_field positive_int (max_tokens d) (opt_max_tokens p),
        number_field (between 0 1) (top_p d) (opt_top_p p),
        number_field (between (-2) 2) (frequency_penalty d) (opt_frequency_penalty p),
        number_field (between (-2) 2) (presence_penalty d) (opt_presence_penalty p)
  with
  | Some t, Some m, Some tp, Some fp, Some pp =>
      Some {| opt_temperature := Some t; opt_max_tokens := Some m;
              opt_top_p := Some tp; opt_frequency_penalty := Some fp;
              opt_presence_penalty := Some pp |}
  | _, _, _, _, _ => None
  end.

Definition chatSchema (k : constants) (args : ChatArgs) : option ChatArgs :=
  match parameters_schema
          {| temperature := DEFAULT_TEMPERATURE k;
             max_tokens := DEFAULT_MAX_TOKENS k;
             top_p := DEFAULT_TOP_P k;
             frequency_penalty := DEFAULT_FREQUENCY_PENALTY k;
             presence_penalty := DEFAULT_PRESENCE_PENALTY k |}
          (chat_parameters args)
  with
  | Some p => Some {| conversation_id := conversation_id args;
                      chat_message := chat_message args;
                      chat_parameters := Some p |}
  | None => None
  end.

Definition createConversationSchema (k : constants)
           (args : CreateConversationArgs) : option CreateConversationArgs :=
  match parameters_schema
          {| temperature := 7 # 10; max_tokens := 1000; top_p := 1;
             frequency_penalty := 0; presence_penalty := 0 |}
          (arg_parameters args)
  with
  | Some p =>
      Some {| arg_model := arg_model args;
              arg_system_prompt :=
                Some (nullish (arg_system_prompt args) (DEFAULT_SYSTEM_PROMPT k));
              arg_parameters := Some p;
              arg_metadata := Some (nullish (arg_metadata args) empty_metadata) |}
  | None => None
  end.

Definition listConversationsSchema (args : ListConversationsArgs)
  : option ListConversationsArgs :=
  match list_limit args with
  | Some O => None
  | _ => Some args
  end.

(** The server hands a tool the output of its schema. *)
Definition with_schema {Raw Args A : Type} (name : string)
           (schema : Raw -> option Args) (execute : Args -> M A) (raw : Raw)
  : M A :=
  match schema raw with
  | Some args => execute args
  | None => throw (InvalidParams ("Invalid " ++ name ++ " parameters"))
  end.

(** ** create_conversation *)

Definition create_conversation_execute (k : constants) (defaultModel : string)
           (args : CreateConversationArgs) : M string :=
  try_catch
    (conversation <- Manager.createConversation k
       {| arg_model := Some (or_else (arg_model args) defaultModel);
          arg_system_prompt := arg_system_prompt args;
          arg_parameters := arg_parameters args;
          arg_metadata := arg_metadata args |} ;;
     c <- deref conversation ;;
     ret ("Conversation created: " ++ id c))
    (fun error =>
       handleToolError "CreateConversation" error
                       (Some "Failed to create conversation")).

Definition create_conversation (k : constants) (defaultModel : string)
  : CreateConversationArgs -> M string :=
  with_schema "create_conversation" (createConversationSchema k)
              (create_conversation_execute k defaultModel).

(** ** chat *)

Definition reportProgress (progress total : nat) : M unit :=
  emit (Progress progress total).

(** The body of [for await (const chunk of stream)]. *)
Definition on_chunk (chunk : option string) (st : string * nat)
  : M (string * nat) :=
  let '(assistantMessage, progressCounter) := st in
  let content := nullish chunk "" in
  let assistantMessage := assistantMessage ++ content in
  if (progressCounter <? 80)%nat then
    let progressCounter := (progressCounter + 1)%nat in
    (if (progressCounter <? 40)%nat || (progressCounter mod 5 =? 0)%nat
     then reportProgress progressCounter 100
     else ret tt) ;;
    ret (assistantMessage, progressCounter)
  else ret (assistantMessage, progressCounter).

Fixpoint for_await (chunks : list (option string)) (fin : stream_end)
         (st : string * nat) : M (string * nat) :=
  match chunks with
  | chunk :: rest => st' <- on_chunk chunk st ;; for_await rest fin st'
  | [] => match fin with
          | EndOfStream => ret st
          | StreamFails e => throw e
          end
  end.

(** [openai.chat.completions.create(request, { maxRetries: 3, timeout })] *)
Definition completions_create (openai : ChatRequest -> api_response)
           (request : ChatRequest) : M (list (option string) * stream_end) :=
  emit (Request request) ;;
  match openai request with
  | Rejected e => throw e
  | Stream chunks fin => ret (chunks, fin)
  end.

Definition chat_execute (openai : ChatRequest -> api_response)
           (args : ChatArgs) : M string :=
  (* [parameters = {}] *)
  let given := nullish (chat_parameters args) no_parameters in
  try_catch
    (reportProgress 0 100 ;;
     conversation <- Manager.getConversation (conversation_id args) ;;
     c <- deref conversation ;;
     Manager.addMessage (id c) user (chat_message args) ;;
     c <- deref conversation ;;
     let chatParams :=
       {| max_tokens := nullish (opt_max_tokens given) (max_tokens (parameters c));
          temperature := nullish (opt_temperature given) (temperature (parameters c));
          top_p := nullish (opt_top_p given) (top_p (parameters c));
          frequency_penalty :=
            nullish (opt_frequency_penalty given) (frequency_penalty (parameters c));
          presence_penalty :=
            nullish (opt_presence_penalty given) (presence_penalty (parameters c)) |} in
     stream <- completions_create openai
       {| req_model := model c;
          req_messages := messages c;
          req_max_tokens := max_tokens chatParams;
          req_temperature := temperature chatParams;
          req_top_p := top_p chatParams;
          req_frequency_penalty := frequency_penalty chatParams;
          req_presence_penalty := presence_penalty chatParams |} ;;
     st <- for_await (fst stream) (snd stream) ("", 30%nat) ;;
     let assistantMessage := fst st in
     reportProgress 80 100 ;;
     c <- deref conversation ;;
     Manager.addMessage (id c) assistant assistantMessage ;;
     reportProgress 100 100 ;;
     ret assistantMessage)
    (fun error =>
       handleToolError "Chat" error (Some "Failed to process chat request")).

Definition chat (k : constants) (openai : ChatRequest -> api_response)
  : ChatArgs -> M string :=
  with_schema "chat" (chatSchema k) (chat_execute openai).

(** ** list_conversations, get_conversation, delete_conversation *)

Section Listing.

Variable getTime : string -> option Z.

(** [conv.metadata?.tags?.some(tag => filter.tags?.includes(tag))] *)
Definition has_some_tag (wanted : list string) (conv : ConversationMetadata)
  : bool :=
  match meta_metadata conv with
  | Some md =>
      match tags md with
      | Some ts =>
          existsb (fun tag => existsb (String.eqb tag) wanted) ts
      | None => false
      end
  | None => false
  end.

(** [a >= b] on times, false when either is NaN. *)
Definition time_ge (a b : option Z) : bool :=
  match a, b with
  | Some x, Some y => (y <=? x)%Z
  | _, _ => false
  end.

Definition apply_filter (filter : ListFilter)
           (conversations : list ConversationMetadata)
  : list ConversationMetadata :=
  let conversations :=
    match filter_tags filter with
    | Some wanted => List.filter (has_some_tag wanted) conversations
    | None => conversations
    end in
  let conversations :=
    if truthy (created_after filter) then
      let afterDate := getTime (nullish (created_after filter) "") in
      List.filter (fun conv => time_ge (getTime (meta_created_at conv)) afterDate)
                  conversations
    else conversations in
  if truthy (created_before filter) then
    let beforeDate := getTime (nullish (created_before filter) "") in
    List.filter (fun conv => time_ge beforeDate (getTime (meta_created_at conv)))
                conversations
  else conversations.

(** [conversations.slice(start, stop)] for [0 <= start]. *)
Definition slice {A : Type} (start stop : nat) (l : list A) : list A :=
  firstn (stop - start) (skipn start l).

(** The tool answers with [JSON.stringify(conversations)]; it is given
    by the list. *)
Definition list_conversations_execute (args : ListConversationsArgs)
  : M (list ConversationMetadata) :=
  try_catch
    (conversations <- Manager.listConversations getTime ;;
     let conversations :=
       match list_filter args with
       | Some filter => apply_filter filter conversations
       | None => conversations
       end in
     let offsetValue := nullish (list_offset args) 0%nat in
     let limitValue := nullish (list_limit args) (length conversations) in
     ret (slice offsetValue (offsetValue + limitValue) conversations))
    (fun error =>
       handleToolError "ListConversations" error
                       (Some "Failed to list conversations")).

Definition list_conversations
  : ListConversationsArgs -> M (list ConversationMetadata) :=
  with_schema "list_conversations" listConversationsSchema
              list_conversations_execute.

End Listing.

(** The tool answers with [JSON.stringify(conversation)]; it is given
    by the conversation. *)
Definition get_conversation (conversation_id : string) : M Conversation :=
  try_catch
    (conversation <- Manager.getConversation conversation_id ;;
     deref conversation)
    (fun error =>
       handleToolError "GetConversation" error (Some "Failed to get conversation")).

Definition delete_conversation (conversation_id : string) : M string :=
  try_catch
    (success <- Manager.deleteConversation conversation_id ;;
     ret "Conversation deleted")
    (fun error =>
       handleToolError "DeleteConversation" error
                       (Some "Failed to delete conversation")).

End Tools.

(* ===================================================================== *)
(** * Starting states *)
(* ===================================================================== *)

Definition blank : Conversation :=
  {| id := ""; model := ""; created_at := ""; updated_at := "";
     parameters := {| temperature := 0; max_tokens := 0; top_p := 0;
                      frequency_penalty := 0; presence_penalty := 0 |};
     messages := []; metadata := None |}.

(** A process that has just started over the storage directory [dir]. *)
Definition started (dir : gmap string file) (clock : nat -> string)
           (fault : nat -> option string) : world :=
  {| files := dir; heap := fun _ => blank; next_ref := 0;
     conversations := ∅; trace := []; clock := clock; fault := fault;
     ticks := 0 |}.

(** An environment without I/O errors, whose clock stands still. *)
Definition quiet (dir : gmap string file) : world :=
  started dir (fun _ => "2024-01-01T00:00:00.000Z") (fun _ => None).

(** A stored conversation whose five sampling parameters all differ from
    the process defaults. *)
Definition tuned : Conversation :=
  {| id := "1"; model := "m";
     created_at := "2024-01-01T00:00:00.000Z";
     updated_at := "2024-01-01T00:00:00.000Z";
     parameters := {| temperature := 1 # 5; max_tokens := 200; top_p := 1 # 2;
                      frequency_penalty := 1; presence_penalty := 1 |};
     messages := [ {| msg_role := system; content := "S" |} ];
     metadata := None |}.

(** A conversation whose metadata holds a number that is not finite, as
    the create_conversation tool stores it when it is called with the
    metadata [{"score": 1e999}]. *)
Definition overflowing : Conversation :=
  {| id := "1"; model := "m";
     created_at := "2024-01-01T00:00:00.000Z";
     updated_at := "2024-01-01T00:00:00.000Z";
     parameters := {| temperature := 7 # 10; max_tokens := 1000; top_p := 1;
                      frequency_penalty := 0; presence_penalty := 0 |};
     messages := [];
     metadata := Some {| title := None; tags := None;
                         extra := [("score", JNumber (Infinite false))] |} |}.

(** A remote API that streams the fragments "He", an empty one, "llo". *)
Definition says_hello (_ : ChatRequest) : api_response :=
  Stream [Some "He"; None; Some "llo"] EndOfStream.

(** A remote API whose stream breaks after the same three fragments. *)
Definition breaks_off (_ : ChatRequest) : api_response :=
  Stream [Some "He"; None; Some "llo"] (StreamFails (AbortError "aborted")).

(** A conversation with the given ID, created and last updated at [t]. *)
Definition stored_at (i t : string) : Conversation :=
  {| id := i; model := "m"; created_at := t; updated_at := t;
     parameters := {| temperature := 7 # 10; max_tokens := 1000; top_p := 1;
                      frequency_penalty := 0; presence_penalty := 0 |};
     messages := []; metadata := None |}.

(** A store with one conversation for each of three consecutive days. *)
Definition three_days : gmap string file :=
  <["1.json" := Json (stored_at "1" "2024-01-01T00:00:00.000Z")]>
    (<["2.json" := Json (stored_at "2" "2024-01-02T00:00:00.000Z")]>
       {["3.json" := Json (stored_at "3" "2024-01-03T00:00:00.000Z")]}).

(** The arguments of a list call that filters on the two dates only. *)
Definition between_dates (after before : string) : ListConversationsArgs :=
  {| list_filter := Some {| filter_tags := None;
                            created_after := Some after;
                            created_before := Some before |};
     list_limit := None; list_offset := None |}.

(* ===================================================================== *)
(** * Vocabulary of the statements *)
(* ===================================================================== *)

(** The progress values among some events, in order. *)
Fixpoint progress_values (tr : list event) : list nat :=
  match tr with
  | Progress p _ :: tr' => p :: progress_values tr'
  | _ :: tr' => progress_values tr'
  | [] => []
  end.

(** The text that a stream of fragments accumulates to. *)
Definition stream_text (chunks : list (option string)) : string :=
  fold_left (fun text chunk => text ++ nullish chunk "") chunks "".

(** The values that [n] fragments make the loop of the chat tool report
    when its counter stands at [counter]. *)
Fixpoint reports (n counter : nat) : list nat :=
  match n with
  | O => []
  | S n' =>
      if (counter <? 80)%nat then
        let counter' := (counter + 1)%nat in
        (if (counter' <? 40)%nat || (counter' mod 5 =? 0)%nat
         then [counter'] else [])
        ++ reports n' counter'
      else reports n' counter
  end.

(** The contract of the progress counter: one tick per fragment from 31 up
    to 80, reported while under 40 and on every multiple of 5. *)
Definition ticks_reported (n : nat) : list nat :=
  List.filter (fun p => (p <? 40)%nat || (p mod 5 =? 0)%nat)
              (seq 31 (Nat.min n 50)).

(** The request of a turn with the arguments [given] on conversation [c]. *)
Definition request_for (given : PartialParameters) (c : Conversation)
  : ChatRequest :=
  {| req_model := model c;
     req_messages := messages c;
     req_max_tokens := nullish (opt_max_tokens given) (max_tokens (parameters c));
     req_temperature := nullish (opt_temperature given) (temperature (parameters c));
     req_top_p := nullish (opt_top_p given) (top_p (parameters c));
     req_frequency_penalty :=
       nullish (opt_frequency_penalty given) (frequency_penalty (parameters c));
     req_presence_penalty :=
       nullish (opt_presence_penalty given) (presence_penalty (parameters c)) |}.

(** The event [e] is a write that stores a conversation whose last
    message is [text] with role [r]. *)
Definition appends (r : role) (text : string) (e : event) : Prop :=
  exists name c earlier,
    e = Written name c
    /\ messages c = (earlier ++ [ {| msg_role := r; content := text |} ])%list.

(** At most one system message, and only in front. *)
Definition system_only_first (ms : list Message) : Prop :=
  match ms with
  | [] => True
  | _ :: later => Forall (fun m => msg_role m <> system) later
  end.

(** ** State changes of the basic steps *)

(** After a successful [writeConversation] of the text [c] under [name]. *)
Definition written (name : string) (c : Conversation) (w : world) : world :=
  set_trace (trace w ++ [Written name c])
    (set_files (<[name := Json c]> (files w)) (set_ticks (S (S (ticks w))) w)).

(** After [getConversation] has loaded [c] from the store for the key
    [conversationId]. *)
Definition loaded (conversationId : string) (c : Conversation) (w : world)
  : world :=
  set_conversations (<[conversationId := next_ref w]> (conversations w))
    (set_next_ref (S (next_ref w))
       (set_heap (fun r' => if Nat.eqb r' (next_ref w) then c else heap w r') w)).

(** After [conversation.messages.push(m)] on the object [r]. *)
Definition pushed (r : ref) (m : Message) (w : world) : world :=
  set_heap (fun r' => if Nat.eqb r' r then push_message m (heap w r)
                      else heap w r') w.

(** After the first two statements of [updateConversation] on [r]. *)
Definition touched (r : ref) (w : world) : world :=
  let c := with_updated_at (clock w (ticks w)) (heap w r) in
  set_conversations (<[id c := r]> (conversations w))
    (set_heap (fun r' => if Nat.eqb r' r then c else heap w r')
       (set_ticks (S (ticks w)) w)).

(** What the [catch] clause of the chat tool throws for the error [e]. *)
Definition chat_failure (e : error) : error :=
  match e with
  | ConversationNotFoundError _ | ChatTimeoutError _ => e
  | AbortError _ => ChatTimeoutError "OpenAI API request timed out"
  | _ => Error ("Failed to process chat request" ++ " " ++ "Chat" ++ ": "
                ++ message e)
  end.

(** The storage directory after the writes and removals among some
    events. *)
Fixpoint replay (tr : list event) (dir : gmap string file) : gmap string file :=
  match tr with
  | [] => dir
  | Written name c :: tr' => replay tr' (<[name := Json c]> dir)
  | Removed name :: tr' => replay tr' (delete name dir)
  | _ :: tr' => replay tr' dir
  end.

(** The ways one run of the chat tool can go, with its result and the
    events it adds. [w] is the state at the call. *)
Inductive turn_outcome (openai : ChatRequest -> api_response) (args : ChatArgs)
          (w : world) : result string -> list event -> Prop :=
| turn_not_found e w2 :
    Manager.getConversation (conversation_id args)
      (set_trace (trace w ++ [Progress 0 100]) w) = (Throw e, w2) ->
    turn_outcome openai args w (Throw (chat_failure e)) [Progress 0 100]
| turn_user_append_failed conv w2 e w3 :
    Manager.getConversation (conversation_id args)
      (set_trace (trace w ++ [Progress 0 100]) w) = (Ok conv, w2) ->
    Manager.addMessage (id (heap w2 conv)) user (chat_message args) w2
    = (Throw e, w3) ->
    turn_outcome openai args w (Throw (chat_failure e)) [Progress 0 100]
| turn_rejected conv w2 conv' w3 e_user e :
    Manager.getConversation (conversation_id args)
      (set_trace (trace w ++ [Progress 0 100]) w) = (Ok conv, w2) ->
    Manager.addMessage (id (heap w2 conv)) user (chat_message args) w2
    = (Ok conv', w3) ->
    appends user (chat_message args) e_user ->
    let rq := request_for (nullish (chat_parameters args) no_parameters)
                          (heap w3 conv) in
    openai rq = Rejected e ->
    turn_outcome openai args w (Throw (chat_failure e))
                 [Progress 0 100; e_user; Request rq]
| turn_stream_failed conv w2 conv' w3 e_user chunks e :
    Manager.getConversation (conversation_id args)
      (set_trace (trace w ++ [Progress 0 100]) w) = (Ok conv, w2) ->
    Manager.addMessage (id (heap w2 conv)) user (chat_message args) w2
    = (Ok conv', w3) ->
    appends user (chat_message args) e_user ->
    let rq := request_for (nullish (chat_parameters args) no_parameters)
                          (heap w3 conv) in
    openai rq = Stream chunks (StreamFails e) ->
    turn_outcome openai args w (Throw (chat_failure e))
                 ([Progress 0 100; e_user; Request rq]
                  ++ map (fun p => Progress p 100) (reports (length chunks) 30))
| turn_assistant_append_failed conv w2 conv' w3 e_user chunks e :
    Manager.getConversation (conversation_id args)
      (set_trace (trace w ++ [Progress 0 100]) w) = (Ok conv, w2) ->
    Manager.addMessage (id (heap w2 conv)) user (chat_message args) w2
    = (Ok conv', w3) ->
    appends user (chat_message args) e_user ->
    let rq := request_for (nullish (chat_parameters args) no_parameters)
                          (heap w3 conv) in
    openai rq = Stream chunks EndOfStream ->
    turn_outcome openai args w (Throw (chat_failure e))
                 ([Progress 0 100; e_user; Request rq]
                  ++ map (fun p => Progress p 100) (reports (length chunks) 30)
                  ++ [Progress 80 100])
| turn_complete conv w2 conv' w3 e_user chunks e_assistant :
    Manager.getConversation (conversation_id args)
      (set_trace (trace w ++ [Progress 0 100]) w) = (Ok conv, w2) ->
    Manager.addMessage (id (heap w2 conv)) user (chat_message args) w2
    = (Ok conv', w3) ->
    appends user (chat_message args) e_user ->
    let rq := request_for (nullish (chat_parameters args) no_parameters)
                          (heap w3 conv) in
    openai rq = Stream chunks EndOfStream ->
    appends assistant (stream_text chunks) e_assistant ->
    turn_outcome openai args w (Ok (stream_text chunks))
                 ([Progress 0 100; e_user; Request rq]
                  ++ map (fun p => Progress p 100) (reports (length chunks) 30)
                  ++ [Progress 80 100; e_assistant; Progress 100 100]).

(** The files written among some events, in order. *)
Fixpoint writes (tr : list event) : list (string * Conversation) :=
  match tr with
  | Written name c :: tr' => (name, c) :: writes tr'
  | _ :: tr' => writes tr'
  | [] => []
  end.

(** Events after the request of a turn: progress reports, then possibly
    the write that appends the assistant message [text]. *)
Definition after_request (text : string) (rest : list event) : Prop :=
  forall e, In e rest ->
    (exists p, e = Progress p 100) \/ appends assistant text e.

(** The store has no readable record for an ID: its file is absent, or
    its text is not JSON. *)
Definition absent_or_malformed (w : world) (conversationId : string) : Prop :=
  files w !! (conversationId ++ ".json") = None
  \/ exists m, files w !! (conversationId ++ ".json") = Some (Unparseable m).

(** The store cannot give a record for an ID: the file of the ID is
    absent, cannot be read, or holds text that is not JSON. *)
Definition unavailable (w : world) (conversationId : string) : Prop :=
  files w !! Store.getConversationFilePath conversationId = None
  \/ (exists m, files w !! Store.getConversationFilePath conversationId
                 = Some (Unreadable m))
  \/ (exists m, files w !! Store.getConversationFilePath conversationId
                 = Some (Unparseable m)).

(** The requests among some events, in order. *)
Fixpoint requests (tr : list event) : list ChatRequest :=
  match tr with
  | Request r :: tr' => r :: requests tr'
  | _ :: tr' => requests tr'
  | [] => []
  end.

(** The record that [createConversation] builds for the ID [id] at the
    time [now]. *)
Definition new_conversation (k : constants) (args : CreateConversationArgs)
           (id now : string) : Conversation :=
  let given := nullish (arg_parameters args) no_parameters in
  {| id := id;
     model := or_else (arg_model args) (DEFAULT_MODEL k);
     created_at := now;
     updated_at := now;
     parameters :=
       {| temperature := nullish (opt_temperature given) (7 # 10);
          max_tokens := nullish (opt_max_tokens given) 1000%Q;
          top_p := nullish (opt_top_p given) 1%Q;
          frequency_penalty := nullish (opt_frequency_penalty given) 0%Q;
          presence_penalty := nullish (opt_presence_penalty given) 0%Q |};
     messages :=
       if truthy (arg_system_prompt args)
       then [ {| msg_role := system;
                 content := nullish (arg_system_prompt args) "" |} ]
       else [];
     metadata := arg_metadata args |}.

(** ** Sequences of public operations *)

Inductive call : Type :=
| CallCreate (args : CreateConversationArgs)
| CallChat (openai : ChatRequest -> api_response) (args : ChatArgs).

(** The state after one call of a tool. *)
Definition after_call (k : constants) (defaultModel : string) (c : call)
           (w : world) : world :=
  match c with
  | CallCreate args => snd (Tools.create_conversation k defaultModel args w)
  | CallChat openai args => snd (Tools.chat k openai args w)
  end.

Definition after_calls (k : constants) (defaultModel : string)
           (cs : list call) (w : world) : world :=
  fold_left (fun w c => after_call k defaultModel c w) cs w.

Definition non_system (m : Message) : Prop := msg_role m <> system.

(** Every conversation object and every stored conversation has at most
    one system message, in front. *)
Definition system_messages_lead (w : world) : Prop :=
  (forall r, system_only_first (messages (heap w r)))
  /\ (forall name c, files w !! name = Some (Json c) ->
                     system_only_first (messages c)).

(** From [w] to [w'] the conversation objects that exist in [w] keep
    their messages and gain, at the end, messages other than system ones. *)
Definition only_appended (w w' : world) : Prop :=
  (next_ref w <= next_ref w')%nat
  /\ forall r, (r < next_ref w)%nat ->
       exists added,
         messages (heap w' r) = (messages (heap w r) ++ added)%list
         /\ Forall non_system added.

(** A change of state that keeps both properties. *)
Definition safe_step (w w' : world) : Prop :=
  only_appended w w'
  /\ (system_messages_lead w -> system_messages_lead w').

(** ** Sequential creation *)

(** [createConversation], returning the ID of the new conversation. *)
Definition create_id (k : constants) (args : CreateConversationArgs) : M string :=
  conversation <- Manager.createConversation k args ;;
  c <- deref conversation ;;
  ret (id c).

(** Creations one after the other; stops at the first that fails. *)
Fixpoint create_all (k : constants) (argss : list CreateConversationArgs)
  : M (list string) :=
  match argss with
  | [] => ret []
  | args :: rest =>
      i <- create_id k args ;;
      others <- create_all k rest ;;
      ret (i :: others)
  end.

(** The storage directory holds exactly the files [1.json] ... [n.json]. *)
Definition numbered (n : nat) (w : world) : Prop :=
  forall name,
    is_Some (files w !! name)
    <-> exists i, (1 <= i <= n)%nat
                  /\ name = Str.decimal (N.of_nat i) ++ ".json".

(** ** Listing *)

(** The metadata that [listConversations] collects from the entries
    [jsonFiles]: entries without a readable record are skipped. *)
Fixpoint readable (w : world) (jsonFiles : list string)
  : list ConversationMetadata :=
  match jsonFiles with
  | [] => []
  | file :: rest =>
      match files w !! (Str.basename file ".json" ++ ".json") with
      | Some (Json c) => Store.metadata_of c :: readable w rest
      | _ => readable w rest
      end
  end.

(** [created_at] lies between the two bounds, both included. *)
Definition in_window (getTime : string -> option Z) (after before : string)
           (conv : ConversationMetadata) : bool :=
  Tools.time_ge (getTime (meta_created_at conv)) (getTime after)
  && Tools.time_ge (getTime before) (getTime (meta_created_at conv)).

(** ** Dates in the ISO format *)

Module Iso.

Definition digit (c : ascii) : option Z :=
  match Str.digit_value c with Some d => Some (Z.of_N d) | None => None end.

(** The number written by exactly the digits of [s]. *)
Fixpoint number_of (s : string) (acc : Z) : option Z :=
  match s with
  | "" => Some acc
  | String c s' =>
      match digit c with
      | Some d => number_of s' (10 * acc + d)%Z
      | None => None
      end
  end.

Definition field (start len : nat) (s : string) : option Z :=
  let t := substring start len s in
  if Nat.eqb (String.length t) len then number_of t 0%Z else None.

Definition is_leap (y : Z) : bool :=
  ((y mod 4 =? 0) && negb (y mod 100 =? 0) || (y mod 400 =? 0))%Z.

Definition days_in_month (y m : Z) : Z :=
  if (m =? 2)%Z then (if is_leap y then 29 else 28)
  else if ((m =? 4) || (m =? 6) || (m =? 9) || (m =? 11))%Z then 30
  else 31.

(** Days from 1970-01-01 to the given day of the civil calendar. *)
Definition days_from_civil (y m d : Z) : Z :=
  let y' := (if m <=? 2 then y - 1 else y)%Z in
  let era := (y' / 400)%Z in
  let yoe := (y' - era * 400)%Z in
  let mp := (if 2 <? m then m - 3 else m + 9)%Z in
  let doy := ((153 * mp + 2) / 5 + d - 1)%Z in
  let doe := (yoe * 365 + yoe / 4 - yoe / 100 + doy)%Z in
  (era * 146097 + doe - 719468)%Z.

Definition date_ms (s : string) : option Z :=
  match field 0 4 s, field 5 2 s, field 8 2 s with
  | Some y, Some m, Some d =>
      if ((1 <=? m) && (m <=? 12) && (1 <=? d) && (d <=? days_in_month y m))%Z
         && String.eqb (substring 4 1 s) "-"
         && String.eqb (substring 7 1 s) "-"
      then Some (days_from_civil y m d * 86400000)%Z
      else None
  | _, _, _ => None
  end.

Definition time_ms (s : string) : option Z :=
  match field 11 2 s, field 14 2 s, field 17 2 s, field 20 3 s with
  | Some h, Some mi, Some sec, Some ms =>
      if ((h <=? 23) && (mi <=? 59) && (sec <=? 59))%Z
         && String.eqb (substring 10 1 s) "T"
         && String.eqb (substring 13 1 s) ":"
         && String.eqb (substring 16 1 s) ":"
         && String.eqb (substring 19 1 s) "."
         && String.eqb (substring 23 1 s) "Z"
      then Some (((h * 60 + mi) * 60 + sec) * 1000 + ms)%Z
      else None
  | _, _, _, _ => None
  end.

(** [new Date(s).getTime()] for the strings [YYYY-MM-DD] and
    [YYYY-MM-DDTHH:mm:ss.sssZ] (the output of [toISOString]); any other
    string is read as an invalid date. *)
Definition getTime (s : string) : option Z :=
  match String.length s with
  | 10%nat => date_ms s
  | 24%nat =>
      match date_ms (substring 0 10 s), time_ms s with
      | Some d, Some t => Some (d + t)%Z
      | _, _ => None
      end
  | _ => None
  end.

End Iso.

(* ===================================================================== *)
(** * Vocabulary of the further properties *)
(* ===================================================================== *)

(** The metadata of the conversations that a storage directory holds: one
    record for each [.json] entry whose text is JSON, in directory order. *)
Definition stored_metadata (dir : gmap string file) : list ConversationMetadata :=
  flat_map (fun entry : string * file =>
              match snd entry with
              | Json c =>
                  if Str.endsWith (fst entry) ".json"
                  then [Store.metadata_of c] else []
              | Unparseable _ | Unreadable _ => []
              end)
           (map_to_list dir).

(** [a] was updated at a valid date, [b] too, and [b] not after [a]. *)
Definition not_older (getTime : string -> option Z)
           (a b : ConversationMetadata) : Prop :=
  match getTime (meta_updated_at a), getTime (meta_updated_at b) with
  | Some ta, Some tb => (tb <= ta)%Z
  | _, _ => False
  end.

(** Every record of the list is not older than the records after it. *)
Fixpoint newest_first (getTime : string -> option Z)
         (l : list ConversationMetadata) : Prop :=
  match l with
  | [] => True
  | a :: later => Forall (not_older getTime a) later /\ newest_first getTime later
  end.

(** The conversation has one of the wanted tags. *)
Definition shares_tag (wanted : list string) (conv : ConversationMetadata) : Prop :=
  exists md ts tag,
    meta_metadata conv = Some md /\ tags md = Some ts
    /\ In tag ts /\ In tag wanted.

(** The arguments of a list call. *)
Definition listing_of (filter : option ListFilter) (limit offset : option nat)
  : ListConversationsArgs :=
  {| list_filter := filter; list_limit := limit; list_offset := offset |}.

(** The conversations of a list call before pagination. *)
Definition filtered (getTime : string -> option Z) (filter : option ListFilter)
           (all : list ConversationMetadata) : list ConversationMetadata :=
  match filter with
  | Some f => Tools.apply_filter getTime f all
  | None => all
  end.

(** The cache and the directory name every conversation by its own ID,
    and the objects of the cache have been allocated. *)
Definition coherent (w : world) : Prop :=
  (forall key r, conversations w !! key = Some r ->
                 id (heap w r) = key /\ (r < next_ref w)%nat)
  /\ (forall name c, files w !! name = Some (Json c) -> name = id c ++ ".json").

(** The calls of the five tools that the server registers. *)
Inductive operation : Type :=
| OpCreate (args : CreateConversationArgs)
| OpChat (openai : ChatRequest -> api_response) (args : ChatArgs)
| OpList (getTime : string -> option Z) (args : ListConversationsArgs)
| OpGet (conversation_id : string)
| OpDelete (conversation_id : string).

(** The ID that the call names, if any, is a file name. *)
Definition names_a_file (o : operation) : Prop :=
  match o with
  | OpChat _ args => Str.is_file_name (conversation_id args) = true
  | OpGet i | OpDelete i => Str.is_file_name i = true
  | OpCreate _ | OpList _ _ => True
  end.

Definition after_operation (k : constants) (defaultModel : string)
           (o : operation) (w : world) : world :=
  match o with
  | OpCreate args => snd (Tools.create_conversation k defaultModel args w)
  | OpChat openai args => snd (Tools.chat k openai args w)
  | OpList getTime args => snd (Tools.list_conversations getTime args w)
  | OpGet i => snd (Tools.get_conversation i w)
  | OpDelete i => snd (Tools.delete_conversation i w)
  end.

Definition after_operations (k : constants) (defaultModel : string)
           (os : list operation) (w : world) : world :=
  fold_left (fun w o => after_operation k defaultModel o w) os w.

(** [createConversation] runs up to an [await], is suspended, and runs
    on when the awaited call has returned; in between, other calls of
    tools may run. Three stretches of it, for the interleavings below.
    The first: its statements up to and including the allocation of the
    ID; they return the time read and the ID. *)
Definition create_begin : M (string * string) :=
  now <- now_ISO ;;
  id <- Store.getNextConversationId ;;
  ret (now, id).

(** The second: the statements after the allocation, into
    [writeConversation], up to the [await] of [fs.writeFile]; they return
    the new object and the record that is about to be written. *)
Definition create_enter (k : constants) (args : CreateConversationArgs)
           (now id : string) : M (ref * Conversation) :=
  conversation <- new_object (new_conversation k args id now) ;;
  Manager.cache_set id conversation ;;
  Store.ensureConversationDir ;;
  c <- deref conversation ;;
  ret (conversation, c).

(** The third: [fs.writeFile] of the text of that record. *)
Definition create_write (c : Conversation) : M unit :=
  fs_writeFile (Store.getConversationFilePath (id c)) (JSON.stringify c).

(** The second and the third stretch together: the statements of
    [createConversation] after the allocation. *)
Definition create_finish (k : constants) (args : CreateConversationArgs)
           (now id : string) : M ref :=
  conversation <- new_object (new_conversation k args id now) ;;
  Manager.cache_set id conversation ;;
  Store.writeConversation conversation ;;
  ret conversation.

(** Two records of the same conversation: they differ at most in their
    messages and in [updated_at]. *)
Definition same_identity (c c' : Conversation) : Prop :=
  id c' = id c /\ model c' = model c /\ created_at c' = created_at c
  /\ parameters c' = parameters c /\ metadata c' = metadata c.

(** From [w] to [w'] every conversation object that exists in [w] remains
    a record of the same conversation. *)
Definition identity_kept (w w' : world) : Prop :=
  (next_ref w <= next_ref w')%nat
  /\ forall r, (r < next_ref w)%nat -> same_identity (heap w r) (heap w' r).

(** The error that a computation ended with, if any. *)
Definition failure_of {A : Type} (r : result A * world) : option error :=
  match fst r with
  | Throw e => Some e
  | Ok _ => None
  end.

(** The error that a call of a tool raises, if any. *)
Definition failure (k : constants) (defaultModel : string)
           (o : operation) (w : world) : option error :=
  match o with
  | OpCreate args => failure_of (Tools.create_conversation k defaultModel args w)
  | OpChat openai args => failure_of (Tools.chat k openai args w)
  | OpList getTime args => failure_of (Tools.list_conversations getTime args w)
  | OpGet i => failure_of (Tools.get_conversation i w)
  | OpDelete i => failure_of (Tools.delete_conversation i w)
  end.

(** The kinds of error that leave [handleToolError]. *)
Definition surfaced (e : error) : Prop :=
  match e with
  | ConversationNotFoundError _ | ChatTimeoutError _ | Error _ => True
  | _ => False
  end.

(** A stored conversation with the given ID and messages. *)
Definition talk (i : string) (ms : list Message) : Conversation :=
  {| id := i; model := "m";
     created_at := "2024-01-01T00:00:00.000Z";
     updated_at := "2024-01-01T00:00:00.000Z";
     parameters := {| temperature := 7 # 10; max_tokens := 1000; top_p := 1;
                      frequency_penalty := 0; presence_penalty := 0 |};
     messages := ms; metadata := None |}.

(** A stored conversation with the given ID and tags, created and last
    updated at [t]. *)
Definition tagged (i t : string) (ts : list string) : Conversation :=
  {| id := i; model := "m"; created_at := t; updated_at := t;
     parameters := {| temperature := 7 # 10; max_tokens := 1000; top_p := 1;
                      frequency_penalty := 0; presence_penalty := 0 |};
     messages := [];
     metadata := Some {| title := None; tags := Some ts; extra := [] |} |}.

(** A store with two tagged conversations and one without metadata. *)
Definition tagged_store : gmap string file :=
  <["1.json" := Json (tagged "1" "2024-01-01T00:00:00.000Z" ["work"; "urgent"])]>
    (<["2.json" := Json (tagged "2" "2024-01-02T00:00:00.000Z" ["home"])]>
       {["3.json" := Json (stored_at "3" "2024-01-03T00:00:00.000Z")]}).

(** Creation arguments that leave everything to the defaults. *)
Definition plain_args : CreateConversationArgs :=
  {| arg_model := None; arg_system_prompt := None;
     arg_parameters := None; arg_metadata := None |}.

(** Creation arguments with the metadata [{"score": 1e999}], which
    [JSON.parse] reads as Infinity. *)
Definition with_overflow : CreateConversationArgs :=
  {| arg_model := None; arg_system_prompt := None; arg_parameters := None;
     arg_metadata :=
       Some {| title := None; tags := None;
               extra := [("score", JNumber (Infinite false))] |} |}.

(** An environment whose [n]-th call fails and whose clock stands still. *)
Definition failing_at (n : nat) (dir : gmap string file) : world :=
  started dir (fun _ => "2024-01-01T00:00:00.000Z")
          (fun i => if Nat.eqb i n then Some "EIO: i/o error" else None).

(* ===================================================================== *)
(** * The argument validators ([src/utils.ts]) *)
(* ===================================================================== *)

(** The validators take a value of unknown type. The values here are
    those that a JSON text carries ([json]); [None] stands for
    [undefined], which such a value holds at no property. *)
Module Validate.

Inductive js_type : Type :=
| TUndefined | TObject | TBoolean | TNumber | TString.

(** [typeof v] *)
Definition typeof (v : option json) : js_type :=
  match v with
  | None => TUndefined
  | Some JNull => TObject
  | Some (JBool _) => TBoolean
  | Some (JNumber _) => TNumber
  | Some (JString _) => TString
  | Some (JArray _) => TObject
  | Some (JObject _) => TObject
  end.

Definition same_type (a b : js_type) : bool :=
  match a, b with
  | TUndefined, TUndefined | TObject, TObject | TBoolean, TBoolean
  | TNumber, TNumber | TString, TString => true
  | _, _ => false
  end.

(** The value of the property [name] among the members of a parsed
    object: of two members with the same name the later one counts. *)
Fixpoint get_field (name : string) (fields : list (string * json))
  : option json :=
  match fields with
  | [] => None
  | (key, v) :: rest =>
      match get_field name rest with
      | Some later => Some later
      | None => if String.eqb key name then Some v else None
      end
  end.

(** [v[name]], for the names that the validators read: an array and a
    primitive value have no property of these names. *)
Definition prop (v : json) (name : string) : option json :=
  match v with
  | JObject fields => get_field name fields
  | _ => None
  end.

(** [typeof v !== 'object' || v === null] *)
Definition not_an_object (v : option json) : bool :=
  negb (same_type (typeof v) TObject)
  || match v with Some JNull => true | _ => false end.

(** [v !== undefined && typeof v !== t] *)
Definition defined_but_not (t : js_type) (v : option json) : bool :=
  match v with
  | None => false
  | Some _ => negb (same_type (typeof v) t)
  end.

Definition optionalNumericParams : list string :=
  ["max_tokens"; "temperature"; "top_p"; "frequency_penalty";
   "presence_penalty"].

(** The check of [candidate.parameters], common to both validators:
    [true] when the validator returns [false] in it. *)
Definition bad_parameters (candidate : json) : bool :=
  match prop candidate "parameters" with
  | Some parameters =>
      not_an_object (Some parameters)
      || existsb (fun param => defined_but_not TNumber (prop parameters param))
                 optionalNumericParams
  | None => false
  end.

(** [Array.isArray(v)] *)
Definition isArray (v : json) : bool :=
  match v with JArray _ => true | _ => false end.

(** [tags.some(tag => typeof tag !== 'string')] *)
Definition some_not_a_string (tags : json) : bool :=
  match tags with
  | JArray items =>
      existsb (fun tag => negb (same_type (typeof (Some tag)) TString)) items
  | _ => false
  end.

Definition isValidCreateConversationArgs (args : json) : bool :=
  if not_an_object (Some args) then false
  else
    let candidate := args in
    if defined_but_not TString (prop candidate "model") then false
    else if defined_but_not TString (prop candidate "system_prompt") then false
    else if bad_parameters candidate then false
    else
      match prop candidate "metadata" with
      | Some metadata =>
          if not_an_object (Some metadata) then false
          else if defined_but_not TString (prop metadata "title") then false
          else
            match prop metadata "tags" with
            | Some tags =>
                if negb (isArray tags) then false
                else if some_not_a_string tags then false
                else true
            | None => true
            end
      | None => true
      end.

Definition isValidChatArgs (args : json) : bool :=
  if not_an_object (Some args) then false
  else
    let candidate := args in
    if negb (same_type (typeof (prop candidate "conversation_id")) TString)
    then false
    else if negb (same_type (typeof (prop candidate "message")) TString)
    then false
    else if bad_parameters candidate then false
    else true.

End Validate.

(** ** The argument interfaces of [src/types.ts], as shapes of values *)

(** An object that is not [null]: a parsed object or an array. *)
Definition object_like (v : json) : Prop :=
  (exists fields, v = JObject fields) \/ (exists items, v = JArray items).

(** [name?: string] *)
Definition optional_string (v : option json) : Prop :=
  v = None \/ exists s, v = Some (JString s).

(** [name?: number] *)
Definition optional_number (v : option json) : Prop :=
  v = None \/ exists q, v = Some (JNumber q).

(** [parameters?: { temperature?: number; max_tokens?: number; ... }] *)
Definition sampling_shape (v : option json) : Prop :=
  v = None
  \/ exists p,
       v = Some p /\ object_like p
       /\ optional_number (Validate.prop p "temperature")
       /\ optional_number (Validate.prop p "max_tokens")
       /\ optional_number (Validate.prop p "top_p")
       /\ optional_number (Validate.prop p "frequency_penalty")
       /\ optional_number (Validate.prop p "presence_penalty").

(** [metadata?: { title?: string; tags?: string[]; [key: string]: any }] *)
Definition metadata_shape (v : option json) : Prop :=
  v = None
  \/ exists md,
       v = Some md /\ object_like md
       /\ optional_string (Validate.prop md "title")
       /\ (Validate.prop md "tags" = None
           \/ exists items,
                Validate.prop md "tags" = Some (JArray items)
                /\ Forall (fun tag => exists s, tag = JString s) items).

(** [interface ChatArgs] *)
Definition ChatArgs_shape (v : json) : Prop :=
  object_like v
  /\ (exists s, Validate.prop v "conversation_id" = Some (JString s))
  /\ (exists s, Validate.prop v "message" = Some (JString s))
  /\ sampling_shape (Validate.prop v "parameters").

(** [interface CreateConversationArgs] *)
Definition CreateConversationArgs_shape (v : json) : Prop :=
  object_like v
  /\ optional_string (Validate.prop v "model")
  /\ optional_string (Validate.prop v "system_prompt")
  /\ sampling_shape (Validate.prop v "parameters")
  /\ metadata_shape (Validate.prop v "metadata").
Example next_id_empty : Alloc.next_id [] = "1".
Proof. vm_compute. reflexivity. Qed.

Example next_id_mixed :
  Alloc.next_id ["3.json"; "007.json"; "5abc.json"; "12"; "-9.json"; " 8.json"; "4.json.bak"; "1e3.json"] = "4".
Proof. vm_compute. reflexivity. Qed.

Example next_id_safe_limit :
  Alloc.next_id ["9007199254740991.json"] = "9007199254740992".
Proof. vm_compute. reflexivity. Qed.

Example next_id_beyond_safe :
  Alloc.next_id ["9007199254740992.json"] = "9007199254740992".
Proof. vm_compute. reflexivity. Qed.

Example to_string_1e21 : Number.to_string (Number.parseInt "1000000000000000000000") = "1e+21".
Proof. vm_compute. reflexivity. Qed.

Example to_string_1e23 : Number.to_string (Number.parseInt "100000000000000000000000") = "1e+23".
Proof. vm_compute. reflexivity. Qed.

Example to_string_big : Number.to_string (Number.parseInt "123456789012345678901234567890") = "1.2345678901234568e+29".
Proof. vm_compute. reflexivity. Qed.
Section StrFacts.
Import Str.

Lemma append_nil_l s : "" ++ s = s.
Proof. reflexivity. Qed.

Lemma append_cons c s1 s2 : String c s1 ++ s2 = String c (s1 ++ s2).
Proof. reflexivity. Qed.

Lemma length_append s1 s2 :
  String.length (s1 ++ s2) = (String.length s1 + String.length s2)%nat.
Proof.
  induction s1 as [|c s1 IH]; [reflexivity|].
  rewrite append_cons. cbn [String.length]. rewrite IH. reflexivity.
Qed.

Lemma strip_suffix_self s : strip_suffix s s = Some "".
Proof. destruct s; cbn [strip_suffix]; rewrite String.eqb_refl; reflexivity. Qed.

Lemma strip_suffix_app suffix p : strip_suffix suffix (p ++ suffix) = Some p.
Proof.
  induction p as [|c p IH].
  - apply strip_suffix_self.
  - rewrite append_cons. cbn [strip_suffix].
    destruct (String.eqb (String c (p ++ suffix)) suffix) eqn:E.
    + apply String.eqb_eq in E.
      apply (f_equal String.length) in E. cbn [String.length] in E.
      rewrite length_append in E. lia.
    + rewrite IH. reflexivity.
Qed.

Lemma strip_suffix_Some suffix s p :
  strip_suffix suffix s = Some p -> s = p ++ suffix.
Proof.
  revert p. induction s as [|c s IH]; intros p H; cbn [strip_suffix] in H.
  - destruct (String.eqb "" suffix) eqn:E; [|discriminate].
    apply String.eqb_eq in E. injection H as <-. exact E.
  - destruct (String.eqb (String c s) suffix) eqn:E.
    + apply String.eqb_eq in E. injection H as <-. exact E.
    + destruct (strip_suffix suffix s) as [p'|]; [|discriminate].
      injection H as <-. rewrite append_cons. f_equal. apply IH. reflexivity.
Qed.

Lemma digit_value_digit_char d : (d < 10)%N -> digit_value (digit_char d) = Some d.
Proof.
  intros H. unfold digit_value, digit_char.
  rewrite N_ascii_embedding by lia.
  replace ((48 <=? 48 + d)%N && (48 + d <=? 57)%N) with true
    by (symmetry; apply andb_true_intro; split; apply N.leb_le; lia).
  f_equal. lia.
Qed.

Lemma digits_aux_lt fuel : forall n acc,
  Forall (fun d => (d < 10)%N) acc ->
  Forall (fun d => (d < 10)%N) (digits_aux fuel n acc).
Proof.
  induction fuel as [|f IH]; intros n acc Hacc; cbn [digits_aux]; [exact Hacc|].
  destruct (N.ltb_spec n 10).
  - constructor; assumption.
  - apply IH. constructor; [|assumption]. apply N.mod_lt. lia.
Qed.

Lemma digits_lt n : Forall (fun d => (d < 10)%N) (digits n).
Proof. apply digits_aux_lt. constructor. Qed.

Lemma horner_digits_aux fuel : forall n acc,
  (n < 10 ^ N.of_nat fuel)%N ->
  fold_left (fun a d => 10 * a + d)%N (digits_aux fuel n acc) 0%N
  = fold_left (fun a d => 10 * a + d)%N acc n.
Proof.
  induction fuel as [|f IH]; intros n acc Hn.
  - cbn in Hn. assert (n = 0%N) by lia. subst. reflexivity.
  - cbn [digits_aux]. destruct (N.ltb_spec n 10).
    + reflexivity.
    + rewrite IH.
      * cbn [fold_left]. f_equal.
        rewrite (N.div_mod n 10) at 3 by lia. reflexivity.
      * rewrite Nat2N.inj_succ, N.pow_succ_r' in Hn.
        apply N.Div0.div_lt_upper_bound. exact Hn.
Qed.

Lemma horner_digits n : horner (digits n) = n.
Proof.
  unfold horner, digits. rewrite horner_digits_aux; [reflexivity|].
  rewrite Nat2N.inj_succ, N2Nat.id.
  destruct n as [|p]; [reflexivity|].
  apply N.lt_le_trans with (2 ^ N.succ (N.log2 (N.pos p)))%N.
  - apply N.log2_spec. reflexivity.
  - apply N.pow_le_mono_l. lia.
Qed.

Lemma leading_digits_of_digits ds :
  Forall (fun d => (d < 10)%N) ds -> leading_digits (of_digits ds) = ds.
Proof.
  induction 1 as [|d ds Hd _ IH]; [reflexivity|].
  cbn [of_digits leading_digits]. rewrite digit_value_digit_char by exact Hd.
  rewrite IH. reflexivity.
Qed.

Lemma digits_aux_nonempty fuel n acc :
  acc <> [] \/ fuel <> O -> digits_aux fuel n acc <> [].
Proof.
  revert n acc. induction fuel as [|f IH]; intros n acc H; cbn [digits_aux].
  - destruct H; [assumption|congruence].
  - destruct (n <? 10)%N; [discriminate|]. apply IH. left. discriminate.
Qed.

Lemma digits_nonempty n : digits n <> [].
Proof. apply digits_aux_nonempty. right. discriminate. Qed.

Lemma leading_digits_decimal n : leading_digits (decimal n) = digits n.
Proof. apply leading_digits_of_digits, digits_lt. Qed.
End StrFacts.

Section NumberFacts.
Import Str Number.

Lemma round_double_small n : (n < 2 ^ 53)%N -> round_double n = Some n.
Proof.
  intros H. unfold round_double.
  assert (N.log2 n + 1 <= 53)%N as Hb.
  { destruct n as [|p]; [cbn; lia|].
    assert (N.log2 (N.pos p) < 53)%N; [|lia].
    apply N.log2_lt_pow2; [lia|exact H]. }
  apply N.leb_le in Hb. rewrite Hb. reflexivity.
Qed.

Lemma round_double_le_2p53 n : (n <= 2 ^ 53)%N -> round_double n = Some n.
Proof.
  intros H. destruct (N.eq_dec n (2 ^ 53)%N) as [->|Hne].
  - vm_compute. reflexivity.
  - apply round_double_small. lia.
Qed.

Lemma of_sign_magnitude_small n :
  (n <= 2 ^ 53)%N -> of_sign_magnitude false n = Num (Z.of_N n).
Proof.
  intros H. unfold of_sign_magnitude.
  destruct (N.eqb_spec n 0) as [->|_]; [reflexivity|].
  rewrite round_double_le_2p53 by exact H. reflexivity.
Qed.

Lemma digit_char_cases d :
  (d < 10)%N ->
  is_white_space (digit_char d) = false
  /\ digit_char d <> "-"%char /\ digit_char d <> "+"%char
  /\ digit_char d <> "."%char /\ digit_char d <> "e"%char.
Proof.
  intros H.
  assert (d = 0 \/ d = 1 \/ d = 2 \/ d = 3 \/ d = 4 \/ d = 5 \/ d = 6
          \/ d = 7 \/ d = 8 \/ d = 9)%N as Hd by lia.
  repeat destruct Hd as [-> | Hd]; try subst d;
    (split; [reflexivity|]); repeat split; discriminate.
Qed.

(** [parseInt] on a string that starts with a decimal digit. *)
Lemma parseInt_digit_first d rest :
  (d < 10)%N ->
  parseInt (String (digit_char d) rest)
  = of_sign_magnitude false (horner (d :: leading_digits rest)).
Proof.
  intros H. destruct (digit_char_cases d H) as (Hws & Hm & Hp & _).
  unfold parseInt. cbn [trim_start]. rewrite Hws.
  destruct (digit_char d) as [b0 b1 b2 b3 b4 b5 b6 b7] eqn:E.
  assert (leading_digits (String (Ascii b0 b1 b2 b3 b4 b5 b6 b7) rest)
          = d :: leading_digits rest) as Hl.
  { cbn [leading_digits]. rewrite <- E, digit_value_digit_char by exact H.
    reflexivity. }
  destruct b0, b1, b2, b3, b4, b5, b6, b7;
    try (exfalso; apply Hm; reflexivity);
    try (exfalso; apply Hp; reflexivity);
    rewrite Hl; reflexivity.
Qed.

Lemma decimal_cons n :
  exists d ds, (d < 10)%N /\ digits n = d :: ds
               /\ decimal n = String (digit_char d) (of_digits ds).
Proof.
  unfold decimal. pose proof (digits_lt n) as Hlt.
  pose proof (digits_nonempty n) as Hne.
  destruct (digits n) as [|d ds]; [congruence|].
  exists d, ds. inversion Hlt; subst. repeat split; assumption.
Qed.

Lemma parseInt_decimal n :
  parseInt (decimal n) = of_sign_magnitude false n.
Proof.
  destruct (decimal_cons n) as (d & ds & Hd & Hn & ->).
  rewrite parseInt_digit_first by exact Hd.
  pose proof (leading_digits_decimal n) as Hl.
  unfold decimal in Hl. rewrite Hn in Hl. cbn [of_digits leading_digits] in Hl.
  rewrite digit_value_digit_char in Hl by exact Hd.
  injection Hl as ->. rewrite <- Hn, horner_digits. reflexivity.
Qed.

Lemma decimal_inj n n' : decimal n = decimal n' -> n = n'.
Proof.
  intros H. apply (f_equal leading_digits) in H.
  rewrite !leading_digits_decimal in H.
  apply (f_equal horner) in H. rewrite !horner_digits in H. exact H.
Qed.

Lemma strip_trailing_zeros_lt ds :
  Forall (fun d => (d < 10)%N) ds ->
  Forall (fun d => (d < 10)%N) (strip_trailing_zeros ds).
Proof.
  intros H. unfold strip_trailing_zeros.
  apply Forall_rev. apply Forall_rev in H.
  induction H as [|d l Hd Hl IH]; cbn [strip_trailing_zeros_rev]; [constructor|].
  destruct d; [exact IH|constructor; assumption].
Qed.

(** No string in scientific notation parses to a number above 9. *)
Lemma parseInt_sci_format ds e :
  Forall (fun d => (d < 10)%N) ds ->
  parseInt (sci_format (of_digits ds) e) = NaN
  \/ exists v, (v <= 9)%N /\ parseInt (sci_format (of_digits ds) e) = Num (Z.of_N v).
Proof.
  intros H. destruct ds as [|d ds]; [left; reflexivity|].
  inversion H as [|? ? Hd Hds]; subst. right. exists d. split; [lia|].
  cbn [of_digits sci_format].
  assert (forall rest, leading_digits rest = [] ->
    parseInt (String (digit_char d) rest) = Num (Z.of_N d)) as Hp.
  { intros rest Hr. rewrite parseInt_digit_first by exact Hd. rewrite Hr.
    unfold horner. cbn [fold_left].
    replace (10 * 0 + d)%N with d by lia.
    apply of_sign_magnitude_small.
    apply N.le_trans with 10%N; [lia|]. vm_compute. discriminate. }
  destruct (of_digits ds); apply Hp; reflexivity.
Qed.

Lemma shortest_shape fuel : forall k m,
  exists ds e, Forall (fun d => (d < 10)%N) ds
               /\ shortest fuel k m = sci_format (of_digits ds) e.
Proof.
  assert (forall s e, exists ds e', Forall (fun d => (d < 10)%N) ds
            /\ sci_of s e = sci_format (of_digits ds) e') as Hsci.
  { intros s e. eexists _, _. split; [|reflexivity].
    apply strip_trailing_zeros_lt, digits_lt. }
  induction fuel as [|f IH]; intros k m; cbn [shortest]; [apply Hsci|].
  repeat match goal with
         | |- context [match ?b with Some _ => _ | None => _ end] => destruct b
         | |- context [if ?b then _ else _] => destruct b
         end; try apply Hsci; apply IH.
Qed.

Lemma parseInt_nonneg_to_string m z :
  parseInt (nonneg_to_string m) = Num z -> (9 < z)%Z ->
  nonneg_to_string m = decimal m.
Proof.
  intros H Hz. unfold nonneg_to_string in *.
  destruct (m <? 10 ^ 21)%N; [reflexivity|]. exfalso.
  destruct (shortest_shape 17 1 m) as (ds & e & Hds & Heq).
  rewrite Heq in H.
  destruct (parseInt_sci_format ds e Hds) as [Hn|(v & Hv & Hn)];
    rewrite Hn in H; [discriminate|].
  injection H as <-. lia.
Qed.

(** A number that [String] prints back to the text it was parsed from
    is the canonical numeral of a natural number, unless it is negative. *)
Lemma accepted_base base :
  isNaN (parseInt base) = false ->
  to_string (parseInt base) = base ->
  match parseInt base with
  | Num z => (0 <= z)%Z -> base = decimal (Z.to_N z)
  | PosInfinity => False
  | _ => True
  end.
Proof.
  intros Hnan Hstr. destruct (parseInt base) as [| |z| |] eqn:E; try exact I.
  - intros Hz. cbn [to_string] in Hstr.
    destruct (Z.ltb_spec z 0); [lia|].
    replace (Z.abs_N z) with (Z.to_N z) in Hstr by lia.
    destruct (Z_le_gt_dec z 9) as [Hs|Hb].
    + unfold nonneg_to_string in Hstr.
      replace (Z.to_N z <? 10 ^ 21)%N with true in Hstr; [congruence|].
      symmetry. apply N.ltb_lt.
      apply N.le_lt_trans with 9%N; [lia|]. vm_compute. reflexivity.
    + rewrite <- Hstr at 1.
      apply parseInt_nonneg_to_string with (z := z); [|lia].
      rewrite Hstr. exact E.
  - cbn [to_string] in Hstr. subst base. vm_compute in E. discriminate.
Qed.
End NumberFacts.

Section AllocFacts.
Import Str Number Alloc.

Lemma basename_json b : basename (b ++ ".json") ".json" = b.
Proof. unfold basename. rewrite strip_suffix_app. reflexivity. Qed.

Lemma endsWith_json b : endsWith (b ++ ".json") ".json" = true.
Proof. unfold endsWith. rewrite strip_suffix_app. reflexivity. Qed.

Lemma endsWith_inv file ext :
  endsWith file ext = true -> exists b, file = b ++ ext.
Proof.
  unfold endsWith. destruct (strip_suffix ext file) as [p|] eqn:E; [|discriminate].
  intros _. exists p. apply strip_suffix_Some. exact E.
Qed.

Lemma classic_decimal b :
  (exists n, b = decimal n) \/ (forall n, b <> decimal n).
Proof.
  destruct (string_dec b (decimal (horner (leading_digits b)))) as [E|E].
  - left. eexists. exact E.
  - right. intros n ->. apply E.
    rewrite leading_digits_decimal, horner_digits. reflexivity.
Qed.

Lemma step_decimal a n :
  (n < 2 ^ 53)%N ->
  step (Num (Z.of_N a)) (decimal n ++ ".json") = Num (Z.of_N (N.max a n)).
Proof.
  intros Hn. unfold step. rewrite basename_json, parseInt_decimal.
  rewrite of_sign_magnitude_small by lia.
  cbn [isNaN negb andb to_string].
  destruct (Z.ltb_spec (Z.of_N n) 0); [lia|].
  rewrite Zabs2N.id. unfold nonneg_to_string.
  replace (n <? 10 ^ 21)%N with true.
  2:{ symmetry. apply N.ltb_lt. apply N.lt_trans with (2 ^ 53)%N; [exact Hn|].
      vm_compute. reflexivity. }
  rewrite String.eqb_refl. cbn [Number.max]. f_equal. lia.
Qed.

(** One iteration of the loop on a [.json] entry: the running maximum
    grows exactly by the entries whose base name is a canonical numeral. *)
Lemma step_spec a b :
  (forall n, b = decimal n -> (n < 2 ^ 53)%N) ->
  exists a',
    step (Num (Z.of_N a)) (b ++ ".json") = Num (Z.of_N a')
    /\ (a <= a')%N
    /\ (a' = a \/ b = decimal a')
    /\ (forall n, b = decimal n -> (n <= a')%N).
Proof.
  intros Hsafe.
  destruct (classic_decimal b) as [(n & ->)|Hnot].
  - exists (N.max a n). rewrite step_decimal by (apply Hsafe; reflexivity).
    split; [reflexivity|]. split; [lia|]. split.
    + destruct (N.max_spec a n) as [[_ ->]|[_ ->]]; [right|left]; reflexivity.
    + intros n' Hn'. apply decimal_inj in Hn'. subst. lia.
  - exists a. split; [|split; [lia|split; [left; reflexivity|]]].
    2:{ intros n Hn. exfalso. apply (Hnot n Hn). }
    unfold step. rewrite basename_json.
    destruct (negb (isNaN (parseInt b)) && String.eqb (to_string (parseInt b)) b) eqn:C;
      [|reflexivity].
    apply andb_prop in C. destruct C as [C1 C2].
    apply negb_true_iff in C1. apply String.eqb_eq in C2.
    pose proof (accepted_base b C1 C2) as Hacc.
    destruct (parseInt b) as [| |z| |]; cbn [Number.max]; try discriminate.
    + destruct (Z.ltb_spec (Z.of_N a) 0); [lia|reflexivity].
    + destruct (Z_lt_le_dec z 0) as [Hz|Hz].
      * f_equal. lia.
      * exfalso. apply (Hnot (Z.to_N z)). apply Hacc. exact Hz.
    + destruct Hacc.
    + reflexivity.
Qed.
End AllocFacts.

Section AllocMax.
Import Str Number Alloc.

Lemma fold_step_spec l : forall a,
  (forall f, In f l -> endsWith f ".json" = true) ->
  (forall n, counted l n -> (n < 2 ^ 53)%N) ->
  exists m,
    fold_left step l (Num (Z.of_N a)) = Num (Z.of_N m)
    /\ (a <= m)%N
    /\ (m = a \/ counted l m)
    /\ (forall n, counted l n -> (n <= m)%N).
Proof.
  induction l as [|f l IH]; intros a Hjson Hsafe.
  - exists a. split; [reflexivity|]. split; [lia|].
    split; [left; reflexivity|]. intros n [].
  - destruct (endsWith_inv f ".json" (Hjson f (or_introl eq_refl))) as [b ->].
    destruct (step_spec a b) as (a' & Hstep & Hle & Hwho & Hmax).
    { intros n ->. apply Hsafe. left. reflexivity. }
    destruct (IH a') as (m & Hfold & Hle' & Hwho' & Hmax').
    { intros f Hf. apply Hjson. right. exact Hf. }
    { intros n Hn. apply Hsafe. right. exact Hn. }
    exists m. cbn [fold_left]. rewrite Hstep. split; [exact Hfold|].
    split; [lia|]. split.
    + destruct Hwho' as [->|Hc]; [|right; right; exact Hc].
      destruct Hwho as [->|Hb]; [left; reflexivity|].
      right. left. rewrite Hb. reflexivity.
    + intros n [Hn|Hn].
      * apply (f_equal (fun s => basename s ".json")) in Hn.
        rewrite !basename_json in Hn. specialize (Hmax n Hn). lia.
      * apply Hmax'. exact Hn.
Qed.

Lemma counted_filter files n :
  counted (List.filter (fun file => endsWith file ".json") files) n
  <-> counted files n.
Proof.
  unfold counted. rewrite filter_In. split; [tauto|].
  intros H. split; [exact H|apply endsWith_json].
Qed.

Lemma next_id_spec files :
  (forall n, counted files n -> (n < 2 ^ 53)%N) ->
  exists m,
    (m = 0%N \/ counted files m)
    /\ (forall n, counted files n -> (n <= m)%N)
    /\ next_id files = decimal (m + 1).
Proof.
  intros Hsafe. unfold next_id.
  destruct (fold_step_spec (List.filter (fun file => endsWith file ".json") files) 0)
    as (m & Hfold & _ & Hwho & Hmax).
  { intros f Hf. apply filter_In in Hf. tauto. }
  { intros n Hn. apply Hsafe, counted_filter, Hn. }
  exists m. change (Num 0) with (Num (Z.of_N 0)). rewrite Hfold.
  assert (m < 2 ^ 53)%N as Hm.
  { destruct Hwho as [->|Hc]; [vm_compute; reflexivity|].
    apply Hsafe, counted_filter, Hc. }
  split; [|split].
  - destruct Hwho as [->|Hc]; [left; reflexivity|right; apply counted_filter, Hc].
  - intros n Hn. apply Hmax, counted_filter, Hn.
  - cbn [Number.add]. unfold of_Z.
    destruct (Z.eqb_spec (Z.of_N m + 1) 0); [lia|].
    destruct (Z.ltb_spec (Z.of_N m + 1) 0); [lia|].
    replace (Z.abs_N (Z.of_N m + 1)) with (m + 1)%N by lia.
    rewrite of_sign_magnitude_small by lia.
    cbn [to_string]. destruct (Z.ltb_spec (Z.of_N (m + 1)) 0); [lia|].
    rewrite Zabs2N.id. unfold nonneg_to_string.
    replace (m + 1 <? 10 ^ 21)%N with true; [reflexivity|].
    symmetry. apply N.ltb_lt. apply N.le_lt_trans with (2 ^ 53)%N; [lia|].
    vm_compute. reflexivity.
Qed.
End AllocMax.

Section PlainNumerals.
Import Str.

Lemma digits_aux_app fuel : forall n acc,
  (n < 10 ^ N.of_nat fuel)%N ->
  digits_aux fuel n acc = (digits_aux fuel n [] ++ acc)%list.
Proof.
  induction fuel as [|f IH]; intros n acc Hn.
  - reflexivity.
  - cbn [digits_aux]. destruct (N.ltb_spec n 10); [reflexivity|].
    assert (n / 10 < 10 ^ N.of_nat f)%N as Hq.
    { rewrite Nat2N.inj_succ, N.pow_succ_r' in Hn.
      apply N.Div0.div_lt_upper_bound. exact Hn. }
    rewrite (IH _ (_ :: acc)) by exact Hq.
    rewrite (IH _ [_]) by exact Hq.
    rewrite <- app_assoc. reflexivity.
Qed.

Lemma digits_aux_fuel f : forall f' n,
  (n < 10 ^ N.of_nat (S f))%N -> (n < 10 ^ N.of_nat (S f'))%N ->
  digits_aux (S f) n [] = digits_aux (S f') n [].
Proof.
  induction f as [|f IH]; intros f' n Hn Hn'.
  - cbn [digits_aux]. destruct (N.ltb_spec n 10); [reflexivity|].
    cbn in Hn. lia.
  - destruct f' as [|f'].
    { cbn [digits_aux]. destruct (N.ltb_spec n 10); [reflexivity|].
      cbn in Hn'. lia. }
    cbn [digits_aux]. destruct (N.ltb_spec n 10); [reflexivity|].
    assert (n / 10 < 10 ^ N.of_nat (S f))%N as Hq.
    { rewrite (Nat2N.inj_succ (S f)), N.pow_succ_r' in Hn.
      apply N.Div0.div_lt_upper_bound. exact Hn. }
    assert (n / 10 < 10 ^ N.of_nat (S f'))%N as Hq'.
    { rewrite (Nat2N.inj_succ (S f')), N.pow_succ_r' in Hn'.
      apply N.Div0.div_lt_upper_bound. exact Hn'. }
    change (digits_aux (S f) (n / 10) [n mod 10]
            = digits_aux (S f') (n / 10) [n mod 10])%N.
    rewrite (digits_aux_app (S f)), (digits_aux_app (S f')) by assumption.
    rewrite (IH f' (n / 10)%N) by assumption. reflexivity.
Qed.

Lemma digits_fuel n : (n < 10 ^ N.of_nat (S (N.to_nat (N.log2 n))))%N.
Proof.
  rewrite Nat2N.inj_succ, N2Nat.id.
  destruct n as [|p]; [reflexivity|].
  apply N.lt_le_trans with (2 ^ N.succ (N.log2 (N.pos p)))%N.
  - apply N.log2_spec. reflexivity.
  - apply N.pow_le_mono_l. lia.
Qed.

Lemma digits_unfold n f :
  (n < 10 ^ N.of_nat (S f))%N -> digits n = digits_aux (S f) n [].
Proof. intros H. apply digits_aux_fuel; [apply digits_fuel|exact H]. Qed.

Lemma digits_small d : (d < 10)%N -> digits d = [d].
Proof.
  intros H. rewrite (digits_unfold d 0) by (cbn; lia).
  cbn [digits_aux]. apply N.ltb_lt in H. rewrite H. reflexivity.
Qed.

Lemma digits_step a d :
  (0 < a)%N -> (d < 10)%N -> digits (10 * a + d) = (digits a ++ [d])%list.
Proof.
  intros Ha Hd.
  pose proof (digits_fuel a) as Hf.
  set (f := N.to_nat (N.log2 a)) in *.
  assert (10 * a + d < 10 ^ N.of_nat (S (S f)))%N as Hf'.
  { rewrite (Nat2N.inj_succ (S f)), N.pow_succ_r'. lia. }
  rewrite (digits_unfold _ (S f) Hf').
  cbn [digits_aux]. destruct (N.ltb_spec (10 * a + d) 10); [lia|].
  replace ((10 * a + d) / 10)%N with a.
  2:{ apply N.div_unique with d; lia. }
  replace ((10 * a + d) mod 10)%N with d.
  2:{ apply N.mod_unique with a; lia. }
  change (digits_aux (S f) a [d] = (digits a ++ [d])%list).
  rewrite digits_aux_app by exact Hf. reflexivity.
Qed.

Lemma horner_snoc ds d : horner (ds ++ [d]) = (10 * horner ds + d)%N.
Proof. unfold horner. rewrite fold_left_app. reflexivity. Qed.

(** Printing inverts parsing on digit lists without a leading zero. *)
Lemma digits_horner ds :
  Forall (fun d => (d < 10)%N) ds ->
  (exists d ds', ds = d :: ds' /\ (d <> 0%N \/ ds' = [])) ->
  digits (horner ds) = ds.
Proof.
  induction ds as [|d ds IH] using rev_ind; intros Hlt (d0 & ds0 & E & Hz).
  - discriminate.
  - apply Forall_app in Hlt. destruct Hlt as [Hlt Hd].
    inversion Hd as [|? ? Hd' _]; subst.
    rewrite horner_snoc.
    destruct ds as [|d1 ds1].
    + cbn. replace (10 * 0 + d)%N with d by lia. apply digits_small. lia.
    + cbn [app] in E. injection E as -> E.
      assert (d0 <> 0%N) as Hd0.
      { destruct Hz as [Hz| ->]; [exact Hz|]. destruct ds1; discriminate. }
      assert (digits (horner (d0 :: ds1)) = d0 :: ds1) as IH'.
      { apply IH; [exact Hlt|]. exists d0, ds1. split; [reflexivity|]. left. exact Hd0. }
      rewrite digits_step; [rewrite IH'; reflexivity| |lia].
      destruct (N.eq_dec (horner (d0 :: ds1)) 0%N) as [E0|]; [|lia].
      rewrite E0 in IH'. rewrite digits_small in IH' by lia.
      injection IH' as <- _. congruence.
Qed.

Lemma digit_char_digit_value c d : digit_value c = Some d -> digit_char d = c.
Proof.
  unfold digit_value, digit_char.
  destruct ((48 <=? N_of_ascii c)%N && (N_of_ascii c <=? 57)%N) eqn:E; [|discriminate].
  apply andb_prop in E. destruct E as [E1 E2].
  apply N.leb_le in E1. apply N.leb_le in E2.
  intros H. injection H as <-.
  replace (48 + (N_of_ascii c - 48))%N with (N_of_ascii c) by lia.
  apply ascii_N_embedding.
Qed.

Lemma digit_value_lt c d : digit_value c = Some d -> (d < 10)%N.
Proof.
  unfold digit_value.
  destruct ((48 <=? N_of_ascii c)%N && (N_of_ascii c <=? 57)%N) eqn:E; [|discriminate].
  apply andb_prop in E. destruct E as [E1 E2].
  apply N.leb_le in E1. apply N.leb_le in E2.
  intros H. injection H as <-. lia.
Qed.

Lemma all_digits_spec s :
  all_digits s = true ->
  of_digits (leading_digits s) = s
  /\ Forall (fun d => (d < 10)%N) (leading_digits s).
Proof.
  induction s as [|c s IH]; cbn [all_digits leading_digits of_digits].
  - intros _. split; [reflexivity|constructor].
  - destruct (digit_value c) as [d|] eqn:E; [|discriminate].
    intros H. destruct (IH H) as [IH1 IH2]. cbn [of_digits]. split.
    + rewrite IH1, (digit_char_digit_value c d E). reflexivity.
    + constructor; [apply (digit_value_lt c d E)|exact IH2].
Qed.

Lemma all_digits_of_digits ds :
  Forall (fun d => (d < 10)%N) ds -> all_digits (of_digits ds) = true.
Proof.
  induction 1 as [|d ds Hd _ IH]; [reflexivity|].
  cbn [of_digits all_digits]. rewrite digit_value_digit_char by exact Hd. exact IH.
Qed.

Lemma digits_aux_head fuel : forall n acc d rest,
  (n < 10 ^ N.of_nat fuel)%N ->
  (n <> 0%N \/ acc = []) ->
  digits_aux fuel n acc = d :: rest ->
  d <> 0%N \/ rest = [].
Proof.
  induction fuel as [|f IH]; intros n acc d rest Hn Hz.
  - cbn in Hn. cbn [digits_aux]. intros ->.
    destruct Hz as [Hz|Hz]; [lia|discriminate].
  - cbn [digits_aux]. destruct (N.ltb_spec n 10).
    + intros E. injection E as <- <-.
      destruct Hz as [Hz|Hz]; [left; exact Hz|right; exact Hz].
    + intros E. apply IH in E; [exact E| |].
      * rewrite Nat2N.inj_succ, N.pow_succ_r' in Hn.
        apply N.Div0.div_lt_upper_bound. exact Hn.
      * left. intros E0. apply N.div_small_iff in E0; lia.
Qed.

Lemma digit_char_zero d : (d < 10)%N -> Ascii.eqb (digit_char d) "0" = true -> d = 0%N.
Proof.
  intros Hd H. apply Ascii.eqb_eq in H.
  apply (f_equal digit_value) in H. rewrite digit_value_digit_char in H by exact Hd.
  cbn in H. injection H as ->. reflexivity.
Qed.

(** The plain numerals are exactly the canonical numerals of the natural
    numbers. *)
Lemma plain_numeral_decimal s :
  plain_numeral s = true <-> exists n, s = decimal n.
Proof.
  split.
  - destruct s as [|c rest]; [discriminate|].
    unfold plain_numeral. intros H. apply andb_prop in H. destruct H as [Hd Hz].
    destruct (all_digits_spec _ Hd) as [Hs Hlt].
    exists (horner (leading_digits (String c rest))). unfold decimal.
    rewrite digits_horner; [symmetry; exact Hs|exact Hlt|].
    cbn [all_digits leading_digits] in *.
    destruct (digit_value c) as [d|] eqn:E; [|discriminate].
    exists d, (leading_digits rest). split; [reflexivity|].
    apply orb_prop in Hz. destruct Hz as [Hz|Hz].
    + left. intros ->. apply digit_char_digit_value in E. subst c. discriminate.
    + right. apply String.eqb_eq in Hz. subst rest. reflexivity.
  - intros [n ->]. unfold plain_numeral, decimal.
    pose proof (digits_lt n) as Hlt.
    destruct (digits n) as [|d ds] eqn:E; [destruct (digits_nonempty n E)|].
    cbn [of_digits]. apply andb_true_intro. split.
    + apply (all_digits_of_digits (d :: ds)). exact Hlt.
    + inversion Hlt as [|? ? Hd Hds]; subst.
      destruct (digits_aux_head _ n [] d ds (digits_fuel n) (or_intror eq_refl) E)
        as [Hnz| ->].
      * destruct (Ascii.eqb (digit_char d) "0") eqn:Ez; [|reflexivity].
        apply digit_char_zero in Ez; [contradiction|exact Hd].
      * apply orb_true_intro. right. reflexivity.
Qed.

End PlainNumerals.

(* ===================================================================== *)
(** * JSON texts of conversations *)
(* ===================================================================== *)

Section JsonTexts.

(** Induction on JSON values, through their arrays and objects. *)
Lemma json_values_ind (P : json -> Prop) :
  P JNull -> (forall b, P (JBool b)) -> (forall x, P (JNumber x)) ->
  (forall s, P (JString s)) ->
  (forall items, Forall P items -> P (JArray items)) ->
  (forall fields, Forall (fun field => P (snd field)) fields ->
                  P (JObject fields)) ->
  forall v, P v.
Proof.
  intros Hnull Hbool Hnum Hstr Harr Hobj.
  fix IH 1. intros [ |b|x|s|items|fields].
  - exact Hnull.
  - apply Hbool.
  - apply Hnum.
  - apply Hstr.
  - apply Harr. induction items as [|v items IHitems]; constructor.
    + apply IH.
    + exact IHitems.
  - apply Hobj. induction fields as [|[key v] fields IHfields]; constructor.
    + apply IH.
    + exact IHfields.
Qed.

Lemma map_fixed {A} (f : A -> A) (l : list A) :
  map f l = l <-> Forall (fun a => f a = a) l.
Proof.
  induction l as [|a l IH]; cbn [map].
  - split; [constructor|reflexivity].
  - split.
    + intros H. injection H as Ha Hl. constructor; [exact Ha|]. apply IH, Hl.
    + intros H. inversion H as [|? ? Ha Hl]; subst.
      rewrite Ha. f_equal. apply IH, Hl.
Qed.

Lemma forallb_Forall_iff {A} (p : A -> bool) (Q : A -> Prop) (l : list A) :
  Forall (fun a => Q a <-> p a = true) l ->
  Forall Q l <-> forallb p l = true.
Proof.
  induction 1 as [|a l Ha Hl IH]; cbn [forallb].
  - split; [reflexivity|constructor].
  - rewrite andb_true_iff, <- Ha, <- IH. split.
    + intros H. inversion H; subst. split; assumption.
    + intros [H1 H2]. constructor; assumption.
Qed.

(** [JSON.stringify] writes a value as it is exactly when all its
    numbers are finite. *)
Lemma stringify_value_fixed v :
  JSON.stringify_value v = v <-> JSON.finite_value v = true.
Proof.
  induction v as [ |b|x|s|items IH|fields IH] using json_values_ind;
    cbn [JSON.stringify_value JSON.finite_value]; try (split; reflexivity).
  - destruct x as [q| |negative]; split; try reflexivity; discriminate.
  - rewrite <- (forallb_Forall_iff _ (fun v => JSON.stringify_value v = v));
      [|exact IH].
    rewrite <- map_fixed. split; [intros H; injection H as H; exact H|].
    intros ->. reflexivity.
  - rewrite <- (forallb_Forall_iff
                  _ (fun field => JSON.stringify_value (snd field) = snd field));
      [|exact IH].
    split.
    + intros H. injection H as H. apply map_fixed in H.
      eapply List.Forall_impl; [|exact H].
      intros [key v] Hf. cbn [fst snd] in *. congruence.
    + intros H. f_equal. apply map_fixed.
      eapply List.Forall_impl; [|exact H].
      intros [key v] Hf. cbn [fst snd] in *. rewrite Hf. reflexivity.
Qed.

Lemma stringify_fields_fixed (fields : list (string * json)) :
  map (fun field => (fst field, JSON.stringify_value (snd field))) fields
  = fields
  <-> forallb (fun field => JSON.finite_value (snd field)) fields = true.
Proof.
  rewrite <- (forallb_Forall_iff
                _ (fun field => JSON.stringify_value (snd field) = snd field)).
  - rewrite map_fixed. split; intros H; (eapply List.Forall_impl; [|exact H]);
      intros [key v] Hf; cbn [fst snd] in *; congruence.
  - apply List.Forall_forall. intros field _. apply stringify_value_fixed.
Qed.

(** The text of a conversation reads as the conversation itself exactly
    when the numbers of its metadata are finite. *)
Lemma stringify_fixed c : JSON.stringify c = c <-> JSON.finite c = true.
Proof.
  destruct c as [i mo ca ua ps ms [[ti ta ex]|]];
    unfold JSON.stringify, JSON.finite, JSON.stringify_metadata;
    cbn [id model created_at updated_at parameters messages metadata
         option_map title tags extra]; [|split; reflexivity].
  rewrite <- stringify_fields_fixed. split.
  - intros H. injection H as H. exact H.
  - intros ->. reflexivity.
Qed.

Lemma stringify_value_twice v :
  JSON.stringify_value (JSON.stringify_value v) = JSON.stringify_value v.
Proof.
  induction v as [ |b|x|s|items IH|fields IH] using json_values_ind;
    cbn [JSON.stringify_value]; try reflexivity.
  - destruct x as [q| |negative]; reflexivity.
  - f_equal. rewrite map_map. apply map_ext_Forall. exact IH.
  - f_equal. rewrite map_map. apply map_ext_Forall.
    eapply List.Forall_impl; [|exact IH].
    intros [key v] Hf. cbn [fst snd] in *. rewrite Hf. reflexivity.
Qed.

(** Writing the text of a text changes nothing. *)
Lemma stringify_twice c : JSON.stringify (JSON.stringify c) = JSON.stringify c.
Proof.
  destruct c as [i mo ca ua ps ms [[ti ta ex]|]]; [|reflexivity].
  unfold JSON.stringify, JSON.stringify_metadata.
  cbn [id model created_at updated_at parameters messages metadata
       option_map title tags extra].
  do 3 f_equal. rewrite map_map. apply map_ext.
  intros [key v]. cbn [fst snd]. rewrite stringify_value_twice. reflexivity.
Qed.

End JsonTexts.

(* ===================================================================== *)
(** * Running the operations *)
(* ===================================================================== *)

Section Running.

Lemma bind_eq {A B} (m : M A) (k : A -> M B) w :
  bind m k w = match m w with
               | (Ok a, w') => k a w'
               | (Throw e, w') => (Throw e, w')
               end.
Proof. reflexivity. Qed.

Lemma io_call_eq w :
  io_call w = (match fault w (ticks w) with
               | Some m => Throw (Error m)
               | None => Ok tt
               end, set_ticks (S (ticks w)) w).
Proof. unfold io_call, bind, tick, get_world. cbn. destruct (fault w (ticks w)); reflexivity. Qed.

Lemma ensureConversationDir_eq w :
  Store.ensureConversationDir w
  = (match fault w (ticks w) with
     | Some m => Throw (ConversationStorageError
                          ("Failed to create conversations directory: " ++ m))
     | None => Ok tt
     end, set_ticks (S (ticks w)) w).
Proof.
  unfold Store.ensureConversationDir, try_catch, fs_mkdir. rewrite io_call_eq.
  destruct (fault w (ticks w)); reflexivity.
Qed.

Lemma writeConversation_eq r w :
  Store.writeConversation r w
  = match fault w (ticks w) with
    | Some m =>
        (Throw (ConversationStorageError
                  ("Failed to write conversation: "
                   ++ "Failed to create conversations directory: " ++ m)),
         set_ticks (S (ticks w)) w)
    | None =>
        match fault w (S (ticks w)) with
        | Some m =>
            (Throw (ConversationStorageError
                      ("Failed to write conversation: " ++ m)),
             set_ticks (S (S (ticks w))) w)
        | None =>
            (Ok tt, written (id (heap w r) ++ ".json")
                            (JSON.stringify (heap w r)) w)
        end
    end.
Proof.
  unfold Store.writeConversation, try_catch. rewrite bind_eq, ensureConversationDir_eq.
  destruct (fault w (ticks w)) as [m|] eqn:F1; [reflexivity|].
  unfold bind, deref, fs_writeFile, bind. rewrite io_call_eq. cbn.
  destruct (fault w (S (ticks w))); reflexivity.
Qed.

Lemma readConversation_eq conversationId w :
  Store.readConversation conversationId w
  = (match files w !! (conversationId ++ ".json") with
     | Some (Json c) => Ok c
     | Some (Unparseable m) | Some (Unreadable m) =>
         Throw (ConversationStorageError ("Failed to read conversation: " ++ m))
     | None =>
         Throw (ConversationStorageError
                  ("Failed to read conversation: "
                   ++ "ENOENT: no such file or directory, open '"
                   ++ (conversationId ++ ".json") ++ "'"))
     end, w).
Proof.
  unfold Store.readConversation, try_catch, bind, fs_readFile, get_world,
    Store.getConversationFilePath, bind.
  destruct (files w !! (conversationId ++ ".json")) as [[m|c|m]|]; reflexivity.
Qed.

Lemma getConversation_eq conversationId w :
  Manager.getConversation conversationId w
  = match conversations w !! conversationId with
    | Some r => (Ok r, w)
    | None =>
        match files w !! (conversationId ++ ".json") with
        | Some (Json c) => (Ok (next_ref w), loaded conversationId c w)
        | _ => (Throw (ConversationNotFoundError conversationId), w)
        end
    end.
Proof.
  unfold Manager.getConversation, bind, get_world.
  destruct (conversations w !! conversationId); [reflexivity|].
  unfold try_catch, bind. rewrite readConversation_eq.
  destruct (files w !! (conversationId ++ ".json")) as [[m|c|m]|]; reflexivity.
Qed.

Lemma updateConversation_eq r w :
  Manager.updateConversation r w
  = match Store.writeConversation r (touched r w) with
    | (Ok a, w') => (Ok a, w')
    | (Throw e, w') =>
        (Throw (ConversationStorageError
                  ("Failed to update conversation: " ++ message e)), w')
    end.
Proof.
  unfold Manager.updateConversation, try_catch, bind, now_ISO, bind, tick,
    get_world, ret, update_object, modify, deref, Manager.cache_set, modify.
  cbn. unfold touched. cbn. rewrite Nat.eqb_refl. reflexivity.
Qed.

Lemma addMessage_eq conversationId r text w :
  Manager.addMessage conversationId r text w
  = match Manager.getConversation conversationId w with
    | (Ok conv, w1) =>
        match Manager.updateConversation conv
                (pushed conv {| msg_role := r; content := text |} w1) with
        | (Ok _, w2) => (Ok conv, w2)
        | (Throw e, w2) => (Throw e, w2)
        end
    | (Throw e, w1) => (Throw e, w1)
    end.
Proof.
  unfold Manager.addMessage. rewrite bind_eq.
  destruct (Manager.getConversation conversationId w) as [[conv|e] w1]; [|reflexivity].
  unfold bind, update_object, modify, ret. cbn. fold (pushed conv {| msg_role := r; content := text |} w1).
  destruct (Manager.updateConversation conv _) as [[[]|e] w2]; reflexivity.
Qed.

End Running.

(* ===================================================================== *)
(** * One chat turn, step by step *)
(* ===================================================================== *)

Section ChatTurn.

Lemma set_trace_same w : set_trace (trace w) w = w.
Proof. destruct w. reflexivity. Qed.

Lemma set_trace_twice l1 l2 w :
  set_trace (trace (set_trace l1 w) ++ l2) (set_trace l1 w)
  = set_trace (l1 ++ l2) w.
Proof. reflexivity. Qed.

Lemma for_await_eq chunks fin : forall text counter w,
  exists counter',
    Tools.for_await chunks fin (text, counter) w
    = (match fin with
       | EndOfStream =>
           Ok (fold_left (fun t chunk => t ++ nullish chunk "") chunks text,
               counter')
       | StreamFails e => Throw e
       end,
       set_trace (trace w ++ map (fun p => Progress p 100)
                                 (reports (length chunks) counter)) w).
Proof.
  induction chunks as [|chunk rest IH]; intros text counter w.
  - exists counter. cbn [Tools.for_await length reports map].
    rewrite app_nil_r, set_trace_same. destruct fin; reflexivity.
  - cbn [Tools.for_await length reports]. rewrite bind_eq.
    unfold Tools.on_chunk.
    destruct (counter <? 80)%nat.
    + destruct ((counter + 1 <? 40)%nat || ((counter + 1) mod 5 =? 0)%nat).
      * destruct (IH (text ++ nullish chunk "") (counter + 1)%nat
                     (set_trace (trace w ++ [Progress (counter + 1) 100]) w))
          as [c' Hc'].
        exists c'. unfold bind, Tools.reportProgress, emit, modify, ret.
        rewrite Hc'. rewrite set_trace_twice, <- app_assoc. reflexivity.
      * destruct (IH (text ++ nullish chunk "") (counter + 1)%nat w) as [c' Hc'].
        exists c'. unfold bind, ret. rewrite Hc'. reflexivity.
    + destruct (IH (text ++ nullish chunk "") counter w) as [c' Hc'].
      exists c'. unfold ret. rewrite Hc'. reflexivity.
Qed.

Lemma handle_chat_failure e w :
  @Tools.handleToolError string "Chat" e (Some "Failed to process chat request") w
  = (Throw (chat_failure e), w).
Proof. destruct e; reflexivity. Qed.

(** The turn, flattened: every intermediate state is named. *)
Lemma chat_execute_unfold openai args w :
  Tools.chat_execute openai args w =
  let given := nullish (chat_parameters args) no_parameters in
  let w1 := set_trace (trace w ++ [Progress 0 100]) w in
  match Manager.getConversation (conversation_id args) w1 with
  | (Throw e, w2) => (Throw (chat_failure e), w2)
  | (Ok conversation, w2) =>
      match Manager.addMessage (id (heap w2 conversation)) user
                               (chat_message args) w2 with
      | (Throw e, w3) => (Throw (chat_failure e), w3)
      | (Ok _, w3) =>
          let rq := request_for given (heap w3 conversation) in
          match openai rq with
          | Rejected e =>
              (Throw (chat_failure e), set_trace (trace w3 ++ [Request rq]) w3)
          | Stream chunks fin =>
              let seen := (Request rq
                           :: map (fun p => Progress p 100)
                                  (reports (length chunks) 30))%list in
              match fin with
              | StreamFails e =>
                  (Throw (chat_failure e), set_trace (trace w3 ++ seen) w3)
              | EndOfStream =>
                  let w6 := set_trace (trace w3 ++ seen ++ [Progress 80 100]) w3 in
                  match Manager.addMessage (id (heap w6 conversation)) assistant
                                           (stream_text chunks) w6 with
                  | (Throw e, w7) => (Throw (chat_failure e), w7)
                  | (Ok _, w7) =>
                      (Ok (stream_text chunks),
                       set_trace (trace w7 ++ [Progress 100 100]) w7)
                  end
              end
          end
      end
  end.
Proof.
  unfold Tools.chat_execute, try_catch. cbv zeta.
  rewrite bind_eq. unfold Tools.reportProgress at 1, emit, modify.
  rewrite bind_eq.
  destruct (Manager.getConversation _ _) as [[conversation|e] w2];
    [|apply handle_chat_failure].
  rewrite bind_eq. unfold deref at 1. rewrite bind_eq.
  destruct (Manager.addMessage _ user _ w2) as [[r|e] w3];
    [|apply handle_chat_failure].
  rewrite bind_eq. unfold deref at 1. rewrite bind_eq.
  unfold Tools.completions_create. rewrite bind_eq. unfold emit, modify.
  match goal with
  | |- context [openai ?r] =>
      change r with (request_for (nullish (chat_parameters args) no_parameters)
                                 (heap w3 conversation))
  end.
  set (rq := request_for _ _).
  destruct (openai rq) as [e|chunks fin]; [apply handle_chat_failure|].
  unfold ret at 1. rewrite bind_eq. cbn [fst snd].
  destruct (for_await_eq chunks fin "" 30%nat (set_trace (trace w3 ++ [Request rq]) w3))
    as [c' ->].
  rewrite set_trace_twice.
  destruct fin as [|e].
  2:{ rewrite handle_chat_failure. rewrite <- app_assoc. reflexivity. }
  cbn [fst]. fold (stream_text chunks).
  rewrite bind_eq. unfold Tools.reportProgress at 1, emit, modify.
  rewrite set_trace_twice. rewrite bind_eq. unfold deref at 1.
  rewrite <- !app_assoc. cbn [app].
  set (w6 := set_trace _ w3).
  rewrite bind_eq.
  destruct (Manager.addMessage _ assistant _ w6) as [[r'|e] w7];
    [|apply handle_chat_failure].
  reflexivity.
Qed.

End ChatTurn.

Section TurnCases.

Lemma getConversation_cases conversationId w :
  Manager.getConversation conversationId w
  = (Throw (ConversationNotFoundError conversationId), w)
  \/ exists conv w',
      Manager.getConversation conversationId w = (Ok conv, w')
      /\ trace w' = trace w /\ files w' = files w
      /\ ticks w' = ticks w /\ fault w' = fault w /\ clock w' = clock w.
Proof.
  rewrite getConversation_eq.
  destruct (conversations w !! conversationId) as [r|].
  - right. exists r, w. repeat split; reflexivity.
  - destruct (files w !! (conversationId ++ ".json")) as [[m|c|m]|];
      [left; reflexivity| |left; reflexivity|left; reflexivity].
    right. eexists _, _. split; [reflexivity|]. repeat split; reflexivity.
Qed.

(** [addMessage] either fails without a trace, or succeeds with exactly
    one write: that of the conversation it returns, which ends with the
    new message. *)
Lemma addMessage_cases conversationId r text w :
  (exists e w',
      Manager.addMessage conversationId r text w = (Throw e, w')
      /\ trace w' = trace w /\ files w' = files w)
  \/ (exists conv w' earlier,
         Manager.addMessage conversationId r text w = (Ok conv, w')
         /\ messages (heap w' conv)
            = (earlier ++ [ {| msg_role := r; content := text |} ])%list
         /\ trace w'
            = (trace w ++ [Written (id (heap w' conv) ++ ".json")
                                   (JSON.stringify (heap w' conv))])%list
         /\ files w'
            = <[id (heap w' conv) ++ ".json"
                := Json (JSON.stringify (heap w' conv))]> (files w)).
Proof.
  rewrite addMessage_eq.
  destruct (getConversation_cases conversationId w)
    as [->|(conv & w1 & -> & Htr & Hfi & _)].
  { left. eexists _, _. repeat split; reflexivity. }
  rewrite updateConversation_eq, writeConversation_eq.
  set (m := {| msg_role := r; content := text |}).
  set (w2 := touched conv (pushed conv m w1)).
  assert (trace w2 = trace w /\ files w2 = files w) as [Htr2 Hfi2].
  { split; [exact Htr|exact Hfi]. }
  assert (messages (heap w2 conv) = (messages (heap w1 conv) ++ [m])%list) as Hms.
  { unfold w2, touched, pushed. cbn. rewrite !Nat.eqb_refl. reflexivity. }
  destruct (fault w2 (ticks w2)) as [e1|].
  { left. eexists _, _. split; [reflexivity|]. split; assumption. }
  destruct (fault w2 (S (ticks w2))) as [e2|].
  { left. eexists _, _. split; [reflexivity|]. split; assumption. }
  right. eexists conv, _, (messages (heap w1 conv)). split; [reflexivity|].
  unfold written. cbn [heap trace files set_trace set_files set_ticks].
  rewrite Hms, Htr2, Hfi2. repeat split; reflexivity.
Qed.

End TurnCases.

Section TurnOutcome.

Lemma replay_app tr1 : forall tr2 dir,
  replay (tr1 ++ tr2) dir = replay tr2 (replay tr1 dir).
Proof.
  induction tr1 as [|e tr1 IH]; intros tr2 dir; [reflexivity|].
  destruct e; cbn [app replay]; apply IH.
Qed.

Lemma replay_progress ps dir :
  replay (map (fun p => Progress p 100) ps) dir = dir.
Proof. induction ps; cbn [map replay]; auto. Qed.

Ltac solve_replay :=
  repeat (rewrite ?replay_app, ?replay_progress; cbn [replay app]);
  reflexivity.

Lemma appends_written r text c earlier :
  messages c = (earlier ++ [ {| msg_role := r; content := text |} ])%list ->
  appends r text (Written (id c ++ ".json") (JSON.stringify c)).
Proof.
  intros H. exists (id c ++ ".json"), (JSON.stringify c), earlier.
  split; [reflexivity|exact H].
Qed.

(** Every run of the chat tool goes one of the six ways, and the storage
    directory changes by the writes of its events only. *)
Lemma chat_execute_outcome openai args w :
  exists r w' delta,
    Tools.chat_execute openai args w = (r, w')
    /\ trace w' = (trace w ++ delta)%list
    /\ files w' = replay delta (files w)
    /\ turn_outcome openai args w r delta.
Proof.
  rewrite chat_execute_unfold. cbv zeta.
  set (w1 := set_trace (trace w ++ [Progress 0 100]) w).
  destruct (getConversation_cases (conversation_id args) w1)
    as [Hget|(conv & w2 & Hget & Htr2 & Hfi2 & _)]; rewrite Hget.
  { eexists _, _, _. split; [reflexivity|]. split; [reflexivity|].
    split; [reflexivity|]. eapply turn_not_found. exact Hget. }
  destruct (addMessage_cases (id (heap w2 conv)) user (chat_message args) w2)
    as [(e & w3 & Hadd & Htr3 & Hfi3)
       |(conv' & w3 & earlier & Hadd & Hms & Htr3 & Hfi3)]; rewrite Hadd.
  { eexists _, _, _. split; [reflexivity|].
    split; [rewrite Htr3, Htr2; reflexivity|].
    split; [rewrite Hfi3, Hfi2; reflexivity|].
    eapply turn_user_append_failed; eassumption. }
  pose proof (appends_written _ _ _ _ Hms) as Huser.
  set (e_user := Written (id (heap w3 conv') ++ ".json")
                         (JSON.stringify (heap w3 conv'))) in *.
  assert (trace w3 = trace w ++ [Progress 0 100; e_user])%list as Htr3'.
  { rewrite Htr3, Htr2. unfold w1. cbn [trace set_trace].
    rewrite <- app_assoc. reflexivity. }
  assert (files w3 = replay [Progress 0 100; e_user] (files w)) as Hfi3'.
  { rewrite Hfi3, Hfi2. reflexivity. }
  set (rq := request_for _ _).
  destruct (openai rq) as [e|chunks fin] eqn:Hrq.
  { eexists _, _, _. split; [reflexivity|]. cbn [trace files set_trace].
    split; [rewrite Htr3', <- app_assoc; reflexivity|].
    split; [rewrite Hfi3'; reflexivity|].
    eapply turn_rejected; eassumption. }
  destruct fin as [|e].
  2:{ eexists _, _, _. split; [reflexivity|]. cbn [trace files set_trace].
      split; [rewrite Htr3', <- app_assoc; reflexivity|].
      split.
      - rewrite Hfi3'. solve_replay.
      - eapply turn_stream_failed; eassumption. }
  set (w6 := set_trace _ w3).
  assert (trace w6 = trace w ++ ([Progress 0 100; e_user; Request rq]
              ++ map (fun p => Progress p 100) (reports (length chunks) 30)
              ++ [Progress 80 100]))%list as Htr6.
  { unfold w6. cbn [trace set_trace]. rewrite Htr3', <- app_assoc. reflexivity. }
  assert (files w6 = replay ([Progress 0 100; e_user; Request rq]
              ++ map (fun p => Progress p 100) (reports (length chunks) 30)
              ++ [Progress 80 100]) (files w)) as Hfi6.
  { unfold w6. cbn [files set_trace]. rewrite Hfi3'. solve_replay. }
  destruct (addMessage_cases (id (heap w6 conv)) assistant (stream_text chunks) w6)
    as [(e & w7 & Hadd' & Htr7 & Hfi7)
       |(conv'' & w7 & earlier' & Hadd' & Hms' & Htr7 & Hfi7)]; rewrite Hadd'.
  { eexists _, _, _. split; [reflexivity|].
    split; [rewrite Htr7, Htr6; reflexivity|].
    split; [rewrite Hfi7, Hfi6; reflexivity|].
    eapply turn_assistant_append_failed; eassumption. }
  pose proof (appends_written _ _ _ _ Hms') as Hasst.
  set (e_asst := Written (id (heap w7 conv'') ++ ".json")
                         (JSON.stringify (heap w7 conv''))) in *.
  eexists _, _, _. split; [reflexivity|]. cbn [trace files set_trace].
  split; [|split].
  3:{ eapply turn_complete with (e_assistant := e_asst); eassumption. }
  - rewrite Htr7, Htr6, <- !app_assoc. reflexivity.
  - rewrite Hfi7, Hfi6. solve_replay.
Qed.

End TurnOutcome.

(* ===================================================================== *)
(** * Progress reporting *)
(* ===================================================================== *)

Section ProgressFacts.

Lemma reports_from counter : forall n,
  (counter <= 80)%nat ->
  reports n counter
  = List.filter (fun p => (p <? 40)%nat || (p mod 5 =? 0)%nat)
                (seq (S counter) (Nat.min n (80 - counter))).
Proof.
  intros n. revert counter. induction n as [|n IH]; intros counter Hc.
  - reflexivity.
  - cbn [reports]. destruct (Nat.ltb_spec counter 80) as [Hlt|Hge].
    + replace (Nat.min (S n) (80 - counter))
        with (S (Nat.min n (80 - (counter + 1)))) by lia.
      cbn [seq List.filter]. rewrite IH by lia.
      replace (counter + 1)%nat with (S counter) by lia.
      destruct ((S counter <? 40)%nat || (S counter mod 5 =? 0)%nat); reflexivity.
    + replace (Nat.min (S n) (80 - counter)) with 0%nat by lia.
      rewrite IH by lia. replace (Nat.min n (80 - counter)) with 0%nat by lia.
      reflexivity.
Qed.

Lemma reports_ticks n : reports n 30 = ticks_reported n.
Proof. rewrite reports_from by lia. reflexivity. Qed.

Lemma ticks_reported_bounds n :
  Forall (fun p => (31 <= p <= 80)%nat) (ticks_reported n).
Proof.
  unfold ticks_reported. apply List.Forall_forall. intros p Hp.
  apply filter_In in Hp. destruct Hp as [Hp _]. apply in_seq in Hp. lia.
Qed.

Lemma progress_values_app tr1 tr2 :
  progress_values (tr1 ++ tr2) = (progress_values tr1 ++ progress_values tr2)%list.
Proof.
  induction tr1 as [|e tr1 IH]; [reflexivity|].
  destruct e; cbn [app progress_values]; rewrite IH; reflexivity.
Qed.

Lemma progress_values_map ps :
  progress_values (map (fun p => Progress p 100) ps) = ps.
Proof. induction ps; cbn [map progress_values]; congruence. Qed.

Lemma appends_is_written r text e :
  appends r text e -> exists name c, e = Written name c.
Proof. intros (name & c & _ & -> & _). eauto. Qed.

End ProgressFacts.

Section ProgressContract.

Lemma in_progress_map e ps :
  In e (map (fun p => Progress p 100) ps) -> exists p, e = Progress p 100.
Proof. intros H. apply in_map_iff in H. destruct H as (p & <- & _). eauto. Qed.

(** The only request among the events of a turn that reached the remote
    API is the one built after the user append. *)
Lemma request_in_turn rq rq' e_user r text (mid : list nat) (last : list event) :
  appends r text e_user ->
  (forall e, In e last -> (exists p, e = Progress p 100) \/ (exists n c, e = Written n c)) ->
  In (Request rq')
     ([Progress 0 100; e_user; Request rq]
      ++ map (fun p => Progress p 100) mid ++ last) ->
  rq' = rq.
Proof.
  intros Hu Hlast Hin. destruct (appends_is_written _ _ _ Hu) as (n & c & ->).
  cbn [app In] in Hin.
  destruct Hin as [H|[H|[H|H]]]; try discriminate; [congruence|].
  apply in_app_or in H. destruct H as [H|H].
  - apply in_progress_map in H. destruct H as [p H]. discriminate.
  - destruct (Hlast _ H) as [[p Hp]|(n' & c' & Hp)]; discriminate.
Qed.

(** C9. The events of every chat turn, in order, by how far the turn
    gets. The turn first reports 0, before any other effect. When the
    conversation is not found, or the user message cannot be stored, it
    fails with nothing else reported. Otherwise the user message is
    written and the request is sent; when the request is rejected,
    nothing else is reported. When a stream of [n] fragments is
    received, the turn reports the ticks of the counter that starts at
    30 and advances by one per fragment up to 80: those under 40 and the
    multiples of 5 ([ticks_reported n], all between 31 and 80), and
    nothing else while the stream lasts; when the stream breaks, the
    turn fails there. When the stream ends, the turn reports 80 and
    appends the assistant message; when that fails, the turn fails with
    80 as its last report; when that succeeds, the turn reports 100
    directly after the write of the assistant message, and returns the
    text. So 100 is reported only by a turn that returns, as its last
    event, and nothing above 80 is reported before the stream has
    ended. *)
Theorem progress_reporting_contract openai args w :
  exists r w' delta,
    Tools.chat_execute openai args w = (r, w')
    /\ trace w' = (trace w ++ delta)%list
    /\ match Manager.getConversation (conversation_id args)
               (set_trace (trace w ++ [Progress 0 100]) w) with
       | (Throw e, _) =>
           delta = [Progress 0 100] /\ r = Throw (chat_failure e)
       | (Ok conv, w2) =>
           match Manager.addMessage (id (heap w2 conv)) user
                                    (chat_message args) w2 with
           | (Throw e, _) =>
               delta = [Progress 0 100] /\ r = Throw (chat_failure e)
           | (Ok _, w3) =>
               let rq := request_for
                           (nullish (chat_parameters args) no_parameters)
                           (heap w3 conv) in
               exists e_user,
                 appends user (chat_message args) e_user
                 /\ match openai rq with
                    | Rejected e =>
                        delta = [Progress 0 100; e_user; Request rq]
                        /\ r = Throw (chat_failure e)
                    | Stream chunks fin =>
                        let ticks :=
                          map (fun p => Progress p 100)
                              (ticks_reported (length chunks)) in
                        match fin with
                        | StreamFails e =>
                            delta = ([Progress 0 100; e_user; Request rq]
                                     ++ ticks)%list
                            /\ r = Throw (chat_failure e)
                        | EndOfStream =>
                            match Manager.addMessage
                                    (id (heap w3 conv)) assistant
                                    (stream_text chunks)
                                    (set_trace
                                       (trace w3 ++ Request rq :: ticks
                                        ++ [Progress 80 100]) w3) with
                            | (Throw e, _) =>
                                delta = ([Progress 0 100; e_user; Request rq]
                                         ++ ticks ++ [Progress 80 100])%list
                                /\ r = Throw (chat_failure e)
                            | (Ok _, _) =>
                                exists e_assistant,
                                  appends assistant (stream_text chunks)
                                          e_assistant
                                  /\ delta = ([Progress 0 100; e_user;
                                               Request rq]
                                              ++ ticks
                                              ++ [Progress 80 100; e_assistant;
                                                  Progress 100 100])%list
                                  /\ r = Ok (stream_text chunks)
                            end
                        end
                    end
           end
       end
    /\ (forall n, Forall (fun p => (31 <= p <= 80)%nat) (ticks_reported n))
    /\ (forall n, ticks_reported n
                  = List.filter (fun p => (p <? 40)%nat || (p mod 5 =? 0)%nat)
                                (seq 31 (Nat.min n 50))).
Proof.
  rewrite chat_execute_unfold. cbv zeta.
  set (w1 := set_trace (trace w ++ [Progress 0 100]) w).
  destruct (getConversation_cases (conversation_id args) w1)
    as [Hget|(conv & w2 & Hget & Htr2 & _)]; rewrite Hget.
  { eexists _, _, [Progress 0 100]. split; [reflexivity|].
    split; [reflexivity|]. split; [split; reflexivity|].
    split; [exact ticks_reported_bounds|reflexivity]. }
  destruct (addMessage_cases (id (heap w2 conv)) user (chat_message args) w2)
    as [(e & w3 & Hadd & Htr3 & _)
       |(conv' & w3 & earlier & Hadd & Hms & Htr3 & _)]; rewrite Hadd.
  { eexists _, _, [Progress 0 100]. split; [reflexivity|].
    split; [rewrite Htr3, Htr2; reflexivity|]. split; [split; reflexivity|].
    split; [exact ticks_reported_bounds|reflexivity]. }
  pose proof (appends_written _ _ _ _ Hms) as Huser.
  set (e_user := Written (id (heap w3 conv') ++ ".json")
                         (JSON.stringify (heap w3 conv'))) in *.
  assert (trace w3 = trace w ++ [Progress 0 100; e_user])%list as Htr3'.
  { rewrite Htr3, Htr2. unfold w1. cbn [trace set_trace].
    rewrite <- app_assoc. reflexivity. }
  set (rq := request_for _ _).
  destruct (openai rq) as [e|chunks [|e]] eqn:Hrq; rewrite ?reports_ticks.
  - eexists _, _, _. split; [reflexivity|]. cbn [trace set_trace].
    split; [rewrite Htr3', <- app_assoc; reflexivity|].
    split; [|split; [exact ticks_reported_bounds|reflexivity]].
    exists e_user. split; [exact Huser|]. split; reflexivity.
  - set (ticks := map (fun p => Progress p 100) (ticks_reported (length chunks))).
    change (heap (set_trace (trace w3 ++ (Request rq :: ticks)
                             ++ [Progress 80 100]) w3) conv)
      with (heap w3 conv).
    change ((Request rq :: ticks) ++ [Progress 80 100])%list
      with (Request rq :: ticks ++ [Progress 80 100])%list.
    set (w6 := set_trace _ w3).
    assert (trace w6 = trace w ++ ([Progress 0 100; e_user; Request rq]
                ++ ticks ++ [Progress 80 100]))%list as Htr6.
    { unfold w6. cbn [trace set_trace]. rewrite Htr3', <- app_assoc.
      reflexivity. }
    destruct (addMessage_cases (id (heap w3 conv)) assistant
                (stream_text chunks) w6)
      as [(e & w7 & Hadd' & Htr7 & _)
         |(conv'' & w7 & earlier' & Hadd' & Hms' & Htr7 & _)]; rewrite Hadd'.
    + eexists _, _, _. split; [reflexivity|].
      split; [rewrite Htr7, Htr6; reflexivity|].
      split; [|split; [exact ticks_reported_bounds|reflexivity]].
      exists e_user. split; [exact Huser|]. split; reflexivity.
    + pose proof (appends_written _ _ _ _ Hms') as Hasst.
      eexists _, _, _. split; [reflexivity|]. cbn [trace set_trace].
      split; [rewrite Htr7, Htr6, <- !app_assoc; reflexivity|].
      split; [|split; [exact ticks_reported_bounds|reflexivity]].
      exists e_user. split; [exact Huser|].
      eexists. split; [exact Hasst|]. split; reflexivity.
  - eexists _, _, _. split; [reflexivity|]. cbn [trace set_trace].
    split; [rewrite Htr3', <- app_assoc; reflexivity|].
    split; [|split; [exact ticks_reported_bounds|reflexivity]].
    exists e_user. split; [exact Huser|]. split; reflexivity.
Qed.

End ProgressContract.

(* ===================================================================== *)
(** * Order of the effects of a turn *)
(* ===================================================================== *)

Section TurnOrdering.

Lemma appends_same_event r text r' text' e :
  appends r text e -> appends r' text' e -> r = r' /\ text = text'.
Proof.
  intros (n & c & l & -> & H) (n' & c' & l' & E & H').
  injection E as <- <-. rewrite H in H'.
  apply app_inj_tail in H'. destruct H' as [_ H']. injection H' as <- <-.
  split; reflexivity.
Qed.

Lemma split_after_three {A} (a b c : A) rest pre x post :
  ([a; b; c] ++ rest = pre ++ x :: post)%list ->
  (pre = [] /\ x = a)
  \/ (pre = [a] /\ x = b)
  \/ (pre = [a; b] /\ x = c /\ post = rest)
  \/ (exists pre', pre = (a :: b :: c :: pre')%list
                   /\ rest = (pre' ++ x :: post)%list).
Proof.
  intros H. destruct pre as [|a' [|b' [|c' pre']]]; cbn [app] in H.
  - injection H as <- _. left. split; reflexivity.
  - injection H as <- <- _. right. left. split; reflexivity.
  - injection H as <- <- <- <-. right. right. left. repeat split; reflexivity.
  - injection H as <- <- <- ->. right. right. right. eexists. split; reflexivity.
Qed.

Lemma turn_shape openai args w r delta :
  turn_outcome openai args w r delta ->
  delta = [Progress 0 100]
  \/ exists e_user rq text rest,
      appends user (chat_message args) e_user
      /\ delta = ([Progress 0 100; e_user; Request rq] ++ rest)%list
      /\ after_request text rest.
Proof.
  intros [e w2 Hget
         |conv w2 e w3 Hget Hadd
         |conv w2 conv' w3 e_user e Hget Hadd Hu rq Hrq
         |conv w2 conv' w3 e_user chunks e Hget Hadd Hu rq Hrq
         |conv w2 conv' w3 e_user chunks e Hget Hadd Hu rq Hrq
         |conv w2 conv' w3 e_user chunks e_asst Hget Hadd Hu rq Hrq Ha];
    [left; reflexivity|left; reflexivity|right..].
  - exists e_user, rq, "", []. split; [exact Hu|]. split; [reflexivity|]. intros ? [].
  - exists e_user, rq, "", (map (fun p => Progress p 100) (reports (length chunks) 30)).
    split; [exact Hu|]. split; [reflexivity|].
    intros e' He'. left. apply in_progress_map in He'. exact He'.
  - eexists e_user, rq, "", _. split; [exact Hu|]. split; [reflexivity|].
    intros e' He'. left. apply in_app_or in He'. destruct He' as [He'|[<-|[]]].
    + apply in_progress_map in He'. exact He'.
    + eauto.
  - eexists e_user, rq, (stream_text chunks), _. split; [exact Hu|].
    split; [reflexivity|].
    intros e' He'. apply in_app_or in He'. destruct He' as [He'|[<-|[<-|[<-|[]]]]].
    + left. apply in_progress_map in He'. exact He'.
    + left. eauto.
    + right. exact Ha.
    + left. eauto.
Qed.

Lemma turn_outcome_user_append openai args w r delta :
  turn_outcome openai args w r delta ->
  (exists rq, In (Request rq) delta) ->
  exists conv w2 conv' w3,
    Manager.getConversation (conversation_id args)
      (set_trace (trace w ++ [Progress 0 100]) w) = (Ok conv, w2)
    /\ Manager.addMessage (id (heap w2 conv)) user (chat_message args) w2
       = (Ok conv', w3).
Proof.
  intros [e w2 Hget
         |conv w2 e w3 Hget Hadd
         |conv w2 conv' w3 e_user e Hget Hadd Hu rq Hrq
         |conv w2 conv' w3 e_user chunks e Hget Hadd Hu rq Hrq
         |conv w2 conv' w3 e_user chunks e Hget Hadd Hu rq Hrq
         |conv w2 conv' w3 e_user chunks e_asst Hget Hadd Hu rq Hrq Ha] [rq' Hin];
    try (destruct Hin as [Hin|[]]; discriminate);
    exists conv, w2, conv', w3; split; assumption.
Qed.

(** C3. Within every chat turn the user message is appended strictly
    before the remote call, and the remote call comes strictly before
    the append of the assistant message: a request among the events of
    the turn is the only one, it follows a write that appends the user
    message and no assistant append, and every assistant append follows
    the request. When the conversation is not found or the append of the
    user message fails, the remote API is not called. *)
Theorem turn_ordering openai args w :
  exists r w' delta,
    Tools.chat_execute openai args w = (r, w')
    /\ trace w' = (trace w ++ delta)%list
    /\ (forall pre rq post,
           delta = (pre ++ Request rq :: post)%list ->
           (exists e, In e pre /\ appends user (chat_message args) e)
           /\ (forall e text, In e pre -> ~ appends assistant text e)
           /\ (forall rq', ~ In (Request rq') pre /\ ~ In (Request rq') post))
    /\ (forall pre e post text,
           delta = (pre ++ e :: post)%list -> appends assistant text e ->
           exists rq, In (Request rq) pre)
    /\ (forall e w2,
           Manager.getConversation (conversation_id args)
             (set_trace (trace w ++ [Progress 0 100]) w) = (Throw e, w2) ->
           forall rq, ~ In (Request rq) delta)
    /\ (forall conv w2 e w3,
           Manager.getConversation (conversation_id args)
             (set_trace (trace w ++ [Progress 0 100]) w) = (Ok conv, w2) ->
           Manager.addMessage (id (heap w2 conv)) user (chat_message args) w2
           = (Throw e, w3) ->
           forall rq, ~ In (Request rq) delta).
Proof.
  destruct (chat_execute_outcome openai args w)
    as (r & w' & delta & Hrun & Htr & _ & Hout).
  exists r, w', delta. split; [exact Hrun|]. split; [exact Htr|].
  pose proof (turn_outcome_user_append _ _ _ _ _ Hout) as Huser.
  assert ((forall e w2,
             Manager.getConversation (conversation_id args)
               (set_trace (trace w ++ [Progress 0 100]) w) = (Throw e, w2) ->
             forall rq, ~ In (Request rq) delta)
          /\ (forall conv w2 e w3,
             Manager.getConversation (conversation_id args)
               (set_trace (trace w ++ [Progress 0 100]) w) = (Ok conv, w2) ->
             Manager.addMessage (id (heap w2 conv)) user (chat_message args) w2
             = (Throw e, w3) ->
             forall rq, ~ In (Request rq) delta)) as [Hc1 Hc2].
  { split.
    - intros e w2 Hget rq Hin.
      destruct Huser as (conv & w2' & _ & _ & Hget' & _); [eauto|]. congruence.
    - intros conv w2 e w3 Hget Hadd rq Hin.
      destruct Huser as (conv' & w2' & c'' & w3' & Hget' & Hadd'); [eauto|].
      rewrite Hget in Hget'. injection Hget' as <- <-. congruence. }
  split; [|split; [|split; assumption]].
  - intros pre rq post Hd.
    destruct (turn_shape _ _ _ _ _ Hout)
      as [->|(e_user & rq0 & text & rest & Hu & -> & Hrest)].
    { destruct pre as [|? [|? ?]]; discriminate. }
    assert (forall x, In x rest -> forall rq', x <> Request rq') as Hnr.
    { intros x Hx rq' ->. destruct (Hrest _ Hx) as [[p Hp]|Ha]; [discriminate|].
      apply appends_is_written in Ha. destruct Ha as (? & ? & ?). discriminate. }
    destruct (appends_is_written _ _ _ Hu) as (nm & c & Hc).
    apply split_after_three in Hd.
    destruct Hd as [[_ H]|[[_ H]|[(-> & H & ->)|(pre' & -> & ->)]]];
      [discriminate|rewrite Hc in H; discriminate| |].
    + split; [exists e_user; split; [right; left; reflexivity|exact Hu]|].
      split.
      * intros e text' [<-|[<-|[]]] Ha.
        -- apply appends_is_written in Ha. destruct Ha as (? & ? & ?). discriminate.
        -- destruct (appends_same_event _ _ _ _ _ Hu Ha). discriminate.
      * intros rq'. split.
        -- intros [Hx|[Hx|[]]]; [discriminate|]. rewrite Hc in Hx. discriminate.
        -- intros Hx. apply (Hnr _ Hx rq'). reflexivity.
    + exfalso. apply (Hnr (Request rq)) with (rq' := rq); [|reflexivity].
      apply in_elt.
  - intros pre e post text Hd Ha.
    destruct (turn_shape _ _ _ _ _ Hout)
      as [->|(e_user & rq0 & text0 & rest & Hu & -> & Hrest)].
    { destruct pre as [|? [|? ?]]; try discriminate.
      injection Hd as <- _. apply appends_is_written in Ha.
      destruct Ha as (? & ? & ?). discriminate. }
    apply split_after_three in Hd.
    destruct Hd as [[_ H]|[[_ H]|[(-> & H & ->)|(pre' & -> & ->)]]].
    + subst e. apply appends_is_written in Ha. destruct Ha as (? & ? & ?). discriminate.
    + subst e. destruct (appends_same_event _ _ _ _ _ Hu Ha). discriminate.
    + subst e. apply appends_is_written in Ha. destruct Ha as (? & ? & ?). discriminate.
    + exists rq0. right. right. left. reflexivity.
Qed.

End TurnOrdering.

(* ===================================================================== *)
(** * No partial append *)
(* ===================================================================== *)

Section NoPartialAppend.

Lemma writes_app tr1 tr2 : writes (tr1 ++ tr2) = (writes tr1 ++ writes tr2)%list.
Proof.
  induction tr1 as [|e tr1 IH]; [reflexivity|].
  destruct e; cbn [app writes]; rewrite IH; reflexivity.
Qed.

Lemma writes_progress ps : writes (map (fun p => Progress p 100) ps) = [].
Proof. induction ps; cbn [map writes]; auto. Qed.

(** C1. A chat turn never persists a partially accumulated assistant
    message. When the remote call is rejected, times out or fails after
    some fragments (anything but a stream that ends), the turn throws,
    and the state is the one reached by the append of the user message:
    same files, same conversation objects, same cache, only the request
    and progress events added. In general a turn either returns the
    whole text of a stream that ended, having written the user message
    and then the assistant message with that text, or it throws, having
    written nothing or the user message only. *)
Theorem no_partial_append openai args w :
  exists r w' delta,
    Tools.chat_execute openai args w = (r, w')
    /\ trace w' = (trace w ++ delta)%list
    /\ files w' = replay delta (files w)
    /\ (forall conv w2 conv' w3,
           Manager.getConversation (conversation_id args)
             (set_trace (trace w ++ [Progress 0 100]) w) = (Ok conv, w2) ->
           Manager.addMessage (id (heap w2 conv)) user (chat_message args) w2
           = (Ok conv', w3) ->
           let rq := request_for (nullish (chat_parameters args) no_parameters)
                                 (heap w3 conv) in
           (forall chunks, openai rq <> Stream chunks EndOfStream) ->
           exists err seen,
             r = Throw err
             /\ w' = set_trace (trace w3 ++ Request rq :: seen) w3
             /\ files w' = files w3
             /\ heap w' = heap w3
             /\ conversations w' = conversations w3
             /\ forall e, In e seen -> exists p, e = Progress p 100)
    /\ (forall text, r = Ok text ->
           exists rq chunks n1 c1 n2 c2,
             In (Request rq) delta
             /\ openai rq = Stream chunks EndOfStream
             /\ text = stream_text chunks
             /\ writes delta = [(n1, c1); (n2, c2)]
             /\ appends user (chat_message args) (Written n1 c1)
             /\ appends assistant text (Written n2 c2))
    /\ (forall err, r = Throw err ->
           writes delta = []
           \/ exists n1 c1,
               writes delta = [(n1, c1)]
               /\ appends user (chat_message args) (Written n1 c1)).
Proof.
  destruct (chat_execute_outcome openai args w)
    as (r & w' & delta & Hrun & Htr & Hfi & Hout).
  exists r, w', delta. split; [exact Hrun|]. split; [exact Htr|].
  split; [exact Hfi|]. split; [|split].
  - intros conv w2 conv' w3 Hget Hadd rq Hfail.
    rewrite chat_execute_unfold in Hrun. cbv zeta in Hrun.
    rewrite Hget, Hadd in Hrun. fold rq in Hrun.
    destruct (openai rq) as [e|chunks [|e]] eqn:Hrq.
    + injection Hrun as <- <-. exists (chat_failure e), [].
      repeat split. intros ? [].
    + exfalso. apply (Hfail chunks). reflexivity.
    + injection Hrun as <- <-.
      exists (chat_failure e),
        (map (fun p => Progress p 100) (reports (length chunks) 30)).
      repeat split. intros e' He'. apply in_progress_map in He'. exact He'.
  - intros text Hr.
    destruct Hout as [e w2 Hget
                     |conv w2 e w3 Hget Hadd
                     |conv w2 conv' w3 e_user e Hget Hadd Hu rq Hrq
                     |conv w2 conv' w3 e_user chunks e Hget Hadd Hu rq Hrq
                     |conv w2 conv' w3 e_user chunks e Hget Hadd Hu rq Hrq
                     |conv w2 conv' w3 e_user chunks e_asst Hget Hadd Hu rq Hrq Ha];
      try discriminate.
    injection Hr as <-.
    destruct (appends_is_written _ _ _ Hu) as (n1 & c1 & ->).
    destruct (appends_is_written _ _ _ Ha) as (n2 & c2 & ->).
    exists rq, chunks, n1, c1, n2, c2.
    split; [right; right; left; reflexivity|].
    split; [exact Hrq|]. split; [reflexivity|].
    split; [|split; assumption].
    cbn [app writes]. rewrite writes_app, writes_progress. reflexivity.
  - intros err Hr.
    destruct Hout as [e w2 Hget
                     |conv w2 e w3 Hget Hadd
                     |conv w2 conv' w3 e_user e Hget Hadd Hu rq Hrq
                     |conv w2 conv' w3 e_user chunks e Hget Hadd Hu rq Hrq
                     |conv w2 conv' w3 e_user chunks e Hget Hadd Hu rq Hrq
                     |conv w2 conv' w3 e_user chunks e_asst Hget Hadd Hu rq Hrq Ha];
      try discriminate; try (left; reflexivity);
      destruct (appends_is_written _ _ _ Hu) as (n1 & c1 & ->);
      right; exists n1, c1; (split; [|exact Hu]); cbn [app writes];
      rewrite ?writes_app, ?writes_progress; reflexivity.
Qed.

End NoPartialAppend.

(* ===================================================================== *)
(** * Reading, writing and deleting *)
(* ===================================================================== *)

Section StoreAccess.

Lemma store_deleteConversation_eq conversationId w :
  Store.deleteConversation conversationId w
  = match files w !! (conversationId ++ ".json") with
    | None =>
        (Throw (ConversationStorageError
                  ("Failed to delete conversation: "
                   ++ "ENOENT: no such file or directory, unlink '"
                   ++ (conversationId ++ ".json") ++ "'")), w)
    | Some _ =>
        match fault w (ticks w) with
        | Some m =>
            (Throw (ConversationStorageError
                      ("Failed to delete conversation: " ++ m)),
             set_ticks (S (ticks w)) w)
        | None =>
            (Ok tt,
             set_trace (trace w ++ [Removed (conversationId ++ ".json")])
               (set_files (delete (conversationId ++ ".json") (files w))
                  (set_ticks (S (ticks w)) w)))
        end
    end.
Proof.
  unfold Store.deleteConversation, try_catch, fs_unlink, bind, get_world,
    Store.getConversationFilePath.
  destruct (files w !! (conversationId ++ ".json")); [|reflexivity].
  unfold bind. rewrite io_call_eq.
  destruct (fault w (ticks w)); reflexivity.
Qed.

Lemma manager_deleteConversation_ok conversationId w :
  fst (Manager.deleteConversation conversationId w)
  = Ok (match files w !! (conversationId ++ ".json") with
        | Some _ => match fault w (ticks w) with
                    | None => true
                    | Some _ => false
                    end
        | None => false
        end).
Proof.
  unfold Manager.deleteConversation, try_catch, bind, Manager.cache_delete, modify.
  rewrite store_deleteConversation_eq.
  cbn [files fault ticks set_conversations].
  destruct (files w !! (conversationId ++ ".json")); [|reflexivity].
  destruct (fault w (ticks w)); reflexivity.
Qed.

(** C10. The delete_conversation tool answers "Conversation deleted"
    for every conversation ID and every state, whatever the manager
    returned: the manager returns [true] only when the file existed and
    its removal succeeded, and [false] when the file was absent or the
    removal failed. *)
Theorem delete_always_confirms conversation_id w :
  fst (Tools.delete_conversation conversation_id w) = Ok "Conversation deleted"
  /\ fst (Manager.deleteConversation conversation_id w)
     = Ok (match files w !! (conversation_id ++ ".json") with
           | Some _ => match fault w (ticks w) with
                       | None => true
                       | Some _ => false
                       end
           | None => false
           end).
Proof.
  split; [|apply manager_deleteConversation_ok].
  unfold Tools.delete_conversation, try_catch, bind.
  pose proof (manager_deleteConversation_ok conversation_id w) as H.
  destruct (Manager.deleteConversation conversation_id w) as [[b|e] w'];
    [reflexivity|discriminate].
Qed.

(** C5, as the code has it, for an ID that is a file name (no path
    separator). The store-level read leaves the state as it is. It
    fails when the file of the ID is absent, cannot be read, or holds
    text that is not JSON, and it returns the conversation when the file
    holds the JSON of one (a JSON text of any shape is returned as it
    is: the read checks nothing else). Every failure of the read
    is a ConversationStorageError whose message starts with "Failed to
    read conversation: ", never a ConversationNotFoundError. The
    manager-level get returns the cached object when there is one,
    without touching the store. Otherwise it reads through the store:
    when the read returns a record, the get puts it in a new object,
    caches that object under the ID and returns it, changing no other
    object and no file; when the read fails, the get fails. So the get
    fails exactly when the cache has no entry for the ID and the read of
    the store fails, and then with ConversationNotFoundError carrying the
    ID, whatever the error of the store was. *)
Theorem read_and_get conversationId w :
  Str.is_file_name conversationId = true ->
  snd (Store.readConversation conversationId w) = w
  /\ (unavailable w conversationId ->
      exists m, fst (Store.readConversation conversationId w)
                = Throw (ConversationStorageError m))
  /\ (forall c,
        files w !! Store.getConversationFilePath conversationId
        = Some (Json c) ->
        fst (Store.readConversation conversationId w) = Ok c)
  /\ (forall e, fst (Store.readConversation conversationId w) = Throw e ->
        exists m, e = ConversationStorageError
                        ("Failed to read conversation: " ++ m))
  /\ (forall r, conversations w !! conversationId = Some r ->
        Manager.getConversation conversationId w = (Ok r, w))
  /\ (conversations w !! conversationId = None ->
      match fst (Store.readConversation conversationId w) with
      | Ok c =>
          exists w',
            Manager.getConversation conversationId w = (Ok (next_ref w), w')
            /\ heap w' (next_ref w) = c
            /\ (forall other, other <> next_ref w -> heap w' other = heap w other)
            /\ conversations w' = <[conversationId := next_ref w]> (conversations w)
            /\ files w' = files w
      | Throw _ =>
          Manager.getConversation conversationId w
          = (Throw (ConversationNotFoundError conversationId), w)
      end)
  /\ ((exists e, fst (Manager.getConversation conversationId w) = Throw e)
      <-> conversations w !! conversationId = None
          /\ exists e, fst (Store.readConversation conversationId w) = Throw e)
  /\ (forall e, fst (Manager.getConversation conversationId w) = Throw e ->
        e = ConversationNotFoundError conversationId).
Proof.
  intros _. rewrite readConversation_eq, getConversation_eq.
  unfold unavailable, Store.getConversationFilePath. cbn [fst snd].
  split; [reflexivity|]. split; [|split; [|split; [|split; [|split; [|split]]]]].
  - intros [H|[[m H]|[m H]]]; rewrite H; eauto.
  - intros c ->. reflexivity.
  - intros e H.
    destruct (files w !! (conversationId ++ ".json")) as [[m|c|m]|];
      [|discriminate| |]; injection H as <-; eauto.
  - intros r ->. reflexivity.
  - intros ->.
    destruct (files w !! (conversationId ++ ".json")) as [[m|c|m]|];
      try reflexivity.
    eexists. split; [reflexivity|].
    unfold loaded. cbn [heap conversations files set_conversations
                        set_next_ref set_heap].
    rewrite Nat.eqb_refl. split; [reflexivity|]. split; [|split; reflexivity].
    intros other Hne. destruct (Nat.eqb_spec other (next_ref w)); [contradiction|].
    reflexivity.
  - destruct (conversations w !! conversationId) as [r|].
    { split; [intros [e H]; discriminate|intros [H _]; discriminate]. }
    destruct (files w !! (conversationId ++ ".json")) as [[m|c|m]|]; split.
    + intros _. split; [reflexivity|eexists; reflexivity].
    + intros _. eexists. reflexivity.
    + intros [e H]. discriminate.
    + intros [_ [e H]]. discriminate.
    + intros _. split; [reflexivity|eexists; reflexivity].
    + intros _. eexists. reflexivity.
    + intros _. split; [reflexivity|eexists; reflexivity].
    + intros _. eexists. reflexivity.
  - intros e H. destruct (conversations w !! conversationId) as [r|]; [discriminate|].
    destruct (files w !! (conversationId ++ ".json")) as [[m|c|m]|];
      [|discriminate| |]; injection H as <-; reflexivity.
Qed.

(** C5, counterexample to the claim as stated: on an empty store the
    file of ID 1 is absent and the store-level read fails, but not with
    the NotFound kind. *)
Lemma store_read_error_is_not_NotFound :
  absent_or_malformed (quiet ∅) "1"
  /\ (exists m, fst (Store.readConversation "1" (quiet ∅))
                = Throw (ConversationStorageError m))
  /\ forall conversationId,
      fst (Store.readConversation "1" (quiet ∅))
      <> Throw (ConversationNotFoundError conversationId).
Proof.
  split; [left; reflexivity|]. split; [eexists; reflexivity|].
  intros conversationId. rewrite readConversation_eq. cbn. discriminate.
Qed.

(** Instance: a store whose entry for ID 1 cannot be read, and whose
    entry for ID 2 holds a conversation. *)
Lemma read_and_get_witness :
  let w := quiet (<["1.json" := Unreadable "EACCES: permission denied"]>
                    {["2.json" := Json (stored_at "2" "2024-01-02T00:00:00.000Z")]}) in
  (exists m, fst (Store.readConversation "1" w)
             = Throw (ConversationStorageError m))
  /\ Manager.getConversation "1" w = (Throw (ConversationNotFoundError "1"), w)
  /\ fst (Store.readConversation "2" w)
     = Ok (stored_at "2" "2024-01-02T00:00:00.000Z").
Proof.
  intros w.
  destruct (read_and_get "1" w eq_refl) as (_ & Hfail & _ & _ & _ & Hget & _).
  destruct (read_and_get "2" w eq_refl) as (_ & _ & Hread & _).
  split; [apply Hfail; right; left; eexists; reflexivity|].
  split; [exact (Hget eq_refl)|].
  apply Hread. reflexivity.
Defined.

(** C8, as the code has it. Writing a conversation to the store and
    then reading it back by its ID returns the text that was written:
    the conversation with [null] in the place of every number that is
    not finite. That is the conversation itself, field for field,
    exactly when every number in it is finite. *)
Theorem write_then_read (conversation : ref) (w w' : world) :
  Store.writeConversation conversation w = (Ok tt, w') ->
  Store.readConversation (id (heap w conversation)) w'
  = (Ok (JSON.stringify (heap w conversation)), w')
  /\ (JSON.stringify (heap w conversation) = heap w conversation
      <-> JSON.finite (heap w conversation) = true).
Proof.
  rewrite writeConversation_eq, readConversation_eq. intros H.
  split; [|apply stringify_fixed].
  destruct (fault w (ticks w)); [discriminate|].
  destruct (fault w (S (ticks w))); [discriminate|].
  injection H as <-. unfold written. cbn [files set_trace set_files].
  rewrite lookup_insert_eq. reflexivity.
Qed.

(** Instance: a conversation object of a process on an empty store. *)
Lemma write_then_read_witness :
  let w := set_heap (fun _ => tuned) (quiet ∅) in
  Store.writeConversation 0 w = (Ok tt, written "1.json" tuned w)
  /\ Store.readConversation "1" (written "1.json" tuned w)
     = (Ok tuned, written "1.json" tuned w).
Proof.
  intros w. split; [reflexivity|].
  apply (write_then_read 0 w (written "1.json" tuned w)). reflexivity.
Defined.

(** C8, counterexample to the claim as stated: a conversation created
    with the metadata [{"score": 1e999}] holds Infinity; it is written
    without an error, and what is read back holds [null] instead. *)
Lemma write_then_read_loses_infinity :
  exists w' c,
    Store.writeConversation 0 (set_heap (fun _ => overflowing) (quiet ∅))
    = (Ok tt, w')
    /\ Store.readConversation (id overflowing) w' = (Ok c, w')
    /\ c <> overflowing
    /\ metadata overflowing
       = Some {| title := None; tags := None;
                 extra := [("score", JNumber (Infinite false))] |}
    /\ metadata c
       = Some {| title := None; tags := None; extra := [("score", JNull)] |}.
Proof.
  eexists _, _. split; [reflexivity|]. split; [reflexivity|].
  split; [discriminate|]. split; reflexivity.
Qed.

End StoreAccess.

(* ===================================================================== *)
(** * Parameters of the request *)
(* ===================================================================== *)

Section RequestParameters.

Lemma number_field_Some valid d x v :
  Tools.number_field valid d x = Some v -> v = nullish x d.
Proof.
  unfold Tools.number_field. destruct (valid (nullish x d)); [|discriminate].
  intros H. injection H as <-. reflexivity.
Qed.

(** The chat schema leaves no parameter undefined: each is the value of
    the call or else the process default. *)
Lemma chatSchema_defined k args parsed :
  Tools.chatSchema k args = Some parsed ->
  let raw := nullish (chat_parameters args) no_parameters in
  conversation_id parsed = conversation_id args
  /\ chat_message parsed = chat_message args
  /\ chat_parameters parsed
     = Some {| opt_temperature :=
                 Some (nullish (opt_temperature raw) (DEFAULT_TEMPERATURE k));
               opt_max_tokens :=
                 Some (nullish (opt_max_tokens raw) (DEFAULT_MAX_TOKENS k));
               opt_top_p := Some (nullish (opt_top_p raw) (DEFAULT_TOP_P k));
               opt_frequency_penalty :=
                 Some (nullish (opt_frequency_penalty raw)
                               (DEFAULT_FREQUENCY_PENALTY k));
               opt_presence_penalty :=
                 Some (nullish (opt_presence_penalty raw)
                               (DEFAULT_PRESENCE_PENALTY k)) |}.
Proof.
  unfold Tools.chatSchema, Tools.parameters_schema. cbv zeta.
  set (raw := nullish (chat_parameters args) no_parameters).
  cbn [temperature max_tokens top_p frequency_penalty presence_penalty].
  destruct (Tools.number_field _ _ (opt_temperature raw)) as [t|] eqn:E1;
    [|discriminate].
  destruct (Tools.number_field _ _ (opt_max_tokens raw)) as [m|] eqn:E2;
    [|discriminate].
  destruct (Tools.number_field _ _ (opt_top_p raw)) as [tp|] eqn:E3;
    [|discriminate].
  destruct (Tools.number_field _ _ (opt_frequency_penalty raw)) as [fp|] eqn:E4;
    [|discriminate].
  destruct (Tools.number_field _ _ (opt_presence_penalty raw)) as [pp|] eqn:E5;
    [|discriminate].
  apply number_field_Some in E1, E2, E3, E4, E5. subst.
  intros H. injection H as <-. repeat split; reflexivity.
Qed.

Lemma requests_app tr1 tr2 :
  requests (tr1 ++ tr2) = (requests tr1 ++ requests tr2)%list.
Proof.
  induction tr1 as [|e tr1 IH]; [reflexivity|].
  destruct e; cbn [app requests]; rewrite IH; reflexivity.
Qed.

Lemma requests_in tr rq : In rq (requests tr) <-> In (Request rq) tr.
Proof.
  induction tr as [|e tr IH]; [reflexivity|].
  destruct e; cbn [requests In]; rewrite IH; split;
    try (intros [H|H]); try discriminate; auto.
  - left. congruence.
  - left. congruence.
Qed.

(** The request of a turn is built from the arguments of the call and
    one conversation object. *)
Lemma turn_request openai args w r delta :
  turn_outcome openai args w r delta ->
  forall rq, In (Request rq) delta ->
  exists c,
    rq = request_for (nullish (chat_parameters args) no_parameters) c.
Proof.
  intros Hout rq' Hin.
  destruct Hout as [e w2 Hget
                   |conv w2 e w3 Hget Hadd
                   |conv w2 conv' w3 e_user e Hget Hadd Hu rq Hrq
                   |conv w2 conv' w3 e_user chunks e Hget Hadd Hu rq Hrq
                   |conv w2 conv' w3 e_user chunks e Hget Hadd Hu rq Hrq
                   |conv w2 conv' w3 e_user chunks e_asst Hget Hadd Hu rq Hrq Ha];
    try (destruct Hin as [Hin|[]]; discriminate);
    assert (rq' = rq) as ->; try (eexists; reflexivity).
  - apply (request_in_turn rq rq' e_user user (chat_message args) [] []);
      [exact Hu|intros ? []|exact Hin].
  - apply (request_in_turn rq rq' e_user user (chat_message args)
                           (reports (length chunks) 30) []);
      [exact Hu|intros ? []|rewrite app_nil_r; exact Hin].
  - apply (request_in_turn rq rq' e_user user (chat_message args)
                           (reports (length chunks) 30) [Progress 80 100]);
      [exact Hu| |exact Hin].
    intros ? [<-|[]]. left. eauto.
  - destruct (appends_is_written _ _ _ Ha) as (nm' & c' & ->).
    apply (request_in_turn rq rq' e_user user (chat_message args)
                           (reports (length chunks) 30)
                           [Progress 80 100; Written nm' c'; Progress 100 100]);
      [exact Hu| |exact Hin].
    intros ? [<-|[<-|[<-|[]]]]; eauto.
Qed.

(** Through the chat tool, a sampling parameter of the request is the
    value given with the call or else the process default; the value
    stored with the conversation is never sent. *)
Lemma chat_request_parameters k openai args w :
  exists r w' delta,
    Tools.chat k openai args w = (r, w')
    /\ trace w' = (trace w ++ delta)%list
    /\ forall rq, In rq (requests delta) ->
        let raw := nullish (chat_parameters args) no_parameters in
        req_temperature rq = nullish (opt_temperature raw) (DEFAULT_TEMPERATURE k)
        /\ req_max_tokens rq = nullish (opt_max_tokens raw) (DEFAULT_MAX_TOKENS k)
        /\ req_top_p rq = nullish (opt_top_p raw) (DEFAULT_TOP_P k)
        /\ req_frequency_penalty rq
           = nullish (opt_frequency_penalty raw) (DEFAULT_FREQUENCY_PENALTY k)
        /\ req_presence_penalty rq
           = nullish (opt_presence_penalty raw) (DEFAULT_PRESENCE_PENALTY k).
Proof.
  unfold Tools.chat, Tools.with_schema.
  destruct (Tools.chatSchema k args) as [parsed|] eqn:Hs.
  2:{ exists (Throw (InvalidParams ("Invalid " ++ "chat" ++ " parameters"))), w, [].
      split; [reflexivity|]. split; [rewrite app_nil_r; reflexivity|].
      intros rq []. }
  destruct (chatSchema_defined _ _ _ Hs) as (_ & _ & Hp).
  destruct (chat_execute_outcome openai parsed w)
    as (r & w' & delta & Hrun & Htr & _ & Hout).
  exists r, w', delta. split; [exact Hrun|]. split; [exact Htr|].
  intros rq Hin. apply requests_in in Hin.
  destruct (turn_request _ _ _ _ _ Hout rq Hin) as [c ->].
  rewrite Hp. cbn. repeat split; reflexivity.
Qed.

(** C2, at a failing input. The stored conversation has temperature
    0.2, max_tokens 200, top_p 0.5 and both penalties 1. A chat call
    that gives no parameters sends the process defaults (0.7, 50000, 1,
    0, 0); a call that gives only the temperature 1.5 sends it with the
    four other defaults. The stored values are sent in neither. *)
Theorem chat_ignores_stored_parameters :
  let w := quiet {[ "1.json" := Json tuned ]} in
  let sent args :=
    map (fun rq => (req_temperature rq, req_max_tokens rq, req_top_p rq,
                    req_frequency_penalty rq, req_presence_penalty rq))
        (requests (trace (snd (Tools.chat unset_environment says_hello args w)))) in
  parameters tuned
  = {| temperature := 1 # 5; max_tokens := 200; top_p := 1 # 2;
       frequency_penalty := 1; presence_penalty := 1 |}
  /\ sent {| conversation_id := "1"; chat_message := "hi";
             chat_parameters := None |}
     = [ (7 # 10, 50000, 1, 0, 0)%Q ]
  /\ sent {| conversation_id := "1"; chat_message := "hi";
             chat_parameters :=
               Some {| opt_temperature := Some (3 # 2); opt_max_tokens := None;
                       opt_top_p := None; opt_frequency_penalty := None;
                       opt_presence_penalty := None |} |}
     = [ (3 # 2, 50000, 1, 0, 0)%Q ].
Proof. vm_compute. repeat split; reflexivity. Qed.

End RequestParameters.

(* ===================================================================== *)
(** * System messages *)
(* ===================================================================== *)

Section SystemMessages.

Lemma getNextConversationId_eq w :
  Store.getNextConversationId w
  = match fault w (ticks w) with
    | Some m =>
        (Throw (ConversationStorageError
                  ("Failed to get next conversation ID: "
                   ++ "Failed to create conversations directory: " ++ m)),
         set_ticks (S (ticks w)) w)
    | None =>
        match fault w (S (ticks w)) with
        | Some m =>
            (Throw (ConversationStorageError
                      ("Failed to get next conversation ID: " ++ m)),
             set_ticks (S (S (ticks w))) w)
        | None =>
            (Ok (Alloc.next_id (map fst (map_to_list (files w)))),
             set_ticks (S (S (ticks w))) w)
        end
    end.
Proof.
  unfold Store.getNextConversationId, try_catch. rewrite bind_eq,
    ensureConversationDir_eq.
  destruct (fault w (ticks w)); [reflexivity|].
  unfold fs_readdir. rewrite !bind_eq, io_call_eq. cbn [fault ticks set_ticks].
  destruct (fault w (S (ticks w))); reflexivity.
Qed.

Lemma createConversation_eq k args w :
  Manager.createConversation k args w
  = let now := clock w (ticks w) in
    match Store.getNextConversationId (set_ticks (S (ticks w)) w) with
    | (Throw e, w2) =>
        (Throw (ConversationCreateError
                  ("Failed to create conversation: " ++ message e)), w2)
    | (Ok id, w2) =>
        match Store.writeConversation (next_ref w2)
                (loaded id (new_conversation k args id now) w2) with
        | (Ok _, w4) => (Ok (next_ref w2), w4)
        | (Throw e, w4) =>
            (Throw (ConversationCreateError
                      ("Failed to create conversation: " ++ message e)), w4)
        end
    end.
Proof.
  unfold Manager.createConversation, try_catch. cbv zeta.
  unfold now_ISO. rewrite !bind_eq. unfold tick at 1. rewrite bind_eq.
  unfold get_world at 1, ret at 1. cbn [clock set_ticks].
  rewrite bind_eq.
  destruct (Store.getNextConversationId _) as [[id|e] w2]; [|reflexivity].
  rewrite bind_eq. unfold new_object at 1. rewrite bind_eq.
  unfold Manager.cache_set at 1, modify. rewrite bind_eq.
  fold (new_conversation k args id (clock w (ticks w))).
  change (set_conversations _ _)
    with (loaded id (new_conversation k args id (clock w (ticks w))) w2).
  destruct (Store.writeConversation _ _) as [[[]|e] w4]; reflexivity.
Qed.

Lemma system_only_first_snoc ms m :
  system_only_first ms -> non_system m -> system_only_first (ms ++ [m]).
Proof.
  destruct ms as [|a l]; intros H Hm; cbn [app system_only_first] in *.
  - constructor.
  - apply Forall_app. split; [exact H|]. constructor; [exact Hm|constructor].
Qed.

Lemma safe_step_refl w : safe_step w w.
Proof.
  split; [|tauto]. split; [lia|]. intros r _. exists [].
  rewrite app_nil_r. split; [reflexivity|constructor].
Qed.

Lemma safe_step_trans w1 w2 w3 :
  safe_step w1 w2 -> safe_step w2 w3 -> safe_step w1 w3.
Proof.
  intros [[Hn1 Ha1] Hi1] [[Hn2 Ha2] Hi2]. split; [|tauto].
  split; [lia|]. intros r Hr.
  destruct (Ha1 r Hr) as (a1 & E1 & F1).
  destruct (Ha2 r) as (a2 & E2 & F2); [lia|].
  exists (a1 ++ a2)%list. rewrite E2, E1, app_assoc.
  split; [reflexivity|]. apply Forall_app. split; assumption.
Qed.

Lemma safe_step_same_store w w' :
  heap w' = heap w -> files w' = files w -> next_ref w' = next_ref w ->
  safe_step w w'.
Proof.
  intros Hh Hf Hn. split.
  - split; [lia|]. intros r _. exists []. rewrite Hh, app_nil_r.
    split; [reflexivity|constructor].
  - intros [H1 H2]. split.
    + intros r. rewrite Hh. apply H1.
    + intros name c. rewrite Hf. apply H2.
Qed.

Lemma safe_step_loaded key c w :
  (system_messages_lead w -> system_only_first (messages c)) ->
  safe_step w (loaded key c w).
Proof.
  intros Hc. split.
  - split; [cbn; lia|]. intros r Hr. exists []. cbn.
    destruct (Nat.eqb_spec r (next_ref w)); [lia|].
    rewrite app_nil_r. split; [reflexivity|constructor].
  - intros Hw. pose proof (Hc Hw) as Hc'. destruct Hw as [H1 H2]. split.
    + intros r. cbn. destruct (Nat.eqb r (next_ref w)); [exact Hc'|apply H1].
    + exact H2.
Qed.

Lemma safe_step_pushed r m w : non_system m -> safe_step w (pushed r m w).
Proof.
  intros Hm. split.
  - split; [cbn; lia|]. intros r' _. cbn.
    destruct (Nat.eqb_spec r' r) as [->|_].
    + exists [m]. split; [reflexivity|]. constructor; [exact Hm|constructor].
    + exists []. rewrite app_nil_r. split; [reflexivity|constructor].
  - intros [H1 H2]. split; [|exact H2].
    intros r'. cbn. destruct (Nat.eqb r' r); [|apply H1].
    cbn. apply system_only_first_snoc; [apply H1|exact Hm].
Qed.

Lemma safe_step_touched r w : safe_step w (touched r w).
Proof.
  split.
  - split; [cbn; lia|]. intros r' _. exists []. cbn.
    destruct (Nat.eqb_spec r' r) as [->|_]; rewrite app_nil_r;
      (split; [reflexivity|constructor]).
  - intros [H1 H2]. split; [|exact H2].
    intros r'. cbn. destruct (Nat.eqb r' r); [|apply H1]. cbn. apply H1.
Qed.

Lemma safe_step_written name r w :
  safe_step w (written name (JSON.stringify (heap w r)) w).
Proof.
  split.
  - split; [cbn; lia|]. intros r' _. exists []. cbn. rewrite app_nil_r.
    split; [reflexivity|constructor].
  - intros [H1 H2]. split; [exact H1|].
    intros name' c. cbn [written files set_trace set_files].
    rewrite lookup_insert.
    destruct (decide (name = name')) as [_|_]; [|apply H2].
    intros E. injection E as <-. apply (H1 r).
Qed.

Lemma safe_writeConversation r w :
  safe_step w (snd (Store.writeConversation r w)).
Proof.
  rewrite writeConversation_eq.
  destruct (fault w (ticks w)); [apply safe_step_same_store; reflexivity|].
  destruct (fault w (S (ticks w))); [apply safe_step_same_store; reflexivity|].
  apply safe_step_written.
Qed.

Lemma safe_getConversation conversationId w :
  safe_step w (snd (Manager.getConversation conversationId w)).
Proof.
  rewrite getConversation_eq.
  destruct (conversations w !! conversationId); [apply safe_step_refl|].
  destruct (files w !! (conversationId ++ ".json")) as [[m|c|m]|] eqn:E;
    try apply safe_step_refl.
  apply safe_step_loaded. intros [_ H]. apply (H _ _ E).
Qed.

Lemma safe_updateConversation r w :
  safe_step w (snd (Manager.updateConversation r w)).
Proof.
  rewrite updateConversation_eq.
  apply safe_step_trans with (touched r w); [apply safe_step_touched|].
  pose proof (safe_writeConversation r (touched r w)) as H.
  destruct (Store.writeConversation r (touched r w)) as [[a|e] w']; exact H.
Qed.

Lemma safe_addMessage conversationId r text w :
  r <> system ->
  safe_step w (snd (Manager.addMessage conversationId r text w)).
Proof.
  intros Hr. rewrite addMessage_eq.
  pose proof (safe_getConversation conversationId w) as Hg.
  destruct (Manager.getConversation conversationId w) as [[conv|e] w1];
    [|exact Hg].
  apply safe_step_trans with w1; [exact Hg|].
  set (m := {| msg_role := r; content := text |}).
  apply safe_step_trans with (pushed conv m w1);
    [apply safe_step_pushed; exact Hr|].
  pose proof (safe_updateConversation conv (pushed conv m w1)) as Hu.
  destruct (Manager.updateConversation conv (pushed conv m w1)) as [[a|e] w2];
    exact Hu.
Qed.

Lemma safe_set_trace t w : safe_step w (set_trace t w).
Proof. apply safe_step_same_store; reflexivity. Qed.

Lemma safe_chat_execute openai args w :
  safe_step w (snd (Tools.chat_execute openai args w)).
Proof.
  rewrite chat_execute_unfold. cbv zeta.
  set (w1 := set_trace _ w).
  assert (safe_step w w1) as H1 by apply safe_set_trace.
  pose proof (safe_getConversation (conversation_id args) w1) as Hg.
  destruct (Manager.getConversation _ w1) as [[conv|e] w2];
    [|exact (safe_step_trans _ _ _ H1 Hg)].
  cbn [snd] in Hg. pose proof (safe_step_trans _ _ _ H1 Hg) as H2.
  pose proof (safe_addMessage (id (heap w2 conv)) user (chat_message args) w2) as Ha.
  destruct (Manager.addMessage _ user _ w2) as [[conv'|e] w3];
    pose proof (safe_step_trans _ _ _ H2 (Ha ltac:(discriminate))) as H3;
    [|exact H3].
  cbn [snd] in H3.
  destruct (openai _) as [e|chunks [|e]];
    try exact (safe_step_trans _ _ _ H3 (safe_set_trace _ _)).
  set (w6 := set_trace _ w3).
  pose proof (safe_step_trans _ _ _ H3 (safe_set_trace _ _ : safe_step w3 w6)) as H6.
  pose proof (safe_addMessage (id (heap w6 conv)) assistant (stream_text chunks) w6) as Ha'.
  destruct (Manager.addMessage _ assistant _ w6) as [[conv''|e] w7];
    pose proof (safe_step_trans _ _ _ H6 (Ha' ltac:(discriminate))) as H7;
    [|exact H7].
  exact (safe_step_trans _ _ _ H7 (safe_set_trace _ _)).
Qed.

Lemma safe_createConversation k args w :
  safe_step w (snd (Manager.createConversation k args w)).
Proof.
  rewrite createConversation_eq. cbv zeta. rewrite getNextConversationId_eq.
  cbn [fault ticks set_ticks files].
  destruct (fault w (S (ticks w))); [apply safe_step_same_store; reflexivity|].
  destruct (fault w (S (S (ticks w)))); [apply safe_step_same_store; reflexivity|].
  set (w2 := set_ticks _ _).
  set (c := new_conversation _ _ _ _).
  assert (safe_step w w2) as H2 by (apply safe_step_same_store; reflexivity).
  assert (safe_step w2 (loaded (id c) c w2)) as H3.
  { apply safe_step_loaded. intros _. unfold c, new_conversation. cbn.
    destruct (truthy (arg_system_prompt args)); cbn; constructor. }
  pose proof (safe_writeConversation (next_ref w2) (loaded (id c) c w2)) as H4.
  change (Alloc.next_id (map fst (map_to_list (files w)))) with (id c).
  destruct (Store.writeConversation _ _) as [[a|e] w4];
    exact (safe_step_trans _ _ _ H2 (safe_step_trans _ _ _ H3 H4)).
Qed.

Lemma safe_after_call k defaultModel c w :
  safe_step w (after_call k defaultModel c w).
Proof.
  destruct c as [args|openai args]; cbn [after_call].
  - unfold Tools.create_conversation, Tools.with_schema.
    destruct (Tools.createConversationSchema k args) as [parsed|];
      [|apply safe_step_refl].
    unfold Tools.create_conversation_execute, try_catch. rewrite bind_eq.
    pose proof (safe_createConversation k
      {| arg_model := Some (or_else (arg_model parsed) defaultModel);
         arg_system_prompt := arg_system_prompt parsed;
         arg_parameters := arg_parameters parsed;
         arg_metadata := arg_metadata parsed |} w) as H.
    destruct (Manager.createConversation _ _ w) as [[conv|e] w'].
    + exact H.
    + destruct e; exact H.
  - unfold Tools.chat, Tools.with_schema.
    destruct (Tools.chatSchema k args) as [parsed|]; [|apply safe_step_refl].
    apply safe_chat_execute.
Qed.

Lemma createConversation_messages k args w conv w' :
  Manager.createConversation k args w = (Ok conv, w') ->
  messages (heap w' conv)
  = if truthy (arg_system_prompt args)
    then [ {| msg_role := system;
              content := nullish (arg_system_prompt args) "" |} ]
    else [].
Proof.
  rewrite createConversation_eq. cbv zeta. rewrite getNextConversationId_eq.
  cbn [fault ticks set_ticks files].
  destruct (fault w (S (ticks w))); [discriminate|].
  destruct (fault w (S (S (ticks w)))); [discriminate|].
  rewrite writeConversation_eq. cbn [fault ticks loaded set_ticks
    set_conversations set_next_ref set_heap next_ref].
  destruct (fault w (S (S (S (ticks w))))); [discriminate|].
  destruct (fault w (S (S (S (S (ticks w)))))); [discriminate|].
  intros H. injection H as <- <-. cbn. rewrite Nat.eqb_refl. reflexivity.
Qed.

Lemma after_calls_lead k defaultModel calls : forall w,
  system_messages_lead w ->
  system_messages_lead (after_calls k defaultModel calls w).
Proof.
  induction calls as [|c calls IH]; intros w Hw; [exact Hw|].
  cbn [after_calls fold_left]. apply IH.
  apply (safe_after_call k defaultModel c w). exact Hw.
Qed.

(** C7, as the code has it. Creation seeds the messages with a single
    system message if and only if the system prompt it receives is not
    empty; through the create_conversation tool the prompt it receives
    is the one of the call or else the process default. In every state
    reached by create_conversation and chat calls from a process started
    on a store whose conversations have at most one system message, in
    front (the empty store for one), every conversation object and every
    stored conversation has at most one system message, in front; and a
    call leaves the messages of every existing conversation object in
    place, adding at their end only messages that are not system
    messages. *)
Theorem system_message_only_from_creation :
  (forall k args w conv w',
      Manager.createConversation k args w = (Ok conv, w') ->
      messages (heap w' conv)
      = if truthy (arg_system_prompt args)
        then [ {| msg_role := system;
                  content := nullish (arg_system_prompt args) "" |} ]
        else [])
  /\ (forall k args parsed,
        Tools.createConversationSchema k args = Some parsed ->
        arg_system_prompt parsed
        = Some (nullish (arg_system_prompt args) (DEFAULT_SYSTEM_PROMPT k)))
  /\ (forall k defaultModel calls dir clock fault,
        (forall name c, dir !! name = Some (Json c) ->
                        system_only_first (messages c)) ->
        system_messages_lead
          (after_calls k defaultModel calls (started dir clock fault)))
  /\ (forall k defaultModel c w,
        only_appended w (after_call k defaultModel c w)).
Proof.
  split; [exact createConversation_messages|]. split; [|split].
  - intros k args parsed. unfold Tools.createConversationSchema.
    destruct (Tools.parameters_schema _ _); [|discriminate].
    intros H. injection H as <-. reflexivity.
  - intros k defaultModel calls dir clock fault Hdir.
    apply after_calls_lead. split; [intros r; exact I|exact Hdir].
  - intros k defaultModel c w. apply safe_after_call.
Qed.

(** Instance: the empty store, a create without a prompt, one with the
    prompt "S", and two chat turns, one of them with a broken stream. *)
Lemma system_message_only_from_creation_witness :
  let no_prompt := {| arg_model := None; arg_system_prompt := None;
                      arg_parameters := None; arg_metadata := None |} in
  let with_prompt := {| arg_model := None; arg_system_prompt := Some "S";
                        arg_parameters := None; arg_metadata := None |} in
  let turn := {| conversation_id := "2"; chat_message := "hi";
                 chat_parameters := None |} in
  system_messages_lead
    (after_calls unset_environment "m"
       [CallCreate no_prompt; CallCreate with_prompt;
        CallChat breaks_off turn; CallChat says_hello turn]
       (started ∅ (fun _ => "2024-01-01T00:00:00.000Z") (fun _ => None))).
Proof.
  intros no_prompt with_prompt turn.
  destruct system_message_only_from_creation as (_ & _ & Hlead & _).
  apply Hlead.
  intros name c H. rewrite lookup_empty in H. discriminate.
Defined.

(** C7, counterexample to the claim as stated: a system prompt is
    supplied, the empty string, and creation seeds no system message;
    and through the tool no prompt is supplied, yet creation seeds the
    process default. *)
Lemma supplied_prompt_without_system_message :
  (let args := {| arg_model := None; arg_system_prompt := Some "";
                  arg_parameters := None; arg_metadata := None |} in
   arg_system_prompt args <> None
   /\ exists conv w',
       Manager.createConversation unset_environment args (quiet ∅)
       = (Ok conv, w')
       /\ messages (heap w' conv) = [])
  /\ (let args := {| arg_model := None; arg_system_prompt := None;
                     arg_parameters := None; arg_metadata := None |} in
      exists c,
        files (snd (Tools.create_conversation unset_environment "m" args (quiet ∅)))
        !! "1.json" = Some (Json c)
        /\ messages c = [ {| msg_role := system;
                             content := "You are a helpful assistant." |} ]).
Proof.
  split.
  - cbv zeta. split; [discriminate|].
    eexists _, _. split; [vm_compute; reflexivity|]. reflexivity.
  - cbv zeta. eexists. split; [vm_compute; reflexivity|]. reflexivity.
Qed.

End SystemMessages.

(* ===================================================================== *)
(** * Sequential IDs *)
(* ===================================================================== *)

Section SequentialIds.
Import Str Alloc.

Lemma in_keys (m : gmap string file) name :
  In name (map fst (map_to_list m)) <-> is_Some (m !! name).
Proof.
  rewrite in_map_iff. split.
  - intros ([k v] & <- & H). apply list_elem_of_In, elem_of_map_to_list in H.
    cbn. eauto.
  - intros [v H]. exists (name, v). split; [reflexivity|].
    apply list_elem_of_In, elem_of_map_to_list. exact H.
Qed.

Lemma json_name_inj a b : a ++ ".json" = b ++ ".json" -> a = b.
Proof.
  intros H. apply (f_equal (fun s => basename s ".json")) in H.
  rewrite !basename_json in H. exact H.
Qed.

Lemma counted_numbered n w x :
  numbered n w ->
  counted (map fst (map_to_list (files w))) x
  <-> (1 <= x <= N.of_nat n)%N.
Proof.
  intros Hn. unfold counted. rewrite in_keys, (Hn _). split.
  - intros (i & Hi & E). apply json_name_inj, decimal_inj in E. lia.
  - intros Hx. exists (N.to_nat x). split; [lia|]. rewrite N2Nat.id. reflexivity.
Qed.

Lemma next_id_numbered n w :
  numbered n w -> (N.of_nat n < 2 ^ 53)%N ->
  next_id (map fst (map_to_list (files w))) = decimal (N.of_nat (S n)).
Proof.
  intros Hn Hb.
  destruct (next_id_spec (map fst (map_to_list (files w)))) as (m & Hm & Hmax & ->).
  { intros x Hx. apply (counted_numbered n w x Hn) in Hx. lia. }
  f_equal. assert (m = N.of_nat n); [|lia].
  apply N.le_antisymm.
  - destruct Hm as [->|Hm]; [lia|]. apply (counted_numbered n w m Hn) in Hm. lia.
  - destruct n as [|n]; [lia|]. apply Hmax.
    apply (counted_numbered (S n) w _ Hn). lia.
Qed.

Lemma create_id_numbered k args n w i w' :
  numbered n w -> (N.of_nat n < 2 ^ 53)%N ->
  create_id k args w = (Ok i, w') ->
  i = decimal (N.of_nat (S n)) /\ numbered (S n) w'.
Proof.
  intros Hn Hb. unfold create_id. rewrite bind_eq, createConversation_eq.
  cbv zeta. rewrite getNextConversationId_eq.
  cbn [fault ticks set_ticks files].
  destruct (fault w (S (ticks w))); [discriminate|].
  destruct (fault w (S (S (ticks w)))); [discriminate|].
  rewrite (next_id_numbered n w Hn Hb).
  rewrite writeConversation_eq. cbn [fault ticks loaded set_ticks
    set_conversations set_next_ref set_heap next_ref].
  destruct (fault w (S (S (S (ticks w))))); [discriminate|].
  destruct (fault w (S (S (S (S (ticks w)))))); [discriminate|].
  unfold bind, deref, ret. cbn. rewrite Nat.eqb_refl. cbn.
  intros H. injection H as <- <-. split; [reflexivity|].
  intros name. cbn [files written loaded set_trace set_files set_ticks
    set_conversations set_next_ref set_heap].
  destruct (string_dec (decimal (N.of_nat (S n)) ++ ".json") name) as [<-|Hne].
  - rewrite lookup_insert_eq. split; [|intros _; eexists; reflexivity].
    intros _. exists (S n). split; [lia|reflexivity].
  - rewrite lookup_insert_ne by exact Hne. rewrite (Hn name). split.
    + intros (j & Hj & E). exists j. split; [lia|exact E].
    + intros (j & Hj & E). exists j. split; [|exact E].
      destruct (Nat.eq_dec j (S n)) as [->|]; [congruence|lia].
Qed.

Lemma create_all_numbered k argss : forall n w ids w',
  numbered n w ->
  (N.of_nat (n + length argss) < 2 ^ 53)%N ->
  create_all k argss w = (Ok ids, w') ->
  ids = map (fun i => decimal (N.of_nat i)) (seq (S n) (length argss)).
Proof.
  induction argss as [|args rest IH]; intros n w ids w' Hn Hb.
  - cbn. intros H. injection H as <- _. reflexivity.
  - cbn [create_all length seq map]. rewrite bind_eq.
    destruct (create_id k args w) as [[i|e] w1] eqn:E1; [|discriminate].
    destruct (create_id_numbered k args n w i w1 Hn) as [-> Hn1];
      [cbn [length] in Hb; lia|exact E1|].
    rewrite bind_eq.
    destruct (create_all k rest w1) as [[others|e] w2] eqn:E2; [|discriminate].
    intros H. injection H as <- _. f_equal.
    apply (IH (S n) w1 others w2 Hn1); [cbn [length] in Hb; lia|exact E2].
Qed.

Lemma decimal_value n s : decimal n = s -> n = horner (leading_digits s).
Proof. intros <-. rewrite leading_digits_decimal, horner_digits. reflexivity. Qed.

Lemma json_name_value n s :
  s = decimal n ++ ".json" -> n = horner (leading_digits (basename s ".json")).
Proof. intros ->. rewrite basename_json. apply decimal_value. reflexivity. Qed.

Lemma numbered_empty w : files w = ∅ -> numbered 0 w.
Proof.
  intros H name. rewrite H, lookup_empty. split.
  - intros [x Hx]. discriminate.
  - intros (i & Hi & _). lia.
Qed.

Lemma counted_plain files n :
  counted files n
  <-> exists base,
        In (base ++ ".json") files
        /\ plain_numeral base = true
        /\ horner (leading_digits base) = n.
Proof.
  unfold counted. split.
  - intros H. exists (decimal n). split; [exact H|]. split.
    + apply plain_numeral_decimal. eauto.
    + rewrite leading_digits_decimal. apply horner_digits.
  - intros (base & Hin & Hp & <-).
    apply plain_numeral_decimal in Hp. destruct Hp as [m ->].
    rewrite leading_digits_decimal, horner_digits. exact Hin.
Qed.

(** C4, as the code has it. [getNextConversationId] returns [next_id]
    of the directory listing. A number is counted when the directory
    has a [.json] entry whose base name is its plain numeral: decimal
    digits only, no sign, no leading zero, nothing after the digits.
    When every counted number is below 2^53, the result is the numeral
    of one plus the greatest counted number, the greatest being 0 when
    nothing is counted; so it is "1" when nothing is counted.
    Consequently N < 2^53 creations in a row that succeed on an empty
    store return the IDs "1" ... "N". *)
Theorem allocation_is_max_plus_one :
  (forall w i w',
      Store.getNextConversationId w = (Ok i, w') ->
      i = next_id (map fst (map_to_list (files w))))
  /\ (forall files n,
        counted files n
        <-> exists base,
              In (base ++ ".json") files
              /\ plain_numeral base = true
              /\ horner (leading_digits base) = n)
  /\ (forall files,
        (forall n, counted files n -> (n < 2 ^ 53)%N) ->
        exists m,
          (m = 0%N \/ counted files m)
          /\ (forall n, counted files n -> (n <= m)%N)
          /\ next_id files = decimal (m + 1))
  /\ (forall files, (forall n, ~ counted files n) -> next_id files = "1")
  /\ (forall k argss w ids w',
        files w = ∅ ->
        (N.of_nat (length argss) < 2 ^ 53)%N ->
        create_all k argss w = (Ok ids, w') ->
        ids = map (fun i => decimal (N.of_nat i)) (seq 1 (length argss))).
Proof.
  split; [|split; [|split; [|split]]].
  - intros w i w'. rewrite getNextConversationId_eq.
    destruct (fault w (ticks w)); [discriminate|].
    destruct (fault w (S (ticks w))); [discriminate|].
    intros H. injection H as <- _. reflexivity.
  - exact counted_plain.
  - exact next_id_spec.
  - intros files Hnone.
    destruct (next_id_spec files) as (m & Hm & _ & ->).
    { intros n Hn. destruct (Hnone n Hn). }
    destruct Hm as [->|Hm]; [reflexivity|]. destruct (Hnone m Hm).
  - intros k argss w ids w' Hw Hb Hrun.
    apply (create_all_numbered k argss 0 w ids w');
      [apply numbered_empty; exact Hw|exact Hb|exact Hrun].
Qed.

(** Instances: a listing with the entries 2.json and 007.json, and
    three creations in a row on an empty store. *)
Lemma allocation_is_max_plus_one_witness :
  (exists m,
      (m = 0%N \/ counted ["2.json"; "007.json"] m)
      /\ (forall n, counted ["2.json"; "007.json"] n -> (n <= m)%N)
      /\ next_id ["2.json"; "007.json"] = decimal (m + 1))
  /\ (let args := {| arg_model := None; arg_system_prompt := None;
                     arg_parameters := None; arg_metadata := None |} in
      exists ids w',
        create_all unset_environment [args; args; args] (quiet ∅) = (Ok ids, w')
        /\ ids = map (fun i => decimal (N.of_nat i)) (seq 1 3)).
Proof.
  destruct allocation_is_max_plus_one as (_ & _ & Hmax & _ & Hseq).
  split.
  - apply Hmax.
    intros n [H|[H|[]]]; apply json_name_value in H; subst n;
      vm_compute; reflexivity.
  - intros args. eexists _, _. split; [vm_compute; reflexivity|].
    eapply (Hseq unset_environment [args; args; args] (quiet ∅));
      [reflexivity|vm_compute; reflexivity|vm_compute; reflexivity].
Defined.

(** C4, counterexample to the claim as stated: the directory holds
    9007199254740992.json (2^53), the greatest counted number is 2^53,
    and the allocator returns "9007199254740992" again instead of
    "9007199254740993". *)
Lemma allocation_repeats_beyond_2p53 :
  let files := ["9007199254740992.json"] in
  counted files 9007199254740992
  /\ (forall n, counted files n -> (n <= 9007199254740992)%N)
  /\ next_id files = "9007199254740992"
  /\ next_id files <> decimal (9007199254740992 + 1).
Proof.
  cbv zeta. split; [left; vm_compute; reflexivity|]. split; [|split].
  - intros n [H|[]]. apply json_name_value in H. subst n.
    vm_compute. discriminate.
  - vm_compute. reflexivity.
  - vm_compute. discriminate.
Qed.

End SequentialIds.

(* ===================================================================== *)
(** * Listing and its filter *)
(* ===================================================================== *)

Section ListingFacts.

Variable getTime : string -> option Z.

Lemma read_all_eq jsonFiles : forall acc w,
  Store.read_all jsonFiles acc w = (Ok (acc ++ readable w jsonFiles)%list, w).
Proof.
  induction jsonFiles as [|file rest IH]; intros acc w.
  - cbn. rewrite app_nil_r. reflexivity.
  - cbn [Store.read_all readable]. rewrite bind_eq.
    unfold try_catch. rewrite bind_eq, readConversation_eq.
    destruct (files w !! (Str.basename file ".json" ++ ".json")) as [[m|c|m]|].
    + unfold ret. rewrite IH. reflexivity.
    + unfold ret. rewrite IH, <- app_assoc. reflexivity.
    + unfold ret. rewrite IH. reflexivity.
    + unfold ret. rewrite IH. reflexivity.
Qed.

Lemma readable_files w w' l : files w = files w' -> readable w l = readable w' l.
Proof.
  intros H. induction l as [|x l IH]; cbn [readable]; [reflexivity|].
  rewrite H, IH. reflexivity.
Qed.

Lemma store_listConversations_eq w :
  fault w (ticks w) = None -> fault w (S (ticks w)) = None ->
  Store.listConversations getTime w
  = (Ok (Store.sort_by_updated getTime
           (readable w (List.filter (fun file => Str.endsWith file ".json")
                                    (map fst (map_to_list (files w)))))),
     set_ticks (S (S (ticks w))) w).
Proof.
  intros F1 F2. unfold Store.listConversations, try_catch.
  rewrite bind_eq, ensureConversationDir_eq, F1.
  unfold fs_readdir. rewrite !bind_eq, io_call_eq. cbn [fault ticks set_ticks].
  rewrite F2. unfold get_world, ret. rewrite !bind_eq, read_all_eq.
  cbn [app files set_ticks].
  rewrite (readable_files _ w) by reflexivity. reflexivity.
Qed.

Lemma slice_all {A} (l : list A) : Tools.slice 0 (0 + length l) l = l.
Proof.
  unfold Tools.slice. cbn [skipn]. rewrite Nat.add_0_l, Nat.sub_0_r.
  apply firstn_all.
Qed.

Lemma insert_sorted_perm x l :
  Permutation (Store.insert_sorted getTime x l) (x :: l).
Proof.
  induction l as [|y l IH]; cbn [Store.insert_sorted]; [reflexivity|].
  destruct (Store.goes_before getTime x y); [reflexivity|].
  rewrite IH. apply perm_swap.
Qed.

Lemma sort_by_updated_perm l : Permutation (Store.sort_by_updated getTime l) l.
Proof.
  unfold Store.sort_by_updated.
  assert (forall acc, Permutation
            (fold_left (fun sorted x => Store.insert_sorted getTime x sorted) l acc)
            (acc ++ l)) as H.
  { induction l as [|x l IH]; intros acc; cbn [fold_left].
    - rewrite app_nil_r. reflexivity.
    - rewrite IH, insert_sorted_perm. apply Permutation_middle. }
  apply (H []).
Qed.

Lemma filter_perm {A} (f : A -> bool) l l' :
  Permutation l l' -> Permutation (List.filter f l) (List.filter f l').
Proof.
  induction 1 as [|x l l' _ IH|x y l|l l' l'' _ IH1 _ IH2]; cbn [List.filter].
  - reflexivity.
  - destruct (f x); [apply perm_skip|]; exact IH.
  - destruct (f x), (f y); try reflexivity. apply perm_swap.
  - rewrite IH1. exact IH2.
Qed.

Lemma readable_perm w l l' :
  Permutation l l' -> Permutation (readable w l) (readable w l').
Proof.
  induction 1 as [|x l l' _ IH|x y l|l l' l'' _ IH1 _ IH2]; cbn [readable].
  - reflexivity.
  - destruct (files w !! _) as [[m|c|m]|]; [|apply perm_skip| |]; exact IH.
  - destruct (files w !! (Str.basename y ".json" ++ ".json")) as [[m|c|m]|],
             (files w !! (Str.basename x ".json" ++ ".json")) as [[m'|c'|m']|];
      try reflexivity. apply perm_swap.
  - rewrite IH1. exact IH2.
Qed.

Lemma basename_endsWith file :
  Str.endsWith file ".json" = true -> Str.basename file ".json" ++ ".json" = file.
Proof.
  unfold Str.endsWith, Str.basename.
  destruct (Str.strip_suffix ".json" file) as [p|] eqn:E; [|discriminate].
  intros _. symmetry. apply strip_suffix_Some. exact E.
Qed.

(** What the list tool returns when the file system works, for a call
    with a filter on the two dates and no pagination. *)
Lemma list_conversations_window w after before :
  fault w (ticks w) = None -> fault w (S (ticks w)) = None ->
  truthy (Some after) = true -> truthy (Some before) = true ->
  exists listed,
    fst (Tools.list_conversations getTime (between_dates after before) w)
    = Ok listed
    /\ Permutation listed
         (List.filter (in_window getTime after before)
            (readable w (List.filter (fun file => Str.endsWith file ".json")
                                     (map fst (map_to_list (files w)))))).
Proof.
  intros F1 F2 Ta Tb.
  unfold Tools.list_conversations, Tools.with_schema, Tools.listConversationsSchema,
    between_dates.
  cbn [list_limit]. unfold Tools.list_conversations_execute, try_catch.
  rewrite bind_eq. unfold Manager.listConversations, try_catch.
  rewrite store_listConversations_eq by assumption.
  cbn [list_filter list_offset list_limit nullish]. unfold ret. cbn [fst].
  rewrite slice_all. eexists. split; [reflexivity|].
  unfold Tools.apply_filter.
  cbn [filter_tags created_after created_before nullish]. rewrite Ta, Tb.
  set (l := Store.sort_by_updated getTime _).
  set (l0 := readable w _).
  assert (Permutation l l0) as Hl by apply sort_by_updated_perm.
  rewrite (filter_perm _ _ _ (filter_perm _ _ _ Hl)).
  clearbody l0. clear. induction l0 as [|x l0 IH]; [reflexivity|].
  unfold in_window in *. cbn [List.filter].
  destruct (Tools.time_ge (getTime (meta_created_at x)) (getTime after));
    cbn [List.filter andb]; [|exact IH].
  destruct (Tools.time_ge (getTime before) (getTime (meta_created_at x)));
    [apply perm_skip|]; exact IH.
Qed.

Lemma keys_of_three (n1 n2 n3 : string) (v1 v2 v3 : file) :
  n1 <> n2 -> n1 <> n3 -> n2 <> n3 ->
  Permutation
    (map fst (map_to_list (<[n1 := v1]> (<[n2 := v2]> ({[n3 := v3]} : gmap string file)))))
    [n1; n2; n3].
Proof.
  intros H12 H13 H23.
  rewrite map_to_list_insert.
  2:{ rewrite lookup_insert_ne by congruence. apply lookup_singleton_ne. congruence. }
  rewrite map_to_list_insert by (apply lookup_singleton_ne; congruence).
  rewrite map_to_list_singleton. reflexivity.
Qed.

Lemma window_of c t after before ta tb :
  getTime (created_at c) = Some t ->
  getTime after = Some ta -> getTime before = Some tb ->
  in_window getTime after before (Store.metadata_of c)
  = ((ta <=? t)%Z && (t <=? tb)%Z).
Proof.
  intros Hc Ha Hb. unfold in_window, Store.metadata_of. cbn [meta_created_at].
  rewrite Hc, Ha, Hb. reflexivity.
Qed.

(** C6, as the code has it. Three conversations are stored and their
    created_at are day 1 < day 2 < day 3. The list tool with the filter
    [{created_after: a, created_before: b}] returns the stored
    conversations whose created_at lies between [a] and [b], both bounds
    included. It returns exactly the day-2 conversation if and only if
    day 1 < a <= day 2 <= b < day 3; with a = day 1 and b = day 3 it
    returns all three. *)
Theorem list_filter_bounds_are_inclusive
        w n1 n2 n3 c1 c2 c3 t1 t2 t3 after before ta tb :
  files w = <[n1 := Json c1]> (<[n2 := Json c2]> {[n3 := Json c3]}) ->
  n1 <> n2 -> n1 <> n3 -> n2 <> n3 ->
  Str.endsWith n1 ".json" = true ->
  Str.endsWith n2 ".json" = true ->
  Str.endsWith n3 ".json" = true ->
  fault w (ticks w) = None -> fault w (S (ticks w)) = None ->
  getTime (created_at c1) = Some t1 ->
  getTime (created_at c2) = Some t2 ->
  getTime (created_at c3) = Some t3 ->
  (t1 < t2 < t3)%Z ->
  truthy (Some after) = true -> truthy (Some before) = true ->
  getTime after = Some ta -> getTime before = Some tb ->
  exists listed,
    fst (Tools.list_conversations getTime (between_dates after before) w)
    = Ok listed
    /\ Permutation listed
         (List.filter (in_window getTime after before)
            [Store.metadata_of c1; Store.metadata_of c2; Store.metadata_of c3])
    /\ (listed = [Store.metadata_of c2]
        <-> (t1 < ta <= t2)%Z /\ (t2 <= tb < t3)%Z)
    /\ (ta = t1 -> tb = t3 ->
        Permutation listed
          [Store.metadata_of c1; Store.metadata_of c2; Store.metadata_of c3]).
Proof.
  intros Hfiles H12 H13 H23 E1 E2 E3 F1 F2 G1 G2 G3 Hlt Ta Tb Ga Gb.
  destruct (list_conversations_window w after before F1 F2 Ta Tb)
    as (listed & Hrun & Hperm).
  exists listed. split; [exact Hrun|].
  assert (Permutation listed
            (List.filter (in_window getTime after before)
               [Store.metadata_of c1; Store.metadata_of c2; Store.metadata_of c3]))
    as Hp.
  { rewrite Hperm. apply filter_perm.
    rewrite (readable_perm w _ [n1; n2; n3]).
    2:{ rewrite (filter_perm _ _ [n1; n2; n3]).
        - cbn [List.filter]. rewrite E1, E2, E3. reflexivity.
        - rewrite Hfiles. apply keys_of_three; assumption. }
    cbn [readable]. rewrite !basename_endsWith by assumption.
    rewrite Hfiles.
    rewrite lookup_insert_eq.
    rewrite (lookup_insert_ne _ n1 n2), lookup_insert_eq by congruence.
    rewrite (lookup_insert_ne _ n1 n3), (lookup_insert_ne _ n2 n3) by congruence.
    rewrite lookup_singleton_eq. reflexivity. }
  split; [exact Hp|].
  cbn [List.filter] in Hp.
  rewrite (window_of c1 t1 after before ta tb),
          (window_of c2 t2 after before ta tb),
          (window_of c3 t3 after before ta tb) in Hp by assumption.
  assert (Store.metadata_of c1 <> Store.metadata_of c2) as D12.
  { intros E. apply (f_equal meta_created_at) in E. cbn in E. rewrite E in G1.
    rewrite G1 in G2. injection G2 as ->. lia. }
  assert (Store.metadata_of c3 <> Store.metadata_of c2) as D32.
  { intros E. apply (f_equal meta_created_at) in E. cbn in E. rewrite E in G3.
    rewrite G3 in G2. injection G2 as ->. lia. }
  split; [split|].
  - intros ->.
    destruct (Z.leb_spec ta t1), (Z.leb_spec t1 tb), (Z.leb_spec ta t2),
      (Z.leb_spec t2 tb), (Z.leb_spec ta t3), (Z.leb_spec t3 tb);
      cbn [andb] in Hp; try lia;
      try (apply Permutation_length in Hp; cbn in Hp; lia);
      apply Permutation_length_1_inv in Hp; congruence.
  - intros [Ha Hb].
    destruct (Z.leb_spec ta t1), (Z.leb_spec t1 tb), (Z.leb_spec ta t2),
      (Z.leb_spec t2 tb), (Z.leb_spec ta t3), (Z.leb_spec t3 tb);
      cbn [andb] in Hp; try lia.
    all: symmetry in Hp; apply Permutation_length_1_inv in Hp; exact Hp.
  - intros -> ->.
    destruct (Z.leb_spec t1 t1), (Z.leb_spec t1 t3), (Z.leb_spec t1 t2),
      (Z.leb_spec t2 t3), (Z.leb_spec t3 t3); cbn [andb] in Hp; try lia.
    exact Hp.
Qed.

End ListingFacts.

Section ListingInstances.

(** Instance with ISO dates: bounds at noon of day 1 and day 2. *)
Lemma list_filter_bounds_are_inclusive_witness :
  exists listed,
    fst (Tools.list_conversations Iso.getTime
           (between_dates "2024-01-01T12:00:00.000Z" "2024-01-02T12:00:00.000Z")
           (quiet three_days))
    = Ok listed
    /\ listed = [Store.metadata_of (stored_at "2" "2024-01-02T00:00:00.000Z")].
Proof.
  destruct (list_filter_bounds_are_inclusive Iso.getTime (quiet three_days)
              "1.json" "2.json" "3.json"
              (stored_at "1" "2024-01-01T00:00:00.000Z")
              (stored_at "2" "2024-01-02T00:00:00.000Z")
              (stored_at "3" "2024-01-03T00:00:00.000Z")
              1704067200000%Z 1704153600000%Z 1704240000000%Z
              "2024-01-01T12:00:00.000Z" "2024-01-02T12:00:00.000Z"
              1704110400000%Z 1704196800000%Z)
    as (listed & Hrun & _ & Hiff & _);
    try (vm_compute; reflexivity).
  - discriminate.
  - discriminate.
  - discriminate.
  - lia.
  - exists listed. split; [exact Hrun|]. apply Hiff. lia.
Defined.

(** C6, counterexample to the claim as stated: with the filter bounds
    equal to day 1 and day 3 the tool returns all three conversations;
    with date-only bounds and conversations created at ten o'clock it
    returns those of day 1 and day 2. *)
Lemma list_filter_returns_the_bounds :
  fst (Tools.list_conversations Iso.getTime
         (between_dates "2024-01-01T00:00:00.000Z" "2024-01-03T00:00:00.000Z")
         (quiet three_days))
  = Ok [Store.metadata_of (stored_at "3" "2024-01-03T00:00:00.000Z");
        Store.metadata_of (stored_at "2" "2024-01-02T00:00:00.000Z");
        Store.metadata_of (stored_at "1" "2024-01-01T00:00:00.000Z")]
  /\ fst (Tools.list_conversations Iso.getTime
            (between_dates "2024-01-01" "2024-01-03")
            (quiet (<["1.json" := Json (stored_at "1" "2024-01-01T10:00:00.000Z")]>
                      (<["2.json" := Json (stored_at "2" "2024-01-02T10:00:00.000Z")]>
                         {["3.json" := Json (stored_at "3" "2024-01-03T10:00:00.000Z")]}))))
     = Ok [Store.metadata_of (stored_at "2" "2024-01-02T10:00:00.000Z");
           Store.metadata_of (stored_at "1" "2024-01-01T10:00:00.000Z")].
Proof. split; vm_compute; reflexivity. Qed.

End ListingInstances.

(* ===================================================================== *)
(** * Scenarios *)
(* ===================================================================== *)

Section Scenarios.

(** The state after [create_conversation(model = "m", system_prompt = "S")]
    on an empty store. *)
Let created : world :=
  snd (Tools.create_conversation unset_environment "gpt-4o-mini"
         {| arg_model := Some "m"; arg_system_prompt := Some "S";
            arg_parameters := None; arg_metadata := None |}
         (quiet ∅)).

Let hi : ChatArgs :=
  {| conversation_id := "1"; chat_message := "hi"; chat_parameters := None |}.

Example create_then_chat :
  let '(answer, w) := Tools.chat unset_environment says_hello hi created in
  answer = Ok "Hello"
  /\ (result_map messages (fst (Tools.get_conversation "1" w))
      = Ok [ {| msg_role := system; content := "S" |};
             {| msg_role := user; content := "hi" |};
             {| msg_role := assistant; content := "Hello" |} ])
  /\ progress_values (trace w) = [0; 31; 32; 33; 80; 100]%nat.
Proof. vm_compute. repeat split; reflexivity. Qed.

Example chat_with_broken_stream :
  let '(answer, w) := Tools.chat unset_environment breaks_off hi created in
  answer = Throw (ChatTimeoutError "OpenAI API request timed out")
  /\ (result_map messages (fst (Tools.get_conversation "1" w))
      = Ok [ {| msg_role := system; content := "S" |};
             {| msg_role := user; content := "hi" |} ])
  /\ progress_values (trace w) = [0; 31; 32; 33]%nat.
Proof. vm_compute. repeat split; reflexivity. Qed.

Example delete_then_get :
  let w := snd (Tools.delete_conversation "1" created) in
  fst (Tools.get_conversation "1" w) = Throw (ConversationNotFoundError "1").
Proof. vm_compute. reflexivity. Qed.

Example ticks_of_a_long_stream :
  ticks_reported 200
  = [31; 32; 33; 34; 35; 36; 37; 38; 39; 40; 45; 50; 55; 60; 65; 70; 75; 80]%nat.
Proof. vm_compute. reflexivity. Qed.

End Scenarios.

(* ===================================================================== *)
(** * Further properties of the store ([src/utils.ts]) *)
(* ===================================================================== *)

Section StoreFrame.

Lemma json_name_ne a b : a <> b -> a ++ ".json" <> b ++ ".json".
Proof. intros H E. apply H. apply json_name_inj. exact E. Qed.

(** X1. Writing a conversation changes what the store holds for that
    conversation's ID only: for IDs that are file names (no path
    separator), reading any other ID afterwards gives what it gave
    before, whether the write succeeded or failed. *)
Theorem write_leaves_other_conversations r w other :
  Str.is_file_name (id (heap w r)) = true ->
  Str.is_file_name other = true ->
  other <> id (heap w r) ->
  fst (Store.readConversation other (snd (Store.writeConversation r w)))
  = fst (Store.readConversation other w).
Proof.
  intros _ _ Hne. rewrite writeConversation_eq, !readConversation_eq.
  destruct (fault w (ticks w)); [reflexivity|].
  destruct (fault w (S (ticks w))); [reflexivity|].
  cbn [fst snd written files set_trace set_files].
  rewrite lookup_insert_ne; [reflexivity|].
  apply json_name_ne. congruence.
Qed.

(** Instance: conversation 1 is stored, conversation 2 is written. *)
Lemma write_leaves_other_conversations_witness :
  let w := set_heap (fun _ => talk "2" []) (quiet {["1.json" := Json tuned]}) in
  fst (Store.readConversation "1" (snd (Store.writeConversation 0 w)))
  = Ok tuned.
Proof.
  intros w.
  rewrite (write_leaves_other_conversations 0 w "1");
    [reflexivity|reflexivity|reflexivity|discriminate].
Defined.

(** X2. After the store has deleted a conversation, reading its ID fails
    with ConversationStorageError, and, for IDs that are file names (no
    path separator), reading any other ID gives what it gave before. *)
Theorem delete_then_read conversationId w w' :
  Store.deleteConversation conversationId w = (Ok tt, w') ->
  (exists m, fst (Store.readConversation conversationId w')
             = Throw (ConversationStorageError m))
  /\ forall other,
       Str.is_file_name conversationId = true ->
       Str.is_file_name other = true ->
       other <> conversationId ->
       fst (Store.readConversation other w')
       = fst (Store.readConversation other w).
Proof.
  rewrite store_deleteConversation_eq.
  destruct (files w !! (conversationId ++ ".json")); [|discriminate].
  destruct (fault w (ticks w)); [discriminate|].
  intros H. injection H as <-. split.
  - rewrite readConversation_eq. cbn [fst files set_trace set_files].
    rewrite lookup_delete_eq. eexists. reflexivity.
  - intros other _ _ Hne. rewrite !readConversation_eq.
    cbn [fst files set_trace set_files].
    rewrite lookup_delete_ne; [reflexivity|].
    apply json_name_ne. congruence.
Qed.

(** Instance: conversations 1 and 2 are stored, conversation 1 is
    deleted. *)
Lemma delete_then_read_witness :
  let w := quiet (<["1.json" := Json tuned]> {["2.json" := Json (talk "2" [])]}) in
  exists w',
    Store.deleteConversation "1" w = (Ok tt, w')
    /\ (exists m, fst (Store.readConversation "1" w')
                  = Throw (ConversationStorageError m))
    /\ fst (Store.readConversation "2" w') = Ok (talk "2" []).
Proof.
  intros w. eexists. split; [vm_compute; reflexivity|].
  match goal with
  | |- (exists m, fst (Store.readConversation _ ?w') = _) /\ _ =>
      destruct (delete_then_read "1" w w') as [H1 H2]; [vm_compute; reflexivity|]
  end.
  split; [exact H1|].
  rewrite H2; [vm_compute; reflexivity|reflexivity|reflexivity|discriminate].
Defined.

End StoreFrame.

(* ===================================================================== *)
(** * Further properties of listing *)
(* ===================================================================== *)

Section ListingOrder.

Variable getTime : string -> option Z.

Lemma readable_entries w (l : list (string * file)) :
  (forall name f, In (name, f) l -> files w !! name = Some f) ->
  readable w (List.filter (fun file => Str.endsWith file ".json") (map fst l))
  = flat_map (fun entry : string * file =>
                match snd entry with
                | Json c =>
                    if Str.endsWith (fst entry) ".json"
                    then [Store.metadata_of c] else []
                | Unparseable _ | Unreadable _ => []
                end) l.
Proof.
  induction l as [|[name f] l IH]; intros H; [reflexivity|].
  cbn [map fst snd List.filter flat_map].
  assert (files w !! name = Some f) as Hf by (apply H; left; reflexivity).
  assert (forall name f, In (name, f) l -> files w !! name = Some f) as H'
    by (intros n' f' Hin; apply H; right; exact Hin).
  destruct (Str.endsWith name ".json") eqn:E.
  - cbn [readable]. rewrite (basename_endsWith name E), Hf, (IH H').
    destruct f; reflexivity.
  - rewrite (IH H'). destruct f; reflexivity.
Qed.

Lemma readable_stored w :
  readable w (List.filter (fun file => Str.endsWith file ".json")
                          (map fst (map_to_list (files w))))
  = stored_metadata (files w).
Proof.
  apply readable_entries. intros name f H.
  apply list_elem_of_In, elem_of_map_to_list in H. exact H.
Qed.

Lemma in_stored_metadata dir md :
  In md (stored_metadata dir)
  <-> exists name c,
        dir !! name = Some (Json c)
        /\ Str.endsWith name ".json" = true
        /\ md = Store.metadata_of c.
Proof.
  unfold stored_metadata. rewrite in_flat_map. split.
  - intros ([name f] & Hin & Hmd). cbn [fst snd] in Hmd.
    apply list_elem_of_In, elem_of_map_to_list in Hin.
    destruct f as [m|c|m]; [destruct Hmd| |destruct Hmd].
    destruct (Str.endsWith name ".json") eqn:E; [|destruct Hmd].
    destruct Hmd as [<-|[]]. exists name, c. repeat split; assumption.
  - intros (name & c & Hf & E & ->). exists (name, Json c). split.
    + apply list_elem_of_In, elem_of_map_to_list. exact Hf.
    + cbn [fst snd]. rewrite E. left. reflexivity.
Qed.

(** The store-level listing, case by case on the two calls it makes to
    the file system. *)
Lemma store_listConversations_cases w :
  Store.listConversations getTime w
  = match fault w (ticks w) with
    | Some m =>
        (Throw (ConversationStorageError
                  ("Failed to list conversations: "
                   ++ "Failed to create conversations directory: " ++ m)),
         set_ticks (S (ticks w)) w)
    | None =>
        match fault w (S (ticks w)) with
        | Some m =>
            (Throw (ConversationStorageError
                      ("Failed to list conversations: " ++ m)),
             set_ticks (S (S (ticks w))) w)
        | None =>
            (Ok (Store.sort_by_updated getTime (stored_metadata (files w))),
             set_ticks (S (S (ticks w))) w)
        end
    end.
Proof.
  destruct (fault w (ticks w)) as [m|] eqn:F1.
  { unfold Store.listConversations, try_catch.
    rewrite bind_eq, ensureConversationDir_eq, F1. reflexivity. }
  destruct (fault w (S (ticks w))) as [m|] eqn:F2.
  { unfold Store.listConversations, try_catch.
    rewrite bind_eq, ensureConversationDir_eq, F1.
    unfold fs_readdir. rewrite !bind_eq, io_call_eq. cbn [fault ticks set_ticks].
    rewrite F2. reflexivity. }
  rewrite (store_listConversations_eq getTime w F1 F2), readable_stored.
  reflexivity.
Qed.

Lemma not_older_trans a b c :
  not_older getTime a b -> not_older getTime b c -> not_older getTime a c.
Proof.
  unfold not_older.
  destruct (getTime (meta_updated_at a)), (getTime (meta_updated_at b)),
    (getTime (meta_updated_at c)); try tauto. lia.
Qed.

Lemma insert_sorted_newest_first x l :
  getTime (meta_updated_at x) <> None ->
  Forall (fun a => getTime (meta_updated_at a) <> None) l ->
  newest_first getTime l ->
  newest_first getTime (Store.insert_sorted getTime x l).
Proof.
  intros Hx. induction l as [|y l IH]; intros Hv Hs.
  - cbn. split; [constructor|exact I].
  - cbn [Store.insert_sorted]. inversion Hv as [|? ? Hy Hv']; subst.
    destruct Hs as [Hyl Hs].
    unfold Store.goes_before, Store.compare_updated.
    destruct (getTime (meta_updated_at x)) as [tx|] eqn:Ex; [|congruence].
    destruct (getTime (meta_updated_at y)) as [ty|] eqn:Ey; [|congruence].
    destruct (Z.ltb_spec (ty - tx) 0) as [Hlt|Hge].
    + cbn [newest_first]. split; [|split; assumption].
      assert (not_older getTime x y) as Hxy.
      { unfold not_older. rewrite Ex, Ey. lia. }
      constructor; [exact Hxy|].
      apply List.Forall_forall. intros z Hz.
      apply (not_older_trans _ _ _ Hxy).
      revert z Hz. apply List.Forall_forall. exact Hyl.
    + cbn [newest_first]. split; [|apply IH; assumption].
      apply (Permutation_Forall (x := x :: l)).
      * symmetry. apply insert_sorted_perm.
      * constructor; [|exact Hyl]. unfold not_older. rewrite Ex, Ey. lia.
Qed.

Lemma sort_by_updated_newest_first l :
  Forall (fun a => getTime (meta_updated_at a) <> None) l ->
  newest_first getTime (Store.sort_by_updated getTime l).
Proof.
  unfold Store.sort_by_updated.
  assert (forall acc,
            Forall (fun a => getTime (meta_updated_at a) <> None) l ->
            Forall (fun a => getTime (meta_updated_at a) <> None) acc ->
            newest_first getTime acc ->
            newest_first getTime
              (fold_left (fun sorted x => Store.insert_sorted getTime x sorted) l acc))
    as H.
  { induction l as [|x l IH]; intros acc Hl Hacc Hs; [exact Hs|].
    cbn [fold_left]. inversion Hl as [|? ? Hx Hl']; subst.
    apply IH; [exact Hl'| |apply insert_sorted_newest_first; assumption].
    apply (Permutation_Forall (x := x :: acc)).
    - symmetry. apply insert_sorted_perm.
    - constructor; assumption. }
  intros Hl. apply H; [exact Hl|constructor|exact I].
Qed.

(** X3. A listing that succeeds returns one record for every [.json]
    entry of the directory whose text is a conversation, and nothing
    else: entries with another extension and entries that do not parse
    are left out without an error. Each record carries the number of
    messages of its conversation. The directory is not changed. *)
Theorem listing_is_what_is_stored w listed w' :
  Store.listConversations getTime w = (Ok listed, w') ->
  Permutation listed (stored_metadata (files w))
  /\ (forall md,
        In md listed
        <-> exists name c,
              files w !! name = Some (Json c)
              /\ Str.endsWith name ".json" = true
              /\ md = Store.metadata_of c)
  /\ files w' = files w.
Proof.
  rewrite store_listConversations_cases.
  destruct (fault w (ticks w)); [discriminate|].
  destruct (fault w (S (ticks w))); [discriminate|].
  intros H. injection H as <- <-.
  pose proof (sort_by_updated_perm getTime (stored_metadata (files w))) as Hp.
  split; [exact Hp|]. split; [|reflexivity].
  intros md. rewrite <- in_stored_metadata. split; intros Hin.
  - apply (Permutation_in _ Hp). exact Hin.
  - apply (Permutation_in _ (Permutation_sym Hp)). exact Hin.
Qed.

(** X4. When the [updated_at] of every stored conversation is a valid
    date, a listing that succeeds is ordered by [updated_at], newest
    first: no record is older than a record after it. *)
Theorem listing_is_newest_first w listed w' :
  (forall name c, files w !! name = Some (Json c) ->
                  getTime (updated_at c) <> None) ->
  Store.listConversations getTime w = (Ok listed, w') ->
  newest_first getTime listed.
Proof.
  intros Hvalid. rewrite store_listConversations_cases.
  destruct (fault w (ticks w)); [discriminate|].
  destruct (fault w (S (ticks w))); [discriminate|].
  intros H. injection H as <- _.
  apply sort_by_updated_newest_first. apply List.Forall_forall.
  intros md Hin. apply in_stored_metadata in Hin.
  destruct Hin as (name & c & Hf & _ & ->). exact (Hvalid name c Hf).
Qed.

End ListingOrder.

Section ListingOrderInstances.

(** Instance: the three conversations of three consecutive days, among an
    entry that does not parse and an entry that is no [.json] file. *)
Lemma listing_is_what_is_stored_witness :
  let dir := <["notes.txt" := Json (stored_at "9" "2024-01-09T00:00:00.000Z")]>
               (<["4.json" := Unparseable "Unexpected end of JSON input"]>
                  three_days) in
  exists listed w',
    Store.listConversations Iso.getTime (quiet dir) = (Ok listed, w')
    /\ Permutation listed
         [Store.metadata_of (stored_at "1" "2024-01-01T00:00:00.000Z");
          Store.metadata_of (stored_at "2" "2024-01-02T00:00:00.000Z");
          Store.metadata_of (stored_at "3" "2024-01-03T00:00:00.000Z")].
Proof.
  intros dir. eexists _, _. split; [vm_compute; reflexivity|].
  match goal with
  | |- Permutation ?l _ =>
      destruct (listing_is_what_is_stored Iso.getTime (quiet dir) l
                  (set_ticks 2 (quiet dir))) as (Hp & _ & _);
        [vm_compute; reflexivity|]
  end.
  rewrite Hp. vm_compute.
  repeat first [apply Permutation_refl | apply perm_skip | apply perm_swap
               | eapply perm_trans; [apply perm_swap|]].
Defined.

(** Instance: the same three conversations come newest first. *)
Lemma listing_is_newest_first_witness :
  exists listed w',
    Store.listConversations Iso.getTime (quiet three_days) = (Ok listed, w')
    /\ newest_first Iso.getTime listed.
Proof.
  eexists _, _. split; [vm_compute; reflexivity|].
  eapply (listing_is_newest_first Iso.getTime (quiet three_days));
    [|vm_compute; reflexivity].
  intros name c H. cbn [files quiet started] in H. unfold three_days in H.
  apply lookup_insert_Some in H. destruct H as [[_ H]|[_ H]].
  { inversion H; subst c. vm_compute. discriminate. }
  apply lookup_insert_Some in H. destruct H as [[_ H]|[_ H]].
  { inversion H; subst c. vm_compute. discriminate. }
  apply lookup_singleton_Some in H. destruct H as [_ H].
  inversion H; subst c. vm_compute. discriminate.
Defined.

End ListingOrderInstances.

(* ===================================================================== *)
(** * Further properties of the list_conversations tool *)
(* ===================================================================== *)

Section ListingTool.

Variable getTime : string -> option Z.

Lemma list_conversations_execute_eq args w :
  Tools.list_conversations_execute getTime args w
  = match Store.listConversations getTime w with
    | (Ok all, w') =>
        (Ok (firstn (nullish (list_limit args) (length (filtered getTime (list_filter args) all)))
                    (skipn (nullish (list_offset args) 0%nat) (filtered getTime (list_filter args) all))),
         w')
    | (Throw e, w') =>
        (Throw (Error ("Failed to list conversations ListConversations: "
                       ++ "Failed to list conversations: " ++ message e)), w')
    end.
Proof.
  unfold Tools.list_conversations_execute, try_catch. rewrite bind_eq.
  unfold Manager.listConversations, try_catch.
  destruct (Store.listConversations getTime w) as [[all|e] w']; [|reflexivity].
  unfold ret, Tools.slice, filtered.
  replace (nullish (list_offset args) 0 + _ - nullish (list_offset args) 0)%nat
    with (nullish (list_limit args)
            (length match list_filter args with
                    | Some filter => Tools.apply_filter getTime filter all
                    | None => all
                    end)) by lia.
  reflexivity.
Qed.

Lemma list_conversations_eq args w :
  list_limit args <> Some 0%nat ->
  Tools.list_conversations getTime args w
  = Tools.list_conversations_execute getTime args w.
Proof.
  intros H. unfold Tools.list_conversations, Tools.with_schema,
    Tools.listConversationsSchema.
  destruct (list_limit args) as [[|n]|]; [congruence|reflexivity|reflexivity].
Qed.

(** The answer of a list call that succeeds, from the directory. *)
Lemma list_conversations_answer args w listed :
  fst (Tools.list_conversations getTime args w) = Ok listed ->
  let all := filtered getTime (list_filter args)
               (Store.sort_by_updated getTime (stored_metadata (files w))) in
  listed = firstn (nullish (list_limit args) (length all))
                  (skipn (nullish (list_offset args) 0%nat) all).
Proof.
  destruct (decide (list_limit args = Some 0%nat)) as [E|E].
  { unfold Tools.list_conversations, Tools.with_schema,
      Tools.listConversationsSchema. rewrite E. discriminate. }
  rewrite (list_conversations_eq args w E), list_conversations_execute_eq,
    store_listConversations_cases.
  destruct (fault w (ticks w)); [discriminate|].
  destruct (fault w (S (ticks w))); [discriminate|].
  cbn [fst]. intros H. injection H as <-. reflexivity.
Qed.

(** X5. A list call with a limit and an offset returns the window of
    that many conversations, starting after [offset] of them, of what the
    same call returns without limit and offset on the same directory:
    at most [limit] conversations, none when the offset is beyond the
    end. *)
Theorem page_is_a_window_of_the_listing filter limit offset w w' all page :
  files w' = files w ->
  fst (Tools.list_conversations getTime (listing_of filter None None) w)
  = Ok all ->
  fst (Tools.list_conversations getTime
         (listing_of filter (Some limit) (Some offset)) w') = Ok page ->
  page = firstn limit (skipn offset all)
  /\ (length page <= limit)%nat
  /\ (length all <= offset -> page = [])%nat.
Proof.
  intros Hf Hall Hpage.
  apply list_conversations_answer in Hall, Hpage. cbv zeta in Hall, Hpage.
  unfold filtered, listing_of in Hall, Hpage.
  cbn [list_filter list_limit list_offset nullish] in Hall, Hpage.
  rewrite Hf in Hpage. rewrite skipn_O, firstn_all in Hall.
  rewrite <- Hall in Hpage. subst page.
  split; [reflexivity|]. split.
  - apply firstn_le_length.
  - intros Hlen. rewrite skipn_all2 by exact Hlen. apply firstn_nil.
Qed.

Lemma window_app {A} (l : list A) a b o :
  firstn (a + b) (skipn o l)
  = (firstn a (skipn o l) ++ firstn b (skipn (o + a) l))%list.
Proof.
  rewrite (Nat.add_comm o a), <- skipn_skipn.
  generalize (skipn o l) as m. clear. induction a as [|a IH]; intros m.
  - reflexivity.
  - destruct m as [|x m]; cbn [Nat.add firstn skipn app].
    + rewrite !firstn_nil. reflexivity.
    + rewrite IH. reflexivity.
Qed.

(** X6. On an unchanged directory two consecutive pages, put one after
    the other, are the page of both sizes together: walking the pages
    neither skips nor repeats a conversation. *)
Theorem consecutive_pages_tile filter limit1 limit2 offset w1 w2 w3 p1 p2 p12 :
  files w2 = files w1 -> files w3 = files w1 ->
  fst (Tools.list_conversations getTime
         (listing_of filter (Some limit1) (Some offset)) w1) = Ok p1 ->
  fst (Tools.list_conversations getTime
         (listing_of filter (Some limit2) (Some (offset + limit1))) w2) = Ok p2 ->
  fst (Tools.list_conversations getTime
         (listing_of filter (Some (limit1 + limit2)) (Some offset)) w3) = Ok p12 ->
  p12 = (p1 ++ p2)%list.
Proof.
  intros Hf2 Hf3 H1 H2 H12.
  apply list_conversations_answer in H1, H2, H12. cbv zeta in H1, H2, H12.
  unfold filtered, listing_of in H1, H2, H12.
  cbn [list_filter list_limit list_offset nullish] in H1, H2, H12.
  rewrite Hf2 in H2. rewrite Hf3 in H12.
  set (all := match filter with
              | Some f => Tools.apply_filter getTime f _
              | None => _
              end) in *.
  subst p1 p2 p12. apply window_app.
Qed.

Lemma has_some_tag_spec wanted conv :
  Tools.has_some_tag wanted conv = true <-> shares_tag wanted conv.
Proof.
  unfold Tools.has_some_tag, shares_tag.
  destruct (meta_metadata conv) as [md|].
  2:{ split; [discriminate|]. intros (md & ts & tag & H & _). discriminate. }
  destruct (tags md) as [ts|] eqn:Ets.
  2:{ split; [discriminate|]. intros (md' & ts & tag & H & Ht & _).
      injection H as <-. congruence. }
  rewrite existsb_exists. split.
  - intros (tag & Hin & Hw). apply existsb_exists in Hw.
    destruct Hw as (tag' & Hin' & E). apply String.eqb_eq in E. subst tag'.
    exists md, ts, tag. repeat split; assumption.
  - intros (md' & ts' & tag & H & Ht & Hin & Hw).
    injection H as <-. rewrite Ets in Ht. injection Ht as <-.
    exists tag. split; [exact Hin|]. apply existsb_exists.
    exists tag. split; [exact Hw|]. apply String.eqb_refl.
Qed.

Lemma filter_sublist {A} (f : A -> bool) l : sublist (List.filter f l) l.
Proof.
  induction l as [|x l IH]; cbn [List.filter]; [constructor|].
  destruct (f x); [apply sublist_skip|apply sublist_cons]; exact IH.
Qed.

(** X7. A list call that filters on tags returns, in the order of the
    unfiltered listing, exactly the conversations that carry at least one
    of the wanted tags; a conversation without metadata or without tags is
    never returned, and an empty list of wanted tags returns nothing. *)
Theorem tag_filter_keeps_the_tagged wanted w w' all listed :
  files w' = files w ->
  fst (Tools.list_conversations getTime (listing_of None None None) w)
  = Ok all ->
  fst (Tools.list_conversations getTime
         (listing_of (Some {| filter_tags := Some wanted;
                              created_after := None;
                              created_before := None |}) None None) w')
  = Ok listed ->
  (forall conv, In conv listed <-> In conv all /\ shares_tag wanted conv)
  /\ sublist listed all
  /\ (wanted = [] -> listed = []).
Proof.
  intros Hf Hall Hl.
  apply list_conversations_answer in Hall, Hl. cbv zeta in Hall, Hl.
  unfold filtered, listing_of, Tools.apply_filter in Hall, Hl.
  cbn [list_filter list_limit list_offset nullish filter_tags created_after
       created_before truthy] in Hall, Hl.
  rewrite Hf in Hl. rewrite skipn_O, firstn_all in Hall, Hl.
  rewrite <- Hall in Hl. subst listed.
  split; [|split].
  - intros conv. rewrite filter_In, has_some_tag_spec. tauto.
  - apply filter_sublist.
  - intros ->. clear. induction all as [|x l IH]; [reflexivity|].
    cbn [List.filter]. unfold Tools.has_some_tag at 1.
    destruct (meta_metadata x) as [md|]; [|exact IH].
    destruct (tags md) as [ts|]; [|exact IH].
    replace (existsb _ ts) with false; [exact IH|].
    clear. induction ts as [|t ts IH]; [reflexivity|]. cbn. exact IH.
Qed.

(** X8. A date bound of the filter that is not empty and is not a valid
    date hides every conversation: the call succeeds with an empty
    list, whatever the other criteria, the limit and the offset. *)
Theorem unreadable_date_bound_hides_everything args filter bound w listed :
  list_filter args = Some filter ->
  created_after filter = Some bound \/ created_before filter = Some bound ->
  bound <> "" -> getTime bound = None ->
  fst (Tools.list_conversations getTime args w) = Ok listed ->
  listed = [].
Proof.
  intros Hfilter Hbound Hne Hnan Hl.
  apply list_conversations_answer in Hl. cbv zeta in Hl.
  unfold filtered in Hl. rewrite Hfilter in Hl.
  assert (forall l, Tools.apply_filter getTime filter l = []) as Hempty.
  { intros l. unfold Tools.apply_filter.
    assert (truthy (Some bound) = true) as Ht
      by (destruct bound; [congruence|reflexivity]).
    assert (forall (g : ConversationMetadata -> bool) l,
               (forall x, g x = false) -> List.filter g l = []) as Hnone.
    { intros g l0 Hg. induction l0 as [|x l0 IH]; [reflexivity|].
      cbn [List.filter]. rewrite Hg. exact IH. }
    destruct Hbound as [Ha|Hb].
    - rewrite Ha, Ht. cbn [nullish]. rewrite Hnan.
      rewrite (Hnone (fun conv =>
                        Tools.time_ge (getTime (meta_created_at conv)) None)).
      2:{ intros x. unfold Tools.time_ge.
          destruct (getTime (meta_created_at x)); reflexivity. }
      destruct (truthy (created_before filter)); reflexivity.
    - rewrite Hb, Ht. cbn [nullish]. rewrite Hnan.
      apply Hnone. intros x. reflexivity. }
  rewrite Hempty in Hl. rewrite skipn_nil, firstn_nil in Hl. exact Hl.
Qed.

(** X9. When the storage directory cannot be created or cannot be
    read, a list call fails, whatever filter and page it asks for: with
    a plain Error whose message repeats the prefix of the tool, of the
    manager and of the store in front of the message of the file
    system. Nothing but the count of the calls to the environment has
    changed then. *)
Theorem list_tool_fails_with_the_directory args w :
  list_limit args <> Some 0%nat ->
  (forall m,
      fault w (ticks w) = Some m ->
      Tools.list_conversations getTime args w
      = (Throw (Error ("Failed to list conversations ListConversations: "
                       ++ "Failed to list conversations: "
                       ++ "Failed to list conversations: "
                       ++ "Failed to create conversations directory: " ++ m)),
         set_ticks (S (ticks w)) w))
  /\ (forall m,
        fault w (ticks w) = None -> fault w (S (ticks w)) = Some m ->
        Tools.list_conversations getTime args w
        = (Throw (Error ("Failed to list conversations ListConversations: "
                         ++ "Failed to list conversations: "
                         ++ "Failed to list conversations: " ++ m)),
           set_ticks (S (S (ticks w))) w)).
Proof.
  intros Hlimit.
  rewrite (list_conversations_eq args w Hlimit), list_conversations_execute_eq,
    store_listConversations_cases.
  split.
  - intros m ->. reflexivity.
  - intros m -> ->. reflexivity.
Qed.

End ListingTool.

Section ListingToolInstances.

(** Instance: the second and third of three conversations. *)
Lemma page_is_a_window_of_the_listing_witness :
  exists all page,
    fst (Tools.list_conversations Iso.getTime (listing_of None None None)
           (quiet three_days)) = Ok all
    /\ fst (Tools.list_conversations Iso.getTime
              (listing_of None (Some 2%nat) (Some 1%nat)) (quiet three_days))
       = Ok page
    /\ page = [Store.metadata_of (stored_at "2" "2024-01-02T00:00:00.000Z");
               Store.metadata_of (stored_at "1" "2024-01-01T00:00:00.000Z")]
    /\ page = firstn 2 (skipn 1 all).
Proof.
  eexists _, _. split; [vm_compute; reflexivity|].
  split; [vm_compute; reflexivity|]. split; [reflexivity|].
  eapply (page_is_a_window_of_the_listing Iso.getTime None 2 1
            (quiet three_days) (quiet three_days));
    [reflexivity|vm_compute; reflexivity|vm_compute; reflexivity].
Defined.

(** Instance: pages of one and of two conversations, from the start. *)
Lemma consecutive_pages_tile_witness :
  exists p1 p2,
    fst (Tools.list_conversations Iso.getTime
           (listing_of None (Some 1%nat) (Some 0%nat)) (quiet three_days))
    = Ok p1
    /\ fst (Tools.list_conversations Iso.getTime
              (listing_of None (Some 2%nat) (Some 1%nat)) (quiet three_days))
       = Ok p2
    /\ fst (Tools.list_conversations Iso.getTime
              (listing_of None (Some 3%nat) (Some 0%nat)) (quiet three_days))
       = Ok (p1 ++ p2)%list.
Proof.
  eexists _, _. split; [vm_compute; reflexivity|].
  split; [vm_compute; reflexivity|].
  match goal with
  | |- fst ?call = Ok (?p1 ++ ?p2)%list =>
      destruct (fst call) as [p12|e] eqn:E; [|vm_compute in E; discriminate];
      f_equal;
      apply (consecutive_pages_tile Iso.getTime None 1 2 0
               (quiet three_days) (quiet three_days) (quiet three_days)
               p1 p2 p12);
      [reflexivity|reflexivity|vm_compute; reflexivity|vm_compute; reflexivity
      |exact E]
  end.
Defined.

(** Instance: of two tagged conversations and one without metadata, the
    tag "home" selects the second. *)
Lemma tag_filter_keeps_the_tagged_witness :
  exists all listed,
    fst (Tools.list_conversations Iso.getTime (listing_of None None None)
           (quiet tagged_store)) = Ok all
    /\ fst (Tools.list_conversations Iso.getTime
              (listing_of (Some {| filter_tags := Some ["home"; "garden"];
                                   created_after := None;
                                   created_before := None |}) None None)
              (quiet tagged_store))
       = Ok listed
    /\ listed = [Store.metadata_of (tagged "2" "2024-01-02T00:00:00.000Z" ["home"])]
    /\ sublist listed all.
Proof.
  eexists _, _. split; [vm_compute; reflexivity|].
  split; [vm_compute; reflexivity|]. split; [reflexivity|].
  eapply (tag_filter_keeps_the_tagged Iso.getTime ["home"; "garden"]
            (quiet tagged_store) (quiet tagged_store));
    [reflexivity|vm_compute; reflexivity|vm_compute; reflexivity].
Defined.

(** Instance: the lower bound "yesterday" on the three conversations. *)
Lemma unreadable_date_bound_hides_everything_witness :
  fst (Tools.list_conversations Iso.getTime
         (listing_of (Some {| filter_tags := None;
                              created_after := Some "yesterday";
                              created_before := None |}) None None)
         (quiet three_days))
  = Ok [].
Proof.
  match goal with
  | |- fst ?call = _ =>
      destruct (fst call) as [listed|e] eqn:E; [|vm_compute in E; discriminate]
  end.
  f_equal.
  apply (unreadable_date_bound_hides_everything Iso.getTime
           (listing_of (Some {| filter_tags := None;
                                created_after := Some "yesterday";
                                created_before := None |}) None None)
           {| filter_tags := None; created_after := Some "yesterday";
              created_before := None |}
           "yesterday" (quiet three_days) listed);
    [reflexivity|left; reflexivity|discriminate|reflexivity|exact E].
Defined.

(** Instance: the directory cannot be read. *)
Lemma list_tool_fails_with_the_directory_witness :
  fst (Tools.list_conversations Iso.getTime (listing_of None None None)
         (failing_at 1 three_days))
  = Throw (Error ("Failed to list conversations ListConversations: "
                  ++ "Failed to list conversations: "
                  ++ "Failed to list conversations: " ++ "EIO: i/o error")).
Proof.
  destruct (list_tool_fails_with_the_directory Iso.getTime
              (listing_of None None None) (failing_at 1 three_days))
    as [_ H]; [discriminate|].
  rewrite (H "EIO: i/o error"); reflexivity.
Defined.

End ListingToolInstances.

(* ===================================================================== *)
(** * Further properties of the manager ([src/conversation.ts]) *)
(* ===================================================================== *)

Section ManagerFacts.

Lemma next_id_fresh files :
  (forall n, Alloc.counted files n -> (n < 2 ^ 53)%N) ->
  ~ In (Alloc.next_id files ++ ".json") files.
Proof.
  intros Hb Hin. destruct (next_id_spec files Hb) as (m & _ & Hmax & E).
  rewrite E in Hin. specialize (Hmax (m + 1)%N Hin). lia.
Qed.

(** The creation that succeeds, flattened. *)
Lemma createConversation_Ok k args w conv w' :
  Manager.createConversation k args w = (Ok conv, w') ->
  let i := Alloc.next_id (map fst (map_to_list (files w))) in
  let c := new_conversation k args i (clock w (ticks w)) in
  conv = next_ref w
  /\ heap w' = (fun r => if Nat.eqb r (next_ref w) then c else heap w r)
  /\ conversations w' = <[i := next_ref w]> (conversations w)
  /\ files w' = <[i ++ ".json" := Json (JSON.stringify c)]> (files w)
  /\ next_ref w' = S (next_ref w).
Proof.
  rewrite createConversation_eq. cbv zeta. rewrite getNextConversationId_eq.
  cbn [fault ticks set_ticks files].
  destruct (fault w (S (ticks w))); [discriminate|].
  destruct (fault w (S (S (ticks w)))); [discriminate|].
  rewrite writeConversation_eq.
  cbn [fault ticks loaded set_ticks set_conversations set_next_ref set_heap
       next_ref].
  destruct (fault w (S (S (S (ticks w))))); [discriminate|].
  destruct (fault w (S (S (S (S (ticks w)))))); [discriminate|].
  intros H. injection H as <- <-.
  set (i := Alloc.next_id _).
  cbn [written loaded heap conversations files next_ref set_trace set_files
       set_ticks set_conversations set_next_ref set_heap].
  rewrite Nat.eqb_refl. cbn [id new_conversation].
  repeat split; reflexivity.
Qed.

(** X10. When the numbers of the stored conversations are below 2^53, a
    creation that succeeds writes a file that did not exist before (the
    text of the new conversation), and changes no other file: no stored
    conversation is overwritten. *)
Theorem create_never_overwrites k args w conv w' :
  (forall n, Alloc.counted (map fst (map_to_list (files w))) n ->
             (n < 2 ^ 53)%N) ->
  Manager.createConversation k args w = (Ok conv, w') ->
  files w !! (id (heap w' conv) ++ ".json") = None
  /\ files w'
     = <[id (heap w' conv) ++ ".json"
         := Json (JSON.stringify (heap w' conv))]> (files w).
Proof.
  intros Hb H. apply createConversation_Ok in H. cbv zeta in H.
  destruct H as (-> & Hh & _ & Hf & _).
  rewrite Hh, Nat.eqb_refl. cbn [id new_conversation]. split; [|exact Hf].
  apply eq_None_not_Some. rewrite <- in_keys. apply next_id_fresh. exact Hb.
Qed.

(** X11. A conversation that has just been created is served by the
    manager as the very object that creation returned, with the metadata
    of the call. The store holds its text: a read returns the
    conversation with [null] in the place of every number that is not
    finite, and so does the object that a process loads which starts
    afterwards on the same directory. Both are the conversation as it
    was created exactly when the numbers of its metadata are finite. *)
Theorem create_then_get k args w conv w' :
  Manager.createConversation k args w = (Ok conv, w') ->
  Manager.getConversation (id (heap w' conv)) w' = (Ok conv, w')
  /\ metadata (heap w' conv) = arg_metadata args
  /\ Store.readConversation (id (heap w' conv)) w'
     = (Ok (JSON.stringify (heap w' conv)), w')
  /\ (forall clock fault,
        exists r w'',
          Manager.getConversation (id (heap w' conv))
            (started (files w') clock fault) = (Ok r, w'')
          /\ heap w'' r = JSON.stringify (heap w' conv))
  /\ (JSON.stringify (heap w' conv) = heap w' conv
      <-> JSON.finite (heap w' conv) = true).
Proof.
  intros H. apply createConversation_Ok in H. cbv zeta in H.
  destruct H as (-> & Hh & Hc & Hf & _).
  rewrite Hh, Nat.eqb_refl. cbn [id new_conversation].
  set (i := Alloc.next_id _) in *.
  change (new_conversation k args i (clock w (ticks w)))
    with {| id := i;
            model := model (new_conversation k args i (clock w (ticks w)));
            created_at := clock w (ticks w);
            updated_at := clock w (ticks w);
            parameters := parameters (new_conversation k args i (clock w (ticks w)));
            messages := messages (new_conversation k args i (clock w (ticks w)));
            metadata := arg_metadata args |} in *.
  set (c := Build_Conversation _ _ _ _ _ _ _) in *.
  split; [|split; [reflexivity|split; [|split; [|apply stringify_fixed]]]].
  - rewrite getConversation_eq, Hc, lookup_insert_eq. reflexivity.
  - rewrite readConversation_eq, Hf, lookup_insert_eq. reflexivity.
  - intros clock fault. rewrite getConversation_eq.
    cbn [conversations files started]. rewrite lookup_empty, Hf, lookup_insert_eq.
    eexists _, _. split; [reflexivity|].
    cbn [heap loaded set_conversations set_next_ref set_heap next_ref started].
    rewrite Nat.eqb_refl. reflexivity.
Qed.

(** X12. When the directory can be listed but the new file cannot be
    written, creation fails with ConversationCreateError, and yet the
    conversation stays in the cache: get_conversation with the ID that
    was allocated returns the conversation that was not stored. *)
Theorem failed_create_stays_cached k args w e w' :
  fault w (S (ticks w)) = None -> fault w (S (S (ticks w))) = None ->
  Manager.createConversation k args w = (Throw e, w') ->
  let i := Alloc.next_id (map fst (map_to_list (files w))) in
  (exists m, e = ConversationCreateError m)
  /\ Tools.get_conversation i w'
     = (Ok (new_conversation k args i (clock w (ticks w))), w').
Proof.
  intros F1 F2. rewrite createConversation_eq. cbv zeta.
  rewrite getNextConversationId_eq. cbn [fault ticks set_ticks files].
  rewrite F1, F2. rewrite writeConversation_eq.
  cbn [fault ticks loaded set_ticks set_conversations set_next_ref set_heap
       next_ref].
  set (i := Alloc.next_id _). set (c := new_conversation _ _ _ _).
  assert (forall n,
            Tools.get_conversation i
              (set_ticks n
                 (set_conversations (<[i := next_ref w]> (conversations w))
                    (set_next_ref (S (next_ref w))
                       (set_heap (fun r' => if Nat.eqb r' (next_ref w) then c
                                            else heap w r')
                          (set_ticks (S (S (S (ticks w)))) w)))))
            = (Ok c,
               set_ticks n
                 (set_conversations (<[i := next_ref w]> (conversations w))
                    (set_next_ref (S (next_ref w))
                       (set_heap (fun r' => if Nat.eqb r' (next_ref w) then c
                                            else heap w r')
                          (set_ticks (S (S (S (ticks w)))) w)))))) as Hget.
  { intros n. unfold Tools.get_conversation, try_catch. rewrite bind_eq.
    rewrite getConversation_eq. cbn [conversations set_ticks set_conversations].
    rewrite lookup_insert_eq. unfold deref.
    cbn [heap set_ticks set_conversations set_next_ref set_heap].
    rewrite Nat.eqb_refl. reflexivity. }
  destruct (fault w (S (S (S (ticks w))))) as [m|].
  { intros H. injection H as <- <-. split; [eexists; reflexivity|apply Hget]. }
  destruct (fault w (S (S (S (S (ticks w)))))) as [m|]; [|discriminate].
  intros H. injection H as <- <-. split; [eexists; reflexivity|apply Hget].
Qed.

(** The append that succeeds or fails, flattened: the state in which the
    write is attempted. *)
Lemma addMessage_after_get conversationId r text w conv w1 :
  Manager.getConversation conversationId w = (Ok conv, w1) ->
  let m := {| msg_role := r; content := text |} in
  let w2 := touched conv (pushed conv m w1) in
  Manager.addMessage conversationId r text w
  = match Store.writeConversation conv w2 with
    | (Ok _, w') => (Ok conv, w')
    | (Throw e, w') =>
        (Throw (ConversationStorageError
                  ("Failed to update conversation: " ++ message e)), w')
    end.
Proof.
  intros Hget. cbv zeta. rewrite addMessage_eq, Hget, updateConversation_eq.
  destruct (Store.writeConversation _ _) as [[[]|e] w']; reflexivity.
Qed.

Lemma getConversation_keeps conversationId w conv w1 :
  Manager.getConversation conversationId w = (Ok conv, w1) ->
  conversations w1 !! conversationId = Some conv
  /\ ticks w1 = ticks w /\ clock w1 = clock w /\ files w1 = files w.
Proof.
  rewrite getConversation_eq.
  destruct (conversations w !! conversationId) as [r|] eqn:E.
  { intros H. injection H as <- <-. repeat split; assumption. }
  destruct (files w !! (conversationId ++ ".json")) as [[m|c|m]|]; try discriminate.
  intros H. injection H as <- <-. cbn [loaded conversations set_conversations].
  rewrite lookup_insert_eq. repeat split; reflexivity.
Qed.

Lemma heap_touched_pushed conv m w1 r :
  heap (touched conv (pushed conv m w1)) r
  = if Nat.eqb r conv
    then with_updated_at (clock w1 (ticks w1)) (push_message m (heap w1 conv))
    else heap w1 r.
Proof.
  unfold touched, pushed. cbn [heap set_heap set_ticks set_conversations
    clock ticks]. rewrite Nat.eqb_refl.
  destruct (Nat.eqb r conv); reflexivity.
Qed.

Lemma lookup_touched_pushed key conv m w1 :
  conversations w1 !! key = Some conv ->
  conversations (touched conv (pushed conv m w1)) !! key = Some conv.
Proof.
  intros H. unfold touched. cbn [conversations set_conversations].
  rewrite lookup_insert. destruct (decide _); [reflexivity|exact H].
Qed.

(** The append that succeeds, flattened. *)
Lemma addMessage_Ok conversationId r text w conv w1 conv' w' :
  Manager.getConversation conversationId w = (Ok conv, w1) ->
  Manager.addMessage conversationId r text w = (Ok conv', w') ->
  conv' = conv
  /\ heap w' conv
     = with_updated_at (clock w (ticks w))
         (push_message {| msg_role := r; content := text |} (heap w1 conv))
  /\ (forall other, other <> conv -> heap w' other = heap w1 other)
  /\ files w' = <[id (heap w1 conv) ++ ".json"
                  := Json (JSON.stringify (heap w' conv))]> (files w)
  /\ conversations w' = <[id (heap w1 conv) := conv]> (conversations w1)
  /\ trace w'
     = (trace w1 ++ [Written (id (heap w1 conv) ++ ".json")
                             (JSON.stringify (heap w' conv))])%list.
Proof.
  intros Hget. rewrite (addMessage_after_get _ r text _ _ _ Hget). cbv zeta.
  destruct (getConversation_keeps _ _ _ _ Hget) as (_ & Ht & Hc & Hf).
  rewrite writeConversation_eq.
  set (m := {| msg_role := r; content := text |}).
  set (w2 := touched conv (pushed conv m w1)).
  assert (heap w2 conv
          = with_updated_at (clock w (ticks w)) (push_message m (heap w1 conv)))
    as Hh.
  { unfold w2. rewrite heap_touched_pushed, Nat.eqb_refl, Ht, Hc. reflexivity. }
  assert (id (heap w2 conv) = id (heap w1 conv)) as Hid
    by (rewrite Hh; reflexivity).
  assert (forall other, other <> conv -> heap w2 other = heap w1 other) as Ho.
  { intros other Hne. unfold w2. rewrite heap_touched_pushed.
    destruct (Nat.eqb_spec other conv); [contradiction|reflexivity]. }
  assert (files w2 = files w) as Hf2 by exact Hf.
  assert (conversations w2 = <[id (heap w1 conv) := conv]> (conversations w1))
    as Hc2.
  { unfold w2, touched, pushed.
    cbn [conversations heap set_conversations set_heap set_ticks
         id with_updated_at push_message].
    rewrite Nat.eqb_refl. reflexivity. }
  assert (trace w2 = trace w1) as Ht2 by reflexivity.
  clearbody w2.
  destruct (fault w2 (ticks w2)); [discriminate|].
  destruct (fault w2 (S (ticks w2))); [discriminate|].
  intros H. injection H as <- <-. split; [reflexivity|].
  cbn [written heap files conversations trace set_trace set_files set_ticks].
  rewrite Hid, Hf2, Ht2. repeat split; assumption.
Qed.

(** X13. An append that succeeds changes, in the conversation object,
    the messages (the new message is added at the end) and [updated_at]
    (the time of the call) and nothing else; it changes no other
    object, and it stores the text of the conversation under the ID that
    it carries. *)
Theorem append_changes_messages_and_updated_at
        conversationId r text w conv w1 conv' w' :
  Manager.getConversation conversationId w = (Ok conv, w1) ->
  Manager.addMessage conversationId r text w = (Ok conv', w') ->
  conv' = conv
  /\ heap w' conv
     = with_updated_at (clock w (ticks w))
         (push_message {| msg_role := r; content := text |} (heap w1 conv))
  /\ (forall other, other <> conv -> heap w' other = heap w1 other)
  /\ files w' = <[id (heap w1 conv) ++ ".json"
                  := Json (JSON.stringify (heap w' conv))]> (files w).
Proof.
  intros Hget Hadd.
  destruct (addMessage_Ok _ _ _ _ _ _ _ _ Hget Hadd) as (H1 & H2 & H3 & H4 & _).
  repeat split; assumption.
Qed.

(** X14. When storing an appended message fails, the append fails with
    ConversationStorageError, but the message stays in the conversation
    object that the manager serves; an append of the same message that
    succeeds afterwards stores the message twice. *)
Theorem failed_append_stays_in_memory conversationId r text w conv w1 e w' :
  Manager.getConversation conversationId w = (Ok conv, w1) ->
  Manager.addMessage conversationId r text w = (Throw e, w') ->
  let m := {| msg_role := r; content := text |} in
  (exists msg, e = ConversationStorageError msg)
  /\ Manager.getConversation conversationId w' = (Ok conv, w')
  /\ messages (heap w' conv) = (messages (heap w1 conv) ++ [m])%list
  /\ forall conv2 w2,
       Manager.addMessage conversationId r text w' = (Ok conv2, w2) ->
       messages (heap w2 conv2) = (messages (heap w1 conv) ++ [m; m])%list
       /\ exists name,
            files w2 !! name = Some (Json (JSON.stringify (heap w2 conv2))).
Proof.
  intros Hget Hadd. cbv zeta.
  set (m := {| msg_role := r; content := text |}).
  rewrite (addMessage_after_get _ r text _ _ _ Hget) in Hadd. cbv zeta in Hadd.
  fold m in Hadd.
  destruct (getConversation_keeps _ _ _ _ Hget) as (Hk & _).
  pose proof (lookup_touched_pushed conversationId conv m w1 Hk) as Hk2.
  pose proof (heap_touched_pushed conv m w1 conv) as Hh2.
  rewrite Nat.eqb_refl in Hh2.
  set (w2 := touched conv (pushed conv m w1)) in *.
  assert (conversations w' !! conversationId = Some conv
          /\ heap w' = heap w2
          /\ exists msg, e = ConversationStorageError msg) as (Hk' & Hh' & He).
  { rewrite writeConversation_eq in Hadd.
    destruct (fault w2 (ticks w2)).
    { injection Hadd as <- <-. split; [exact Hk2|]. split; [reflexivity|].
      eexists. reflexivity. }
    destruct (fault w2 (S (ticks w2))); [|discriminate].
    injection Hadd as <- <-. split; [exact Hk2|]. split; [reflexivity|].
    eexists. reflexivity. }
  assert (Manager.getConversation conversationId w' = (Ok conv, w')) as Hget'.
  { rewrite getConversation_eq, Hk'. reflexivity. }
  split; [exact He|]. split; [exact Hget'|].
  assert (messages (heap w' conv) = (messages (heap w1 conv) ++ [m])%list) as Hms.
  { rewrite Hh', Hh2. reflexivity. }
  split; [exact Hms|].
  intros conv2 w3 Hadd2.
  destruct (addMessage_Ok conversationId r text w' conv w' conv2 w3 Hget' Hadd2)
    as (-> & Hheap & _ & Hfiles & _).
  split.
  - rewrite Hheap. cbn [messages with_updated_at push_message]. rewrite Hms.
    rewrite <- app_assoc. reflexivity.
  - eexists. rewrite Hfiles. apply lookup_insert_eq.
Qed.

Lemma manager_deleteConversation_eq conversationId w :
  Manager.deleteConversation conversationId w
  = let w1 := set_conversations (delete conversationId (conversations w)) w in
    match files w !! (conversationId ++ ".json") with
    | None => (Ok false, w1)
    | Some _ =>
        match fault w (ticks w) with
        | Some _ => (Ok false, set_ticks (S (ticks w)) w1)
        | None =>
            (Ok true,
             set_trace (trace w ++ [Removed (conversationId ++ ".json")])
               (set_files (delete (conversationId ++ ".json") (files w))
                  (set_ticks (S (ticks w)) w1)))
        end
    end.
Proof.
  unfold Manager.deleteConversation, try_catch, bind, Manager.cache_delete, modify.
  rewrite store_deleteConversation_eq.
  cbn [files fault ticks trace set_conversations].
  destruct (files w !! (conversationId ++ ".json")); [|reflexivity].
  destruct (fault w (ticks w)); reflexivity.
Qed.

(** X15. Deleting through the manager always removes the conversation
    from the cache. When it returns [true] the file is gone and the
    manager no longer finds the conversation; when it returns [false]
    (no file, or the removal failed) the directory is as it was, so that
    a conversation whose file is still there is loaded again from the
    file by the next get. *)
Theorem delete_evicts_and_removes conversationId w b w' :
  Manager.deleteConversation conversationId w = (Ok b, w') ->
  conversations w' = delete conversationId (conversations w)
  /\ (b = true ->
        files w' = delete (conversationId ++ ".json") (files w)
        /\ Manager.getConversation conversationId w'
           = (Throw (ConversationNotFoundError conversationId), w'))
  /\ (b = false ->
        files w' = files w
        /\ forall c, files w !! (conversationId ++ ".json") = Some (Json c) ->
             exists r w'',
               Manager.getConversation conversationId w' = (Ok r, w'')
               /\ heap w'' r = c).
Proof.
  rewrite manager_deleteConversation_eq. cbv zeta.
  destruct (files w !! (conversationId ++ ".json")) as [f|] eqn:Ef.
  2:{ intros H. injection H as <- <-. split; [reflexivity|].
      split; [discriminate|]. intros _. split; [reflexivity|]. discriminate. }
  destruct (fault w (ticks w)) as [m|].
  - intros H. injection H as <- <-. split; [reflexivity|].
    split; [discriminate|]. intros _. split; [reflexivity|].
    intros c Hc. injection Hc as ->. rewrite getConversation_eq.
    cbn [conversations files set_ticks set_conversations].
    rewrite lookup_delete_eq, Ef. eexists _, _. split; [reflexivity|].
    cbn [heap loaded set_conversations set_next_ref set_heap next_ref set_ticks].
    rewrite Nat.eqb_refl. reflexivity.
  - intros H. injection H as <- <-. split; [reflexivity|].
    split; [|discriminate]. intros _. split; [reflexivity|].
    rewrite getConversation_eq.
    cbn [conversations files set_trace set_files set_ticks set_conversations].
    rewrite !lookup_delete_eq. reflexivity.
Qed.

Lemma numbered_after_delete n w w1 :
  numbered (S n) w ->
  files w1 = delete (Str.decimal (N.of_nat (S n)) ++ ".json") (files w) ->
  numbered n w1.
Proof.
  intros Hn Hf name. rewrite Hf.
  destruct (string_dec (Str.decimal (N.of_nat (S n)) ++ ".json") name) as [<-|Hne].
  - rewrite lookup_delete_eq. split.
    + intros [x Hx]. discriminate.
    + intros (i & Hi & E). apply json_name_inj, decimal_inj in E. lia.
  - rewrite lookup_delete_ne by exact Hne. rewrite (Hn name). split.
    + intros (i & Hi & E). exists i. split; [|exact E].
      destruct (Nat.eq_dec i (S n)) as [->|]; [congruence|lia].
    + intros (i & Hi & E). exists i. split; [lia|exact E].
Qed.

(** X16. IDs are reused: in a directory that holds the conversations
    1 ... n+1, once the conversation with the greatest ID has been
    deleted, the next creation that succeeds gets that ID again. *)
Theorem deleted_id_is_reused k args n w w1 i w2 :
  numbered (S n) w -> (N.of_nat (S n) < 2 ^ 53)%N ->
  Manager.deleteConversation (Str.decimal (N.of_nat (S n))) w = (Ok true, w1) ->
  create_id k args w1 = (Ok i, w2) ->
  i = Str.decimal (N.of_nat (S n)).
Proof.
  intros Hn Hb Hdel Hcreate.
  assert (files w1 = delete (Str.decimal (N.of_nat (S n)) ++ ".json") (files w))
    as Hf.
  { rewrite manager_deleteConversation_eq in Hdel. cbv zeta in Hdel.
    destruct (files w !! _); [|discriminate].
    destruct (fault w (ticks w)); [discriminate|].
    injection Hdel as <-. reflexivity. }
  pose proof (numbered_after_delete n w w1 Hn Hf) as Hn1.
  destruct (create_id_numbered k args n w1 i w2 Hn1) as [-> _];
    [lia|exact Hcreate|reflexivity].
Qed.

End ManagerFacts.

Section ManagerInstances.

Lemma numbered_three_days : numbered 3 (quiet three_days).
Proof.
  intros name. cbn [files quiet started]. unfold three_days. split.
  - intros [f H].
    apply lookup_insert_Some in H. destruct H as [[<- _]|[_ H]].
    { exists 1%nat. split; [lia|reflexivity]. }
    apply lookup_insert_Some in H. destruct H as [[<- _]|[_ H]].
    { exists 2%nat. split; [lia|reflexivity]. }
    apply lookup_singleton_Some in H. destruct H as [<- _].
    exists 3%nat. split; [lia|reflexivity].
  - intros (i & Hi & ->).
    assert (i = 1 \/ i = 2 \/ i = 3)%nat as H3 by lia.
    destruct H3 as [H3|[H3|H3]]; subst i; eexists; vm_compute; reflexivity.
Qed.

(** Instance: a creation on the store of three conversations. *)
Lemma create_never_overwrites_witness :
  exists conv w',
    Manager.createConversation unset_environment plain_args (quiet three_days)
    = (Ok conv, w')
    /\ id (heap w' conv) = "4"
    /\ three_days !! (id (heap w' conv) ++ ".json") = None.
Proof.
  eexists _, _. split; [vm_compute; reflexivity|]. split; [reflexivity|].
  eapply (create_never_overwrites unset_environment plain_args (quiet three_days));
    [|vm_compute; reflexivity].
  intros n Hn.
  pose proof (proj1 (counted_numbered 3 (quiet three_days) n numbered_three_days) Hn)
    as Hle.
  apply N.le_lt_trans with 3%N; [lia|vm_compute; reflexivity].
Defined.

(** Instance: a creation on an empty store with the metadata
    [{"score": 1e999}]: the manager serves Infinity, a process that
    starts afterwards loads [null]. *)
Lemma create_then_get_witness :
  exists conv w' r w'',
    Manager.createConversation unset_environment with_overflow (quiet ∅)
    = (Ok conv, w')
    /\ Manager.getConversation "1" w' = (Ok conv, w')
    /\ metadata (heap w' conv)
       = Some {| title := None; tags := None;
                 extra := [("score", JNumber (Infinite false))] |}
    /\ Manager.getConversation "1" (quiet (files w')) = (Ok r, w'')
    /\ metadata (heap w'' r)
       = Some {| title := None; tags := None; extra := [("score", JNull)] |}.
Proof.
  eexists _, _, _, _. split; [vm_compute; reflexivity|].
  match goal with
  | |- Manager.getConversation _ ?w' = (Ok ?conv, _) /\ _ =>
      destruct (create_then_get unset_environment with_overflow (quiet ∅) conv w')
        as (Hget & Hmd & _ & Hload & _); [vm_compute; reflexivity|]
  end.
  split; [exact Hget|]. split; [exact Hmd|].
  split; [vm_compute; reflexivity|]. reflexivity.
Defined.

(** Instance: on an empty store the write of the new file fails (the
    calls to the environment are: the clock, mkdir, readdir, mkdir,
    writeFile). *)
Lemma failed_create_stays_cached_witness :
  exists e w',
    Manager.createConversation unset_environment plain_args (failing_at 4 ∅)
    = (Throw e, w')
    /\ fst (Tools.get_conversation "1" w')
       = Ok (new_conversation unset_environment plain_args "1"
               "2024-01-01T00:00:00.000Z")
    /\ files w' !! "1.json" = None.
Proof.
  eexists _, _. split; [vm_compute; reflexivity|]. split; [|reflexivity].
  match goal with
  | |- fst (Tools.get_conversation _ ?w') = _ =>
      destruct (failed_create_stays_cached unset_environment plain_args
                  (failing_at 4 ∅)
                  (ConversationCreateError
                     "Failed to create conversation: Failed to write conversation: EIO: i/o error")
                  w') as [_ Hg];
        [reflexivity|reflexivity|vm_compute; reflexivity
        |exact (f_equal fst Hg)]
  end.
Defined.

(** Instance: a first user message for the stored conversation 1. *)
Lemma append_changes_messages_and_updated_at_witness :
  let w := quiet {["1.json" := Json tuned]} in
  exists conv w1 w',
    Manager.getConversation "1" w = (Ok conv, w1)
    /\ Manager.addMessage "1" user "hi" w = (Ok conv, w')
    /\ heap w' conv
       = with_updated_at "2024-01-01T00:00:00.000Z"
           (push_message {| msg_role := user; content := "hi" |} tuned).
Proof.
  intros w. eexists _, _, _. split; [vm_compute; reflexivity|].
  split; [vm_compute; reflexivity|].
  edestruct (append_changes_messages_and_updated_at "1" user "hi" w)
    as (_ & Hheap & _); [vm_compute; reflexivity|vm_compute; reflexivity|].
  exact Hheap.
Defined.

(** Instance: the write of the first append fails (the calls to the
    environment are: the clock, mkdir, writeFile), the second append
    succeeds. *)
Lemma failed_append_stays_in_memory_witness :
  let w := failing_at 2 {["1.json" := Json tuned]} in
  exists conv w1 e w' w2,
    Manager.getConversation "1" w = (Ok conv, w1)
    /\ Manager.addMessage "1" user "hi" w = (Throw e, w')
    /\ Manager.addMessage "1" user "hi" w' = (Ok conv, w2)
    /\ messages (heap w2 conv)
       = [ {| msg_role := system; content := "S" |};
           {| msg_role := user; content := "hi" |};
           {| msg_role := user; content := "hi" |} ].
Proof.
  intros w. eexists _, _, _, _, _. split; [vm_compute; reflexivity|].
  split; [vm_compute; reflexivity|]. split; [vm_compute; reflexivity|].
  match goal with
  | |- messages (heap ?w2 ?conv) = _ =>
      edestruct (failed_append_stays_in_memory "1" user "hi" w)
        as (_ & _ & _ & Hretry);
        [vm_compute; reflexivity|vm_compute; reflexivity|];
        destruct (Hretry conv w2) as [Hms _]; [vm_compute; reflexivity|];
        rewrite Hms
  end.
  reflexivity.
Defined.

(** Instance: the stored conversation 1 is deleted. *)
Lemma delete_evicts_and_removes_witness :
  let w := quiet {["1.json" := Json tuned]} in
  exists w',
    Manager.deleteConversation "1" w = (Ok true, w')
    /\ conversations w' = delete "1" (conversations w).
Proof.
  intros w. eexists. split; [vm_compute; reflexivity|].
  eapply (delete_evicts_and_removes "1" w true). vm_compute. reflexivity.
Defined.

(** Instance: conversation 3 of three is deleted, and a conversation is
    created. *)
Lemma deleted_id_is_reused_witness :
  exists w1 i w2,
    Manager.deleteConversation "3" (quiet three_days) = (Ok true, w1)
    /\ create_id unset_environment plain_args w1 = (Ok i, w2)
    /\ i = "3".
Proof.
  eexists _, _, _. split; [vm_compute; reflexivity|].
  split; [vm_compute; reflexivity|].
  eapply (deleted_id_is_reused unset_environment plain_args 2 (quiet three_days));
    [exact numbered_three_days|vm_compute; reflexivity|vm_compute; reflexivity
    |vm_compute; reflexivity].
Defined.

End ManagerInstances.

(* ===================================================================== *)
(** * Further properties of the tools *)
(* ===================================================================== *)

Section ToolErrors.

Lemma handleToolError_throws {A} context e custom w :
  exists e',
    @Tools.handleToolError A context e custom w = (Throw e', w)
    /\ surfaced e'.
Proof. destruct e; eexists; (split; [reflexivity|exact I]). Qed.

Lemma chat_failure_surfaced e : surfaced (chat_failure e).
Proof. destruct e; exact I. Qed.

Lemma chat_execute_failure openai args w e :
  failure_of (Tools.chat_execute openai args w) = Some e -> surfaced e.
Proof.
  unfold failure_of. rewrite chat_execute_unfold. cbv zeta.
  destruct (Manager.getConversation _ _) as [[conv|e1] w2]; cbn [fst].
  2:{ intros H. injection H as <-. apply chat_failure_surfaced. }
  destruct (Manager.addMessage _ user _ w2) as [[conv'|e1] w3]; cbn [fst].
  2:{ intros H. injection H as <-. apply chat_failure_surfaced. }
  destruct (openai _) as [e1|chunks [|e1]]; cbn [fst].
  1,3: intros H; injection H as <-; apply chat_failure_surfaced.
  destruct (Manager.addMessage _ assistant _ _) as [[conv''|e1] w7]; cbn [fst].
  - discriminate.
  - intros H. injection H as <-. apply chat_failure_surfaced.
Qed.

(** X17. Whatever goes wrong in a call of one of the five tools, the
    error that reaches the caller is a ConversationNotFoundError, a
    ChatTimeoutError or a plain Error, or the rejection of the arguments
    by the schema: the storage and creation error classes of the manager
    and an AbortError of the API client never leave a tool. *)
Theorem tools_surface_three_kinds k defaultModel o w e :
  failure k defaultModel o w = Some e ->
  surfaced e \/ exists m, e = InvalidParams m.
Proof.
  destruct o as [args|openai args|getTime args|i|i]; cbn [failure].
  - unfold Tools.create_conversation, Tools.with_schema.
    destruct (Tools.createConversationSchema k args) as [parsed|].
    2:{ intros H. injection H as <-. right. eexists. reflexivity. }
    unfold failure_of, Tools.create_conversation_execute, try_catch.
    rewrite bind_eq.
    destruct (Manager.createConversation _ _ w) as [[conv|e0] w']; [discriminate|].
    destruct (@handleToolError_throws string "CreateConversation" e0
                (Some "Failed to create conversation") w') as (e' & -> & He').
    cbn [fst]. intros H. injection H as <-. left. exact He'.
  - unfold Tools.chat, Tools.with_schema.
    destruct (Tools.chatSchema k args) as [parsed|].
    2:{ intros H. injection H as <-. right. eexists. reflexivity. }
    intros H. left. exact (chat_execute_failure _ _ _ _ H).
  - unfold Tools.list_conversations, Tools.with_schema.
    destruct (Tools.listConversationsSchema args) as [parsed|].
    2:{ intros H. injection H as <-. right. eexists. reflexivity. }
    unfold failure_of, Tools.list_conversations_execute, try_catch.
    rewrite bind_eq.
    destruct (Manager.listConversations getTime w) as [[l|e0] w']; [discriminate|].
    destruct (@handleToolError_throws (list ConversationMetadata)
                "ListConversations" e0
                (Some "Failed to list conversations") w') as (e' & -> & He').
    cbn [fst]. intros H. injection H as <-. left. exact He'.
  - unfold failure_of, Tools.get_conversation, try_catch. rewrite bind_eq.
    destruct (Manager.getConversation i w) as [[conv|e0] w']; [discriminate|].
    destruct (@handleToolError_throws Conversation "GetConversation" e0
                (Some "Failed to get conversation") w') as (e' & -> & He').
    cbn [fst]. intros H. injection H as <-. left. exact He'.
  - unfold failure_of, Tools.delete_conversation, try_catch. rewrite bind_eq.
    destruct (Manager.deleteConversation i w) as [[b|e0] w']; [discriminate|].
    destruct (@handleToolError_throws string "DeleteConversation" e0
                (Some "Failed to delete conversation") w') as (e' & -> & He').
    cbn [fst]. intros H. injection H as <-. left. exact He'.
Qed.

(** Instance: a creation whose directory cannot be made. *)
Lemma tools_surface_three_kinds_witness :
  exists e,
    failure unset_environment "m" (OpCreate plain_args) (failing_at 1 ∅) = Some e
    /\ (surfaced e \/ exists m, e = InvalidParams m).
Proof.
  eexists. split; [vm_compute; reflexivity|].
  apply (tools_surface_three_kinds unset_environment "m" (OpCreate plain_args)
           (failing_at 1 ∅)).
  vm_compute. reflexivity.
Defined.

(** X18. A creation through the tool that fails after its arguments
    were accepted raises a plain Error whose message names the tool and
    repeats the prefix of the manager: the ConversationCreateError of
    the manager is replaced. *)
Theorem create_tool_replaces_the_creation_error k defaultModel args w e :
  Tools.createConversationSchema k args <> None ->
  failure_of (Tools.create_conversation k defaultModel args w) = Some e ->
  exists m,
    e = Error ("Failed to create conversation CreateConversation: "
               ++ "Failed to create conversation: " ++ m).
Proof.
  intros Hs. unfold Tools.create_conversation, Tools.with_schema.
  destruct (Tools.createConversationSchema k args) as [parsed|]; [|congruence].
  unfold failure_of, Tools.create_conversation_execute, try_catch.
  rewrite bind_eq, createConversation_eq. cbv zeta.
  destruct (Store.getNextConversationId _) as [[i|e0] w2].
  2:{ cbn [fst Tools.handleToolError]. intros H. injection H as <-.
      eexists. reflexivity. }
  destruct (Store.writeConversation _ _) as [[[]|e0] w4]; [discriminate|].
  cbn [fst Tools.handleToolError]. intros H. injection H as <-.
  eexists. reflexivity.
Qed.

(** Instance: the same creation. *)
Lemma create_tool_replaces_the_creation_error_witness :
  failure_of (Tools.create_conversation unset_environment "m" plain_args
                (failing_at 1 ∅))
  = Some (Error ("Failed to create conversation CreateConversation: "
                 ++ "Failed to create conversation: "
                 ++ "Failed to get next conversation ID: "
                 ++ "Failed to create conversations directory: "
                 ++ "EIO: i/o error")).
Proof.
  destruct (create_tool_replaces_the_creation_error unset_environment "m"
              plain_args (failing_at 1 ∅)
              (Error ("Failed to create conversation CreateConversation: "
                      ++ "Failed to create conversation: "
                      ++ "Failed to get next conversation ID: "
                      ++ "Failed to create conversations directory: "
                      ++ "EIO: i/o error"))) as [m Hm];
    [discriminate|vm_compute; reflexivity|].
  vm_compute. reflexivity.
Defined.

(** X19. A chat call for an ID that is not in the cache and has no
    parseable file fails with ConversationNotFoundError carrying that
    ID. Apart from the first progress report nothing happens: no request
    is sent, no file is written, no object is created. *)
Theorem chat_on_a_missing_conversation openai args w :
  conversations w !! conversation_id args = None ->
  absent_or_malformed w (conversation_id args) ->
  Tools.chat_execute openai args w
  = (Throw (ConversationNotFoundError (conversation_id args)),
     set_trace (trace w ++ [Progress 0 100]) w).
Proof.
  intros Hc Hf. rewrite chat_execute_unfold. cbv zeta.
  rewrite getConversation_eq. cbn [conversations files set_trace].
  rewrite Hc. destruct Hf as [->|[m ->]]; reflexivity.
Qed.

(** Instance: a chat on an empty store. *)
Lemma chat_on_a_missing_conversation_witness :
  fst (Tools.chat_execute says_hello
         {| conversation_id := "7"; chat_message := "hi";
            chat_parameters := None |} (quiet ∅))
  = Throw (ConversationNotFoundError "7").
Proof.
  rewrite (chat_on_a_missing_conversation says_hello
             {| conversation_id := "7"; chat_message := "hi";
                chat_parameters := None |} (quiet ∅));
    [reflexivity|reflexivity|left; reflexivity].
Defined.

End ToolErrors.

(* ===================================================================== *)
(** * Conversations and their IDs *)
(* ===================================================================== *)

Section Coherence.

Lemma coherent_same w w' :
  heap w' = heap w -> conversations w' = conversations w ->
  files w' = files w -> next_ref w' = next_ref w ->
  coherent w -> coherent w'.
Proof.
  intros Hh Hc Hf Hn [H1 H2]. split.
  - intros key r. rewrite Hc, Hh, Hn. apply H1.
  - intros name c. rewrite Hf. apply H2.
Qed.

Lemma coherent_loaded key c w :
  id c = key -> coherent w -> coherent (loaded key c w).
Proof.
  intros Hid [H1 H2]. split; [|exact H2].
  intros k r. cbn [loaded conversations heap next_ref set_conversations
    set_next_ref set_heap].
  rewrite lookup_insert. destruct (decide (key = k)) as [<-|Hne].
  - intros H. injection H as <-. rewrite Nat.eqb_refl. split; [exact Hid|lia].
  - intros H. destruct (H1 k r H) as [Hk Hr].
    destruct (Nat.eqb_spec r (next_ref w)); [lia|]. split; [exact Hk|lia].
Qed.

Lemma coherent_pushed r m w : coherent w -> coherent (pushed r m w).
Proof.
  intros [H1 H2]. split; [|exact H2].
  intros k r'. cbn [pushed conversations heap next_ref set_heap].
  intros H. destruct (H1 k r' H) as [Hk Hr]. split; [|exact Hr].
  destruct (Nat.eqb_spec r' r) as [->|_]; exact Hk.
Qed.

Lemma coherent_touched r w :
  (r < next_ref w)%nat -> coherent w -> coherent (touched r w).
Proof.
  intros Hr [H1 H2]. split; [|exact H2].
  intros k r'. unfold touched.
  cbn [conversations heap next_ref set_conversations set_heap set_ticks
       id with_updated_at].
  rewrite lookup_insert. destruct (decide (id (heap w r) = k)) as [<-|Hne].
  - intros H. injection H as <-. rewrite Nat.eqb_refl. split; [reflexivity|exact Hr].
  - intros H. destruct (H1 k r' H) as [Hk Hr']. split; [|exact Hr'].
    destruct (Nat.eqb_spec r' r) as [->|_]; exact Hk.
Qed.

Lemma coherent_written r w :
  coherent w ->
  coherent (written (id (heap w r) ++ ".json") (JSON.stringify (heap w r)) w).
Proof.
  intros [H1 H2]. split; [exact H1|].
  intros name c. cbn [written files set_trace set_files set_ticks].
  rewrite lookup_insert. destruct (decide (id (heap w r) ++ ".json" = name)) as [<-|_].
  - intros H. injection H as <-. reflexivity.
  - apply H2.
Qed.

Lemma coherent_writeConversation r w :
  coherent w -> coherent (snd (Store.writeConversation r w)).
Proof.
  intros H. rewrite writeConversation_eq.
  destruct (fault w (ticks w)); [revert H; apply coherent_same; reflexivity|].
  destruct (fault w (S (ticks w))); [revert H; apply coherent_same; reflexivity|].
  apply coherent_written. exact H.
Qed.

Lemma coherent_getConversation conversationId w :
  coherent w -> coherent (snd (Manager.getConversation conversationId w)).
Proof.
  intros H. rewrite getConversation_eq.
  destruct (conversations w !! conversationId); [exact H|].
  destruct (files w !! (conversationId ++ ".json")) as [[m|c|m]|] eqn:E;
    try exact H.
  apply coherent_loaded; [|exact H].
  destruct H as [_ H2]. apply H2 in E. apply json_name_inj in E. congruence.
Qed.

(** The object that [getConversation] returns in a coherent state. *)
Lemma getConversation_coherent conversationId w conv w1 :
  coherent w ->
  Manager.getConversation conversationId w = (Ok conv, w1) ->
  coherent w1 /\ id (heap w1 conv) = conversationId
  /\ (conv < next_ref w1)%nat
  /\ Manager.getConversation conversationId w1 = (Ok conv, w1).
Proof.
  intros H Hget.
  pose proof (coherent_getConversation conversationId w H) as H1.
  rewrite Hget in H1. cbn [snd] in H1.
  destruct (getConversation_keeps _ _ _ _ Hget) as (Hk & _).
  destruct (proj1 H1 _ _ Hk) as [Hid Hr].
  split; [exact H1|]. split; [exact Hid|]. split; [exact Hr|].
  rewrite getConversation_eq, Hk. reflexivity.
Qed.

Lemma coherent_updateConversation r w :
  (r < next_ref w)%nat -> coherent w ->
  coherent (snd (Manager.updateConversation r w)).
Proof.
  intros Hr H. rewrite updateConversation_eq.
  pose proof (coherent_writeConversation r (touched r w)
                (coherent_touched r w Hr H)) as H'.
  destruct (Store.writeConversation r (touched r w)) as [[a|e] w']; exact H'.
Qed.

Lemma coherent_addMessage conversationId r text w :
  coherent w -> coherent (snd (Manager.addMessage conversationId r text w)).
Proof.
  intros H. rewrite addMessage_eq.
  destruct (Manager.getConversation conversationId w) as [[conv|e] w1] eqn:Hget.
  2:{ pose proof (coherent_getConversation conversationId w H) as H1.
      rewrite Hget in H1. exact H1. }
  destruct (getConversation_coherent _ _ _ _ H Hget) as (H1 & _ & Hr & _).
  pose proof (coherent_updateConversation conv
                (pushed conv {| msg_role := r; content := text |} w1) Hr
                (coherent_pushed _ _ _ H1)) as H2.
  destruct (Manager.updateConversation conv _) as [[a|e] w2]; exact H2.
Qed.

Lemma coherent_set_trace t w : coherent w -> coherent (set_trace t w).
Proof. apply coherent_same; reflexivity. Qed.

Lemma coherent_chat_execute openai args w :
  coherent w -> coherent (snd (Tools.chat_execute openai args w)).
Proof.
  intros H. rewrite chat_execute_unfold. cbv zeta.
  set (w1 := set_trace _ w).
  pose proof (coherent_getConversation (conversation_id args) w1
                (coherent_set_trace _ _ H)) as Hg.
  destruct (Manager.getConversation _ w1) as [[conv|e] w2]; [|exact Hg].
  cbn [snd] in Hg.
  pose proof (coherent_addMessage (id (heap w2 conv)) user (chat_message args)
                w2 Hg) as Ha.
  destruct (Manager.addMessage _ user _ w2) as [[conv'|e] w3]; [|exact Ha].
  cbn [snd] in Ha.
  destruct (openai _) as [e|chunks [|e]];
    try (apply coherent_set_trace; exact Ha).
  set (w6 := set_trace _ w3).
  pose proof (coherent_addMessage (id (heap w6 conv)) assistant
                (stream_text chunks) w6 (coherent_set_trace _ _ Ha)) as Ha'.
  destruct (Manager.addMessage _ assistant _ w6) as [[conv''|e] w7]; [|exact Ha'].
  apply coherent_set_trace. exact Ha'.
Qed.

Lemma coherent_createConversation k args w :
  coherent w -> coherent (snd (Manager.createConversation k args w)).
Proof.
  intros H. rewrite createConversation_eq. cbv zeta.
  rewrite getNextConversationId_eq. cbn [fault ticks set_ticks files].
  destruct (fault w (S (ticks w))); [revert H; apply coherent_same; reflexivity|].
  destruct (fault w (S (S (ticks w)))); [revert H; apply coherent_same; reflexivity|].
  set (w2 := set_ticks _ _). set (i := Alloc.next_id _).
  set (c := new_conversation _ _ _ _).
  assert (coherent (loaded i c w2)) as H3.
  { apply coherent_loaded; [reflexivity|]. revert H.
    apply coherent_same; reflexivity. }
  pose proof (coherent_writeConversation (next_ref w2) (loaded i c w2) H3) as H4.
  destruct (Store.writeConversation _ _) as [[a|e] w4]; exact H4.
Qed.

Lemma coherent_deleteConversation conversationId w :
  coherent w -> coherent (snd (Manager.deleteConversation conversationId w)).
Proof.
  intros [H1 H2]. rewrite manager_deleteConversation_eq. cbv zeta.
  assert (forall key r,
            delete conversationId (conversations w) !! key = Some r ->
            id (heap w r) = key /\ (r < next_ref w)%nat) as H1'.
  { intros key r H. apply lookup_delete_Some in H. apply H1, H. }
  destruct (files w !! (conversationId ++ ".json")); [|split; assumption].
  destruct (fault w (ticks w)); [split; assumption|].
  split; [exact H1'|].
  intros name c. cbn [snd files set_trace set_files]. intros H.
  apply lookup_delete_Some in H. apply H2, H.
Qed.

Lemma coherent_after_operation k defaultModel o w :
  coherent w -> coherent (after_operation k defaultModel o w).
Proof.
  intros H. destruct o as [args|openai args|getTime args|i|i];
    cbn [after_operation].
  - unfold Tools.create_conversation, Tools.with_schema.
    destruct (Tools.createConversationSchema k args) as [parsed|]; [|exact H].
    unfold Tools.create_conversation_execute, try_catch. rewrite bind_eq.
    pose proof (coherent_createConversation k
      {| arg_model := Some (or_else (arg_model parsed) defaultModel);
         arg_system_prompt := arg_system_prompt parsed;
         arg_parameters := arg_parameters parsed;
         arg_metadata := arg_metadata parsed |} w H) as H'.
    destruct (Manager.createConversation _ _ w) as [[conv|e] w'].
    + exact H'.
    + destruct e; exact H'.
  - unfold Tools.chat, Tools.with_schema.
    destruct (Tools.chatSchema k args) as [parsed|]; [|exact H].
    apply coherent_chat_execute. exact H.
  - unfold Tools.list_conversations, Tools.with_schema.
    destruct (Tools.listConversationsSchema args) as [parsed|]; [|exact H].
    rewrite list_conversations_execute_eq, store_listConversations_cases.
    destruct (fault w (ticks w)); [revert H; apply coherent_same; reflexivity|].
    destruct (fault w (S (ticks w))); revert H; apply coherent_same; reflexivity.
  - unfold Tools.get_conversation, try_catch. rewrite bind_eq.
    pose proof (coherent_getConversation i w H) as H'.
    destruct (Manager.getConversation i w) as [[conv|e] w'].
    + exact H'.
    + destruct e; exact H'.
  - unfold Tools.delete_conversation, try_catch. rewrite bind_eq.
    pose proof (coherent_deleteConversation i w H) as H'.
    destruct (Manager.deleteConversation i w) as [[b|e] w'].
    + exact H'.
    + destruct e; exact H'.
Qed.

Lemma coherent_after_operations k defaultModel os : forall w,
  coherent w -> coherent (after_operations k defaultModel os w).
Proof.
  induction os as [|o os IH]; intros w H; [exact H|].
  cbn [after_operations fold_left]. apply IH.
  apply coherent_after_operation. exact H.
Qed.

Lemma get_conversation_coherent i w c :
  coherent w -> fst (Tools.get_conversation i w) = Ok c -> id c = i.
Proof.
  intros H. unfold Tools.get_conversation, try_catch. rewrite bind_eq.
  destruct (Manager.getConversation i w) as [[conv|e] w'] eqn:Hget.
  - destruct (getConversation_coherent _ _ _ _ H Hget) as (_ & Hid & _).
    unfold deref. cbn [fst]. intros E. injection E as <-. exact Hid.
  - destruct e; discriminate.
Qed.

(** X20. A process is started on a directory in which every parseable
    file is named after the ID of the conversation it holds (as are the
    files that this program writes). Then, after any sequence of calls
    of the five tools with IDs that are file names (no path separator),
    every parseable file is still named after the ID it holds, and
    get_conversation called with such an ID returns, when it succeeds, a
    conversation that carries this ID. *)
Theorem every_conversation_keeps_its_id
        k defaultModel os dir clock fault :
  (forall name c, dir !! name = Some (Json c) -> name = id c ++ ".json") ->
  Forall names_a_file os ->
  let w := after_operations k defaultModel os (started dir clock fault) in
  (forall name c, files w !! name = Some (Json c) -> name = id c ++ ".json")
  /\ (forall i c,
        Str.is_file_name i = true ->
        fst (Tools.get_conversation i w) = Ok c -> id c = i).
Proof.
  intros Hdir _ w.
  assert (coherent w) as H.
  { apply coherent_after_operations. split; [|exact Hdir].
    intros key r. cbn [conversations started]. rewrite lookup_empty.
    discriminate. }
  split; [exact (proj2 H)|].
  intros i c _. apply get_conversation_coherent. exact H.
Qed.

End Coherence.

Section CoherenceInstances.

Lemma three_days_named name c :
  three_days !! name = Some (Json c) -> name = id c ++ ".json".
Proof.
  unfold three_days. intros H.
  apply lookup_insert_Some in H. destruct H as [[<- H]|[_ H]].
  { inversion H. reflexivity. }
  apply lookup_insert_Some in H. destruct H as [[<- H]|[_ H]].
  { inversion H. reflexivity. }
  apply lookup_singleton_Some in H. destruct H as [<- H].
  inversion H. reflexivity.
Qed.

(** Instance: on the store of three conversations, a creation, a chat
    turn, a deletion and a get, and then the conversation 4. *)
Lemma every_conversation_keeps_its_id_witness :
  let w := after_operations unset_environment "m"
             [OpCreate plain_args;
              OpChat says_hello {| conversation_id := "4"; chat_message := "hi";
                                   chat_parameters := None |};
              OpDelete "1"; OpGet "2"]
             (quiet three_days) in
  exists c, fst (Tools.get_conversation "4" w) = Ok c /\ id c = "4".
Proof.
  intros w.
  destruct (every_conversation_keeps_its_id unset_environment "m"
              [OpCreate plain_args;
               OpChat says_hello {| conversation_id := "4"; chat_message := "hi";
                                    chat_parameters := None |};
               OpDelete "1"; OpGet "2"]
              three_days (fun _ => "2024-01-01T00:00:00.000Z") (fun _ => None)
              three_days_named) as [_ H].
  { repeat constructor. }
  destruct (fst (Tools.get_conversation "4" w)) as [c|e] eqn:E;
    [|vm_compute in E; discriminate].
  exists c. split; [reflexivity|]. apply H; [reflexivity|exact E].
Defined.

End CoherenceInstances.

(* ===================================================================== *)
(** * A chat turn that succeeds *)
(* ===================================================================== *)

Section ChatRoundTrip.

Lemma getConversation_set_trace t conversationId w :
  Manager.getConversation conversationId (set_trace t w)
  = (fst (Manager.getConversation conversationId w),
     set_trace t (snd (Manager.getConversation conversationId w))).
Proof.
  rewrite !getConversation_eq. cbn [conversations files set_trace].
  destruct (conversations w !! conversationId); [reflexivity|].
  destruct (files w !! (conversationId ++ ".json")) as [[m|c|m]|]; reflexivity.
Qed.

Lemma requests_progress ps : requests (map (fun p => Progress p 100) ps) = [].
Proof. induction ps; cbn [map requests]; auto. Qed.

(** X21. A chat turn that succeeds on a conversation that carries the
    ID under which it is served sends one request, with the model of
    the conversation and with its whole history followed by the new user
    message. Afterwards get_conversation returns the conversation with
    exactly two more messages at the end, the user message and the
    answer, and with its ID, model, creation date, parameters and
    metadata unchanged; the file of the conversation holds the text of
    this record. *)
Theorem chat_extends_the_history openai args w c w0 text w' :
  Tools.get_conversation (conversation_id args) w = (Ok c, w0) ->
  id c = conversation_id args ->
  Tools.chat_execute openai args w = (Ok text, w') ->
  let said := {| msg_role := user; content := chat_message args |} in
  let answered := {| msg_role := assistant; content := text |} in
  exists c' rq delta,
    Tools.get_conversation (conversation_id args) w' = (Ok c', w')
    /\ messages c' = (messages c ++ [said; answered])%list
    /\ (id c' = id c /\ model c' = model c /\ created_at c' = created_at c
        /\ parameters c' = parameters c /\ metadata c' = metadata c)
    /\ files w' !! (conversation_id args ++ ".json")
       = Some (Json (JSON.stringify c'))
    /\ trace w' = (trace w ++ delta)%list
    /\ requests delta = [rq]
    /\ req_model rq = model c
    /\ req_messages rq = (messages c ++ [said])%list.
Proof.
  intros Hget Hid Hchat. cbv zeta.
  unfold Tools.get_conversation, try_catch in Hget. rewrite bind_eq in Hget.
  destruct (Manager.getConversation (conversation_id args) w)
    as [[conv|e] w0'] eqn:Hg; [|destruct e; discriminate].
  unfold deref in Hget. injection Hget as Hc Hw. subst w0' c.
  destruct (getConversation_keeps _ _ _ _ Hg) as (Hk & _).
  destruct (getConversation_cases (conversation_id args) w)
    as [Hnf|(conv0 & w00 & Hg0 & Htr0 & _)]; [congruence|].
  rewrite Hg in Hg0. injection Hg0 as <- <-.
  rewrite chat_execute_unfold in Hchat. cbv zeta in Hchat.
  rewrite getConversation_set_trace, Hg in Hchat. cbn [fst snd] in Hchat.
  set (w2 := set_trace (trace w ++ [Progress 0 100]) w0) in *.
  change (heap w2 conv) with (heap w0 conv) in Hchat. rewrite Hid in Hchat.
  assert (Manager.getConversation (conversation_id args) w2 = (Ok conv, w2))
    as Hg2.
  { rewrite getConversation_eq. change (conversations w2) with (conversations w0).
    rewrite Hk. reflexivity. }
  destruct (Manager.addMessage (conversation_id args) user (chat_message args) w2)
    as [[conv'|e] w3] eqn:Ha; [|discriminate].
  destruct (addMessage_Ok _ _ _ _ _ _ _ _ Hg2 Ha)
    as (-> & Hh3 & _ & Hf3 & Hc3 & Ht3).
  change (heap w2 conv) with (heap w0 conv) in Hh3, Hf3, Hc3, Ht3.
  set (said := {| msg_role := user; content := chat_message args |}) in *.
  set (rq := request_for _ (heap w3 conv)) in *.
  destruct (openai rq) as [e|chunks [|e]] eqn:Hrq; try discriminate.
  set (w6 := set_trace _ w3) in *.
  assert (id (heap w6 conv) = conversation_id args) as Hid6.
  { change (heap w6 conv) with (heap w3 conv). rewrite Hh3. exact Hid. }
  rewrite Hid6 in Hchat.
  assert (Manager.getConversation (conversation_id args) w6 = (Ok conv, w6))
    as Hg6.
  { rewrite getConversation_eq. change (conversations w6) with (conversations w3).
    rewrite Hc3, Hid, lookup_insert_eq. reflexivity. }
  destruct (Manager.addMessage (conversation_id args) assistant
              (stream_text chunks) w6) as [[conv''|e] w7] eqn:Ha';
    [|discriminate].
  destruct (addMessage_Ok _ _ _ _ _ _ _ _ Hg6 Ha')
    as (-> & Hh7 & _ & Hf7 & Hc7 & Ht7).
  injection Hchat as <- <-.
  change (heap w6 conv) with (heap w3 conv) in Hh7.
  rewrite Hid6 in Hf7, Hc7, Ht7.
  exists (heap w7 conv), rq.
  exists ([Progress 0 100;
           Written (id (heap w0 conv) ++ ".json") (JSON.stringify (heap w3 conv));
           Request rq]
          ++ map (fun p => Progress p 100) (reports (length chunks) 30)
          ++ [Progress 80 100;
              Written (conversation_id args ++ ".json")
                      (JSON.stringify (heap w7 conv));
              Progress 100 100])%list.
  split; [|split; [|split; [|split; [|split; [|split; [|split]]]]]].
  - unfold Tools.get_conversation, try_catch. rewrite bind_eq, getConversation_eq.
    cbn [conversations set_trace]. rewrite Hc7, lookup_insert_eq. reflexivity.
  - rewrite Hh7, Hh3. cbn [messages with_updated_at push_message].
    rewrite <- app_assoc. reflexivity.
  - rewrite Hh7, Hh3. repeat split; reflexivity.
  - cbn [files set_trace]. rewrite Hf7, lookup_insert_eq. reflexivity.
  - cbn [trace set_trace]. rewrite Ht7. unfold w6. cbn [trace set_trace].
    rewrite Ht3. unfold w2. cbn [trace set_trace].
    rewrite <- !app_assoc. reflexivity.
  - cbn [app requests]. rewrite requests_app, requests_progress. reflexivity.
  - unfold rq. cbn [req_model request_for]. rewrite Hh3. reflexivity.
  - unfold rq. cbn [req_messages request_for]. rewrite Hh3. reflexivity.
Qed.

(** Instance: one turn on the stored conversation 1. *)
Lemma chat_extends_the_history_witness :
  let w := quiet {["1.json" := Json tuned]} in
  let args := {| conversation_id := "1"; chat_message := "hi";
                 chat_parameters := None |} in
  exists w' c',
    Tools.chat_execute says_hello args w = (Ok "Hello", w')
    /\ Tools.get_conversation "1" w' = (Ok c', w')
    /\ messages c' = [ {| msg_role := system; content := "S" |};
                       {| msg_role := user; content := "hi" |};
                       {| msg_role := assistant; content := "Hello" |} ].
Proof.
  intros w args.
  destruct (Tools.chat_execute says_hello args w) as [[text|e] w'] eqn:Hchat;
    [|vm_compute in Hchat; discriminate].
  assert (text = "Hello") as ->
    by (vm_compute in Hchat; injection Hchat as <- _; reflexivity).
  destruct (chat_extends_the_history says_hello args w tuned
              (snd (Tools.get_conversation "1" w)) "Hello" w')
    as (c' & rq & delta & Hget' & Hms & _);
    [vm_compute; reflexivity|reflexivity|exact Hchat|].
  exists w', c'. split; [reflexivity|]. split; [exact Hget'|exact Hms].
Defined.

(** The append that fails on a conversation that is there. *)
Lemma addMessage_Throw conversationId r text w conv w1 e w' :
  Manager.getConversation conversationId w = (Ok conv, w1) ->
  Manager.addMessage conversationId r text w = (Throw e, w') ->
  conversations w' !! conversationId = Some conv
  /\ messages (heap w' conv)
     = (messages (heap w1 conv) ++ [ {| msg_role := r; content := text |} ])%list
  /\ trace w' = trace w1.
Proof.
  intros Hget Hadd.
  set (m := {| msg_role := r; content := text |}).
  rewrite (addMessage_after_get _ r text _ _ _ Hget) in Hadd. cbv zeta in Hadd.
  fold m in Hadd.
  destruct (getConversation_keeps _ _ _ _ Hget) as (Hk & _).
  pose proof (lookup_touched_pushed conversationId conv m w1 Hk) as Hk2.
  pose proof (heap_touched_pushed conv m w1 conv) as Hh2.
  rewrite Nat.eqb_refl in Hh2.
  assert (trace (touched conv (pushed conv m w1)) = trace w1) as Ht2
    by reflexivity.
  set (w2 := touched conv (pushed conv m w1)) in *.
  rewrite writeConversation_eq in Hadd.
  destruct (fault w2 (ticks w2)).
  { injection Hadd as _ <-. cbn [conversations heap trace set_ticks].
    rewrite Hh2. repeat split; assumption. }
  destruct (fault w2 (S (ticks w2))); [|discriminate].
  injection Hadd as _ <-. cbn [conversations heap trace set_ticks].
  rewrite Hh2. repeat split; assumption.
Qed.

(** X29. A chat turn on a conversation that carries the ID under which
    it is served, in which the API call does not end with a complete
    stream, fails; afterwards the history that get_conversation returns
    is the former history followed by the user message of the turn, and
    by nothing else: the unanswered message stays in the conversation,
    also when it was storing this message that failed. *)
Theorem failed_turn_keeps_the_user_message openai args w c w0 :
  Tools.get_conversation (conversation_id args) w = (Ok c, w0) ->
  id c = conversation_id args ->
  (forall rq chunks, openai rq <> Stream chunks EndOfStream) ->
  exists e w' c',
    Tools.chat_execute openai args w = (Throw e, w')
    /\ Tools.get_conversation (conversation_id args) w' = (Ok c', w')
    /\ messages c'
       = (messages c
          ++ [ {| msg_role := user; content := chat_message args |} ])%list.
Proof.
  intros Hget Hid Hapi.
  unfold Tools.get_conversation, try_catch in Hget. rewrite bind_eq in Hget.
  destruct (Manager.getConversation (conversation_id args) w)
    as [[conv|e] w0'] eqn:Hg; [|destruct e; discriminate].
  unfold deref in Hget. injection Hget as Hc Hw. subst w0' c.
  destruct (getConversation_keeps _ _ _ _ Hg) as (Hk & _).
  rewrite chat_execute_unfold. cbv zeta.
  rewrite getConversation_set_trace, Hg. cbn [fst snd].
  set (w2 := set_trace (trace w ++ [Progress 0 100]) w0).
  change (heap w2 conv) with (heap w0 conv). rewrite Hid.
  assert (Manager.getConversation (conversation_id args) w2 = (Ok conv, w2))
    as Hg2.
  { rewrite getConversation_eq. change (conversations w2) with (conversations w0).
    rewrite Hk. reflexivity. }
  assert (forall t w3,
            conversations w3 !! conversation_id args = Some conv ->
            Tools.get_conversation (conversation_id args) (set_trace t w3)
            = (Ok (heap w3 conv), set_trace t w3)) as Hserved.
  { intros t w3 Hk3. unfold Tools.get_conversation, try_catch.
    rewrite bind_eq, getConversation_eq. cbn [conversations set_trace].
    rewrite Hk3. reflexivity. }
  destruct (Manager.addMessage (conversation_id args) user (chat_message args) w2)
    as [[conv'|e] w3] eqn:Ha.
  - destruct (addMessage_Ok _ _ _ _ _ _ _ _ Hg2 Ha)
      as (-> & Hh3 & _ & _ & Hc3 & _).
    change (heap w2 conv) with (heap w0 conv) in Hh3, Hc3.
    assert (conversations w3 !! conversation_id args = Some conv) as Hk3
      by (rewrite Hc3, Hid; apply lookup_insert_eq).
    assert (messages (heap w3 conv)
            = (messages (heap w0 conv)
               ++ [ {| msg_role := user; content := chat_message args |} ])%list)
      as Hms by (rewrite Hh3; reflexivity).
    set (rq := request_for _ (heap w3 conv)).
    destruct (openai rq) as [e|chunks [|e]] eqn:Hrq.
    + eexists _, _, _. split; [reflexivity|].
      split; [apply Hserved; exact Hk3|exact Hms].
    + destruct (Hapi rq chunks Hrq).
    + eexists _, _, _. split; [reflexivity|].
      split; [apply Hserved; exact Hk3|exact Hms].
  - destruct (addMessage_Throw _ _ _ _ _ _ _ _ Hg2 Ha) as (Hk3 & Hms & Ht3).
    change (heap w2 conv) with (heap w0 conv) in Hms.
    eexists _, _, _. split; [reflexivity|].
    rewrite <- (set_trace_same w3) at 1 2.
    split; [apply Hserved; exact Hk3|exact Hms].
Qed.

(** Instance: the stream breaks off during a turn on the stored
    conversation 1. *)
Lemma failed_turn_keeps_the_user_message_witness :
  let w := quiet {["1.json" := Json tuned]} in
  let args := {| conversation_id := "1"; chat_message := "hi";
                 chat_parameters := None |} in
  exists e w' c',
    Tools.chat_execute breaks_off args w = (Throw e, w')
    /\ Tools.get_conversation "1" w' = (Ok c', w')
    /\ messages c' = [ {| msg_role := system; content := "S" |};
                       {| msg_role := user; content := "hi" |} ].
Proof.
  intros w args.
  apply (failed_turn_keeps_the_user_message breaks_off args w tuned
           (snd (Tools.get_conversation "1" w)));
    [vm_compute; reflexivity|reflexivity|discriminate].
Defined.

End ChatRoundTrip.

(* ===================================================================== *)
(** * What the create_conversation tool stores *)
(* ===================================================================== *)

Section CreatedRecord.

Lemma number_field_valid valid d x v :
  Tools.number_field valid d x = Some v -> valid v = true.
Proof.
  unfold Tools.number_field. destruct (valid (nullish x d)) eqn:E; [|discriminate].
  intros H. injection H as <-. exact E.
Qed.

(** The output of the creation schema: every parameter is defined, the
    value of the call or else the default of the schema, and within the
    bounds of the schema. *)
Lemma createConversationSchema_defined k args parsed :
  Tools.createConversationSchema k args = Some parsed ->
  let raw := nullish (arg_parameters args) no_parameters in
  let t := nullish (opt_temperature raw) (7 # 10) in
  let m := nullish (opt_max_tokens raw) 1000%Q in
  let tp := nullish (opt_top_p raw) 1%Q in
  let fp := nullish (opt_frequency_penalty raw) 0%Q in
  let pp := nullish (opt_presence_penalty raw) 0%Q in
  parsed
  = {| arg_model := arg_model args;
       arg_system_prompt :=
         Some (nullish (arg_system_prompt args) (DEFAULT_SYSTEM_PROMPT k));
       arg_parameters :=
         Some {| opt_temperature := Some t; opt_max_tokens := Some m;
                 opt_top_p := Some tp; opt_frequency_penalty := Some fp;
                 opt_presence_penalty := Some pp |};
       arg_metadata := Some (nullish (arg_metadata args) empty_metadata) |}
  /\ Tools.between 0 2 t = true
  /\ Tools.positive_int m = true
  /\ Tools.between 0 1 tp = true
  /\ Tools.between (-2) 2 fp = true
  /\ Tools.between (-2) 2 pp = true.
Proof.
  unfold Tools.createConversationSchema, Tools.parameters_schema. cbv zeta.
  set (raw := nullish (arg_parameters args) no_parameters).
  cbn [temperature max_tokens top_p frequency_penalty presence_penalty].
  destruct (Tools.number_field _ _ (opt_temperature raw)) as [t|] eqn:E1;
    [|discriminate].
  destruct (Tools.number_field _ _ (opt_max_tokens raw)) as [m|] eqn:E2;
    [|discriminate].
  destruct (Tools.number_field _ _ (opt_top_p raw)) as [tp|] eqn:E3;
    [|discriminate].
  destruct (Tools.number_field _ _ (opt_frequency_penalty raw)) as [fp|] eqn:E4;
    [|discriminate].
  destruct (Tools.number_field _ _ (opt_presence_penalty raw)) as [pp|] eqn:E5;
    [|discriminate].
  pose proof (number_field_valid _ _ _ _ E1) as V1.
  pose proof (number_field_valid _ _ _ _ E2) as V2.
  pose proof (number_field_valid _ _ _ _ E3) as V3.
  pose proof (number_field_valid _ _ _ _ E4) as V4.
  pose proof (number_field_valid _ _ _ _ E5) as V5.
  apply number_field_Some in E1, E2, E3, E4, E5. subst.
  intros H. injection H as <-. repeat split; assumption.
Qed.

Lemma append_same_prefix p a b : p ++ a = p ++ b -> a = b.
Proof.
  induction p as [|x p IH]; rewrite ?append_nil_l, ?append_cons; [tauto|].
  intros H. injection H as H. apply IH. exact H.
Qed.

Lemma or_else_not_empty s d : d <> "" -> or_else (Some (or_else s d)) "" <> "".
Proof.
  intros Hd. destruct s as [[|a s]|]; cbn [or_else].
  - destruct d; [congruence|discriminate].
  - discriminate.
  - destruct d; [congruence|discriminate].
Qed.

Lemma or_else_twice s d d' : d <> "" -> or_else (Some (or_else s d)) d' = or_else s d.
Proof.
  intros Hd. destruct s as [[|a s]|]; cbn [or_else].
  - destruct d; [congruence|reflexivity].
  - reflexivity.
  - destruct d; [congruence|reflexivity].
Qed.

(** The creation through the tool that succeeds, flattened. *)
Lemma create_conversation_Ok k defaultModel args text w w' :
  Tools.create_conversation k defaultModel args w = (Ok text, w') ->
  exists parsed conv,
    Tools.createConversationSchema k args = Some parsed
    /\ Manager.createConversation k
         {| arg_model := Some (or_else (arg_model parsed) defaultModel);
            arg_system_prompt := arg_system_prompt parsed;
            arg_parameters := arg_parameters parsed;
            arg_metadata := arg_metadata parsed |} w = (Ok conv, w')
    /\ text = "Conversation created: " ++ id (heap w' conv).
Proof.
  unfold Tools.create_conversation, Tools.with_schema.
  destruct (Tools.createConversationSchema k args) as [parsed|]; [|discriminate].
  unfold Tools.create_conversation_execute, try_catch. rewrite bind_eq.
  destruct (Manager.createConversation _ _ w) as [[conv|e] w1] eqn:E.
  - unfold bind, deref, ret. intros H. injection H as <- <-.
    exists parsed, conv. split; [reflexivity|]. split; [exact E|reflexivity].
  - destruct e; discriminate.
Qed.

(** The record of a creation through the tool that succeeds. *)
Lemma create_conversation_record k defaultModel args text w w' :
  Tools.create_conversation k defaultModel args w = (Ok text, w') ->
  let given := nullish (arg_parameters args) no_parameters in
  let prompt := nullish (arg_system_prompt args) (DEFAULT_SYSTEM_PROMPT k) in
  let t := nullish (opt_temperature given) (7 # 10) in
  let m := nullish (opt_max_tokens given) 1000%Q in
  let tp := nullish (opt_top_p given) 1%Q in
  let fp := nullish (opt_frequency_penalty given) 0%Q in
  let pp := nullish (opt_presence_penalty given) 0%Q in
  exists i c,
    text = "Conversation created: " ++ i
    /\ Tools.get_conversation i w' = (Ok c, w')
    /\ files w' !! (i ++ ".json") = Some (Json (JSON.stringify c))
    /\ c = {| id := i;
              model := or_else (Some (or_else (arg_model args) defaultModel))
                               (DEFAULT_MODEL k);
              created_at := clock w (ticks w);
              updated_at := clock w (ticks w);
              parameters :=
                {| temperature := t; max_tokens := m; top_p := tp;
                   frequency_penalty := fp; presence_penalty := pp |};
              messages :=
                match prompt with
                | "" => []
                | _ => [ {| msg_role := system; content := prompt |} ]
                end;
              metadata := Some (nullish (arg_metadata args) empty_metadata) |}
    /\ Tools.between 0 2 t = true
    /\ Tools.positive_int m = true
    /\ Tools.between 0 1 tp = true
    /\ Tools.between (-2) 2 fp = true
    /\ Tools.between (-2) 2 pp = true.
Proof.
  intros Hrun. cbv zeta.
  destruct (create_conversation_Ok _ _ _ _ _ _ Hrun)
    as (parsed & conv & Hs & Hcreate & ->).
  apply createConversationSchema_defined in Hs. cbv zeta in Hs.
  destruct Hs as (-> & V1 & V2 & V3 & V4 & V5).
  cbn [arg_model arg_system_prompt arg_parameters arg_metadata] in Hcreate.
  apply createConversation_Ok in Hcreate. cbv zeta in Hcreate.
  destruct Hcreate as (-> & Hh & Hc & Hf & _).
  set (i := Alloc.next_id _) in *.
  set (c := new_conversation _ _ _ _) in *.
  assert (heap w' (next_ref w) = c) as Hobj
    by (rewrite Hh, Nat.eqb_refl; reflexivity).
  exists i, c.
  split; [rewrite Hobj; reflexivity|]. split; [|split; [|split]].
  - unfold Tools.get_conversation, try_catch. rewrite bind_eq, getConversation_eq.
    rewrite Hc, lookup_insert_eq. unfold deref. rewrite Hobj. reflexivity.
  - rewrite Hf, lookup_insert_eq. reflexivity.
  - unfold c, new_conversation.
    cbn [arg_model arg_system_prompt arg_parameters arg_metadata nullish
         opt_temperature opt_max_tokens opt_top_p opt_frequency_penalty
         opt_presence_penalty].
    destruct (nullish (arg_system_prompt args) (DEFAULT_SYSTEM_PROMPT k));
      reflexivity.
  - repeat split; assumption.
Qed.

Lemma between_spec lo hi q : Tools.between lo hi q = true -> (lo <= q <= hi)%Q.
Proof.
  unfold Tools.between. intros H. apply andb_prop in H. destruct H as [H1 H2].
  apply Qle_bool_iff in H1, H2. split; assumption.
Qed.

Lemma positive_int_spec q :
  Tools.positive_int q = true -> exists n, (0 < n)%Z /\ (q == inject_Z n)%Q.
Proof.
  unfold Tools.positive_int. intros H. apply andb_prop in H.
  destruct H as [H1 H2]. apply Pos.eqb_eq in H1. apply Z.ltb_lt in H2.
  exists (Qnum (Qred q)).
  assert (Qred q = inject_Z (Qnum (Qred q))) as E.
  { unfold inject_Z. destruct (Qred q) as [n d]. cbn in H1. subst d. reflexivity. }
  assert (q == inject_Z (Qnum (Qred q)))%Q as Hq.
  { rewrite <- E. symmetry. apply Qred_correct. }
  split; [|exact Hq].
  assert (0 < q)%Q as Hpos.
  { unfold Qlt. cbn. lia. }
  rewrite Hq in Hpos. unfold Qlt, inject_Z in Hpos. cbn in Hpos. lia.
Qed.

(** X22. A creation through the tool that succeeds answers with the new
    ID, and serves, and stores the text of, a conversation with: that
    ID; the model of the call, or the model of the server when the call
    gives none or an empty one; the time of the call as creation and
    update date; for each sampling parameter the value of the call or
    else 0.7, 1000, 1, 0, 0 (the process-wide defaults play no part);
    the system prompt of the call, or the default prompt, as only
    message, or no message when the call gives the empty prompt; the
    metadata of the call, or empty metadata. *)
Theorem create_tool_stores_the_record k defaultModel args text w w' :
  defaultModel <> "" ->
  Tools.create_conversation k defaultModel args w = (Ok text, w') ->
  let given := nullish (arg_parameters args) no_parameters in
  let prompt := nullish (arg_system_prompt args) (DEFAULT_SYSTEM_PROMPT k) in
  exists i c,
    text = "Conversation created: " ++ i
    /\ Tools.get_conversation i w' = (Ok c, w')
    /\ files w' !! (i ++ ".json") = Some (Json (JSON.stringify c))
    /\ c = {| id := i;
              model := or_else (arg_model args) defaultModel;
              created_at := clock w (ticks w);
              updated_at := clock w (ticks w);
              parameters :=
                {| temperature := nullish (opt_temperature given) (7 # 10);
                   max_tokens := nullish (opt_max_tokens given) 1000%Q;
                   top_p := nullish (opt_top_p given) 1%Q;
                   frequency_penalty := nullish (opt_frequency_penalty given) 0%Q;
                   presence_penalty := nullish (opt_presence_penalty given) 0%Q |};
              messages :=
                match prompt with
                | "" => []
                | _ => [ {| msg_role := system; content := prompt |} ]
                end;
              metadata := Some (nullish (arg_metadata args) empty_metadata) |}.
Proof.
  intros Hd Hrun. cbv zeta.
  destruct (create_conversation_record _ _ _ _ _ _ Hrun)
    as (i & c & Ht & Hg & Hf & Hc & _).
  cbv zeta in Hc. rewrite (or_else_twice _ _ _ Hd) in Hc.
  exists i, c. repeat split; assumption.
Qed.

(** Instance: a creation with a model and a temperature on an empty
    store. *)
Lemma create_tool_stores_the_record_witness :
  let args := {| arg_model := Some "m"; arg_system_prompt := None;
                 arg_parameters :=
                   Some {| opt_temperature := Some 1%Q; opt_max_tokens := None;
                           opt_top_p := None; opt_frequency_penalty := None;
                           opt_presence_penalty := None |};
                 arg_metadata := None |} in
  exists w' c,
    Tools.create_conversation unset_environment "gpt-4o-mini" args (quiet ∅)
    = (Ok "Conversation created: 1", w')
    /\ files w' !! "1.json" = Some (Json (JSON.stringify c))
    /\ model c = "m"
    /\ parameters c
       = {| temperature := 1; max_tokens := 1000; top_p := 1;
            frequency_penalty := 0; presence_penalty := 0 |}
    /\ messages c = [ {| msg_role := system;
                         content := "You are a helpful assistant." |} ].
Proof.
  intros args.
  destruct (Tools.create_conversation unset_environment "gpt-4o-mini" args (quiet ∅))
    as [[text|e] w'] eqn:Hrun; [|vm_compute in Hrun; discriminate].
  destruct (create_tool_stores_the_record unset_environment "gpt-4o-mini" args
              text (quiet ∅) w') as (i & c & Ht & _ & Hf & Hc);
    [discriminate|exact Hrun|].
  assert (text = "Conversation created: 1") as Htext
    by (vm_compute in Hrun; injection Hrun as <- _; reflexivity).
  assert (i = "1") as ->.
  { rewrite Htext in Ht.
    change "Conversation created: 1" with ("Conversation created: " ++ "1") in Ht.
    apply append_same_prefix in Ht. congruence. }
  exists w', c. rewrite Htext. split; [reflexivity|]. split; [exact Hf|].
  rewrite Hc. repeat split; reflexivity.
Defined.

(** X23. The sampling parameters of a conversation created through the
    tool are within the bounds of the creation schema: temperature in
    [0, 2], max_tokens a positive integer, top_p in [0, 1], and both
    penalties in [-2, 2]. *)
Theorem created_parameters_are_within_bounds k defaultModel args text w w' :
  Tools.create_conversation k defaultModel args w = (Ok text, w') ->
  exists i c,
    text = "Conversation created: " ++ i
    /\ files w' !! (i ++ ".json") = Some (Json c)
    /\ (0 <= temperature (parameters c) <= 2)%Q
    /\ (exists n, (0 < n)%Z /\ (max_tokens (parameters c) == inject_Z n)%Q)
    /\ (0 <= top_p (parameters c) <= 1)%Q
    /\ (-2 <= frequency_penalty (parameters c) <= 2)%Q
    /\ (-2 <= presence_penalty (parameters c) <= 2)%Q.
Proof.
  intros Hrun.
  destruct (create_conversation_record _ _ _ _ _ _ Hrun)
    as (i & c & Ht & _ & Hf & Hc & V1 & V2 & V3 & V4 & V5).
  cbv zeta in Hc, V1, V2, V3, V4, V5.
  exists i, (JSON.stringify c). split; [exact Ht|]. split; [exact Hf|].
  rewrite Hc. cbn [parameters temperature max_tokens top_p frequency_penalty
                   presence_penalty JSON.stringify].
  split; [exact (between_spec _ _ _ V1)|].
  split; [exact (positive_int_spec _ V2)|].
  split; [exact (between_spec _ _ _ V3)|].
  split; [exact (between_spec _ _ _ V4)|exact (between_spec _ _ _ V5)].
Qed.

(** Instance: a creation with the temperature 1. *)
Lemma created_parameters_are_within_bounds_witness :
  let args := {| arg_model := None; arg_system_prompt := None;
                 arg_parameters :=
                   Some {| opt_temperature := Some 1%Q; opt_max_tokens := None;
                           opt_top_p := None; opt_frequency_penalty := None;
                           opt_presence_penalty := None |};
                 arg_metadata := None |} in
  exists text w' i c,
    Tools.create_conversation unset_environment "m" args (quiet ∅) = (Ok text, w')
    /\ files w' !! (i ++ ".json") = Some (Json c)
    /\ (0 <= temperature (parameters c) <= 2)%Q.
Proof.
  intros args.
  destruct (Tools.create_conversation unset_environment "m" args (quiet ∅))
    as [[text|e] w'] eqn:Hrun; [|vm_compute in Hrun; discriminate].
  destruct (created_parameters_are_within_bounds unset_environment "m" args
              text (quiet ∅) w' Hrun) as (i & c & _ & Hf & Ht & _).
  exists text, w', i, c. split; [reflexivity|]. split; [exact Hf|exact Ht].
Defined.

End CreatedRecord.

(* ===================================================================== *)
(** * What no tool changes *)
(* ===================================================================== *)

Section Identity.

Lemma same_identity_refl c : same_identity c c.
Proof. repeat split. Qed.

Lemma same_identity_trans c1 c2 c3 :
  same_identity c1 c2 -> same_identity c2 c3 -> same_identity c1 c3.
Proof.
  intros (A1 & A2 & A3 & A4 & A5) (B1 & B2 & B3 & B4 & B5).
  repeat split; congruence.
Qed.

Lemma identity_kept_refl w : identity_kept w w.
Proof. split; [lia|]. intros r _. apply same_identity_refl. Qed.

Lemma identity_kept_trans w1 w2 w3 :
  identity_kept w1 w2 -> identity_kept w2 w3 -> identity_kept w1 w3.
Proof.
  intros [N1 H1] [N2 H2]. split; [lia|]. intros r Hr.
  apply same_identity_trans with (heap w2 r); [apply H1; exact Hr|].
  apply H2. lia.
Qed.

Lemma identity_kept_same_heap w w' :
  heap w' = heap w -> next_ref w' = next_ref w -> identity_kept w w'.
Proof.
  intros Hh Hn. split; [lia|]. intros r _. rewrite Hh. apply same_identity_refl.
Qed.

Lemma identity_kept_loaded key c w : identity_kept w (loaded key c w).
Proof.
  split; [cbn; lia|]. intros r Hr.
  cbn [loaded heap set_conversations set_next_ref set_heap].
  destruct (Nat.eqb_spec r (next_ref w)); [lia|]. apply same_identity_refl.
Qed.

Lemma identity_kept_pushed r m w : identity_kept w (pushed r m w).
Proof.
  split; [cbn; lia|]. intros r' _. cbn [pushed heap set_heap].
  destruct (Nat.eqb_spec r' r) as [->|_]; repeat split.
Qed.

Lemma identity_kept_touched r w : identity_kept w (touched r w).
Proof.
  split; [cbn; lia|]. intros r' _. unfold touched.
  cbn [heap set_conversations set_heap set_ticks].
  destruct (Nat.eqb_spec r' r) as [->|_]; repeat split.
Qed.

Lemma identity_kept_writeConversation r w :
  identity_kept w (snd (Store.writeConversation r w)).
Proof.
  rewrite writeConversation_eq.
  destruct (fault w (ticks w)); [apply identity_kept_same_heap; reflexivity|].
  destruct (fault w (S (ticks w))); apply identity_kept_same_heap; reflexivity.
Qed.

Lemma identity_kept_getConversation conversationId w :
  identity_kept w (snd (Manager.getConversation conversationId w)).
Proof.
  rewrite getConversation_eq.
  destruct (conversations w !! conversationId); [apply identity_kept_refl|].
  destruct (files w !! (conversationId ++ ".json")) as [[m|c|m]|];
    try apply identity_kept_refl.
  apply identity_kept_loaded.
Qed.

Lemma identity_kept_updateConversation r w :
  identity_kept w (snd (Manager.updateConversation r w)).
Proof.
  rewrite updateConversation_eq.
  apply identity_kept_trans with (touched r w); [apply identity_kept_touched|].
  pose proof (identity_kept_writeConversation r (touched r w)) as H.
  destruct (Store.writeConversation r (touched r w)) as [[a|e] w']; exact H.
Qed.

Lemma identity_kept_addMessage conversationId r text w :
  identity_kept w (snd (Manager.addMessage conversationId r text w)).
Proof.
  rewrite addMessage_eq.
  pose proof (identity_kept_getConversation conversationId w) as Hg.
  destruct (Manager.getConversation conversationId w) as [[conv|e] w1];
    [|exact Hg].
  apply identity_kept_trans with w1; [exact Hg|].
  set (m := {| msg_role := r; content := text |}).
  apply identity_kept_trans with (pushed conv m w1);
    [apply identity_kept_pushed|].
  pose proof (identity_kept_updateConversation conv (pushed conv m w1)) as Hu.
  destruct (Manager.updateConversation conv (pushed conv m w1)) as [[a|e] w2];
    exact Hu.
Qed.

Lemma identity_kept_set_trace t w : identity_kept w (set_trace t w).
Proof. apply identity_kept_same_heap; reflexivity. Qed.

Lemma identity_kept_chat_execute openai args w :
  identity_kept w (snd (Tools.chat_execute openai args w)).
Proof.
  rewrite chat_execute_unfold. cbv zeta.
  set (w1 := set_trace _ w).
  assert (identity_kept w w1) as H1 by apply identity_kept_set_trace.
  pose proof (identity_kept_getConversation (conversation_id args) w1) as Hg.
  destruct (Manager.getConversation _ w1) as [[conv|e] w2];
    [|exact (identity_kept_trans _ _ _ H1 Hg)].
  cbn [snd] in Hg. pose proof (identity_kept_trans _ _ _ H1 Hg) as H2.
  pose proof (identity_kept_addMessage (id (heap w2 conv)) user
                (chat_message args) w2) as Ha.
  destruct (Manager.addMessage _ user _ w2) as [[conv'|e] w3];
    pose proof (identity_kept_trans _ _ _ H2 Ha) as H3; [|exact H3].
  cbn [snd] in H3.
  destruct (openai _) as [e|chunks [|e]];
    try exact (identity_kept_trans _ _ _ H3 (identity_kept_set_trace _ _)).
  set (w6 := set_trace _ w3).
  pose proof (identity_kept_trans _ _ _ H3
                (identity_kept_set_trace _ _ : identity_kept w3 w6)) as H6.
  pose proof (identity_kept_addMessage (id (heap w6 conv)) assistant
                (stream_text chunks) w6) as Ha'.
  destruct (Manager.addMessage _ assistant _ w6) as [[conv''|e] w7];
    pose proof (identity_kept_trans _ _ _ H6 Ha') as H7; [|exact H7].
  exact (identity_kept_trans _ _ _ H7 (identity_kept_set_trace _ _)).
Qed.

Lemma identity_kept_createConversation k args w :
  identity_kept w (snd (Manager.createConversation k args w)).
Proof.
  rewrite createConversation_eq. cbv zeta. rewrite getNextConversationId_eq.
  cbn [fault ticks set_ticks files].
  destruct (fault w (S (ticks w))); [apply identity_kept_same_heap; reflexivity|].
  destruct (fault w (S (S (ticks w))));
    [apply identity_kept_same_heap; reflexivity|].
  set (w2 := set_ticks _ _). set (i := Alloc.next_id _).
  set (c := new_conversation _ _ _ _).
  assert (identity_kept w w2) as H2
    by (apply identity_kept_same_heap; reflexivity).
  pose proof (identity_kept_loaded i c w2) as H3.
  pose proof (identity_kept_writeConversation (next_ref w2) (loaded i c w2)) as H4.
  destruct (Store.writeConversation _ _) as [[a|e] w4];
    exact (identity_kept_trans _ _ _ H2 (identity_kept_trans _ _ _ H3 H4)).
Qed.

Lemma identity_kept_deleteConversation conversationId w :
  identity_kept w (snd (Manager.deleteConversation conversationId w)).
Proof.
  rewrite manager_deleteConversation_eq. cbv zeta.
  destruct (files w !! (conversationId ++ ".json"));
    [|apply identity_kept_same_heap; reflexivity].
  destruct (fault w (ticks w)); apply identity_kept_same_heap; reflexivity.
Qed.

Lemma identity_kept_after_operation k defaultModel o w :
  identity_kept w (after_operation k defaultModel o w).
Proof.
  destruct o as [args|openai args|getTime args|i|i]; cbn [after_operation].
  - unfold Tools.create_conversation, Tools.with_schema.
    destruct (Tools.createConversationSchema k args) as [parsed|];
      [|apply identity_kept_refl].
    unfold Tools.create_conversation_execute, try_catch. rewrite bind_eq.
    pose proof (identity_kept_createConversation k
      {| arg_model := Some (or_else (arg_model parsed) defaultModel);
         arg_system_prompt := arg_system_prompt parsed;
         arg_parameters := arg_parameters parsed;
         arg_metadata := arg_metadata parsed |} w) as H.
    destruct (Manager.createConversation _ _ w) as [[conv|e] w'].
    + exact H.
    + destruct e; exact H.
  - unfold Tools.chat, Tools.with_schema.
    destruct (Tools.chatSchema k args) as [parsed|]; [|apply identity_kept_refl].
    apply identity_kept_chat_execute.
  - unfold Tools.list_conversations, Tools.with_schema.
    destruct (Tools.listConversationsSchema args) as [parsed|];
      [|apply identity_kept_refl].
    rewrite list_conversations_execute_eq, store_listConversations_cases.
    destruct (fault w (ticks w)); [apply identity_kept_same_heap; reflexivity|].
    destruct (fault w (S (ticks w))); apply identity_kept_same_heap; reflexivity.
  - unfold Tools.get_conversation, try_catch. rewrite bind_eq.
    pose proof (identity_kept_getConversation i w) as H.
    destruct (Manager.getConversation i w) as [[conv|e] w'].
    + exact H.
    + destruct e; exact H.
  - unfold Tools.delete_conversation, try_catch. rewrite bind_eq.
    pose proof (identity_kept_deleteConversation i w) as H.
    destruct (Manager.deleteConversation i w) as [[b|e] w'].
    + exact H.
    + destruct e; exact H.
Qed.

(** X24. No sequence of calls of the five tools changes the ID, the
    model, the creation date, the sampling parameters or the metadata of
    a conversation object that exists: whether the calls succeed or
    fail, an object can only gain messages and get a new [updated_at]. *)
Theorem tools_never_edit_a_conversation k defaultModel os : forall w r,
  (r < next_ref w)%nat ->
  same_identity (heap w r) (heap (after_operations k defaultModel os w) r).
Proof.
  assert (forall w, identity_kept w (after_operations k defaultModel os w)) as H.
  { induction os as [|o os IH]; intros w; [apply identity_kept_refl|].
    cbn [after_operations fold_left].
    apply identity_kept_trans with (after_operation k defaultModel o w);
      [apply identity_kept_after_operation|apply IH]. }
  intros w r Hr. apply (H w). exact Hr.
Qed.

(** Instance: the object of a conversation that was created, through
    two chat turns, one of them with a broken stream. *)
Lemma tools_never_edit_a_conversation_witness :
  let w := after_operations unset_environment "m" [OpCreate plain_args] (quiet ∅) in
  let w' := after_operations unset_environment "m"
              [OpChat breaks_off {| conversation_id := "1"; chat_message := "hi";
                                    chat_parameters := None |};
               OpChat says_hello {| conversation_id := "1"; chat_message := "hi";
                                    chat_parameters := None |}] w in
  same_identity (heap w 0) (heap w' 0)
  /\ length (messages (heap w 0)) = 1%nat
  /\ length (messages (heap w' 0)) = 4%nat.
Proof.
  intros w w'. split; [|split; vm_compute; reflexivity].
  apply (tools_never_edit_a_conversation unset_environment "m").
  vm_compute. lia.
Defined.

End Identity.

(* ===================================================================== *)
(** * The argument validators and the argument interfaces *)
(* ===================================================================== *)

Section Validators.
Import Validate.

Lemma not_an_object_false v :
  not_an_object (Some v) = false <-> object_like v.
Proof.
  unfold object_like. destruct v; cbn; split; intros H; try discriminate;
    try (destruct H as [[? H]|[? H]]; discriminate); eauto.
Qed.

Lemma defined_but_not_string v :
  defined_but_not TString v = false <-> optional_string v.
Proof.
  unfold optional_string. destruct v as [[]|]; cbn; split; intros H;
    try discriminate; try (destruct H as [H|[? H]]; discriminate); eauto.
Qed.

Lemma defined_but_not_number v :
  defined_but_not TNumber v = false <-> optional_number v.
Proof.
  unfold optional_number. destruct v as [[]|]; cbn; split; intros H;
    try discriminate; try (destruct H as [H|[? H]]; discriminate); eauto.
Qed.

Lemma required_string v :
  negb (same_type (typeof v) TString) = false
  <-> exists s, v = Some (JString s).
Proof.
  destruct v as [[]|]; cbn;
    (split; [intros H; try discriminate; eauto
            |intros [text H]; try discriminate; reflexivity]).
Qed.

Lemma bad_parameters_false candidate :
  bad_parameters candidate = false <-> sampling_shape (prop candidate "parameters").
Proof.
  unfold bad_parameters, sampling_shape.
  destruct (prop candidate "parameters") as [p|].
  2:{ split; [intros _; left; reflexivity|reflexivity]. }
  rewrite orb_false_iff, not_an_object_false.
  unfold optionalNumericParams. cbn [existsb].
  rewrite !orb_false_iff, !defined_but_not_number. split.
  - intros (Ho & Hm & Ht & Hp & Hf & Hpp & _). right. exists p.
    repeat split; assumption.
  - intros [H|(p' & E & Ho & Ht & Hm & Hp & Hf & Hpp)]; [discriminate|].
    injection E as <-. repeat split; assumption.
Qed.

Lemma all_strings items :
  existsb (fun tag => negb (same_type (typeof (Some tag)) TString)) items = false
  <-> Forall (fun tag => exists s, tag = JString s) items.
Proof.
  induction items as [|x items IH]; cbn [existsb].
  - split; [constructor|reflexivity].
  - rewrite orb_false_iff, IH, required_string. split.
    + intros [[s E] H]. injection E as ->. constructor; eauto.
    + intros H. inversion H as [|? ? [s ->] H']; subst. split; eauto.
Qed.

(** X25. [isValidChatArgs] accepts exactly the values of the shape of
    the ChatArgs interface: an object with a string [conversation_id],
    a string [message] and, if [parameters] is there, an object or array
    whose five sampling parameters are numbers where they are there.
    Members of other names are ignored, and the range of a number is
    not checked. *)
Theorem isValidChatArgs_accepts_the_interface v :
  isValidChatArgs v = true <-> ChatArgs_shape v.
Proof.
  unfold isValidChatArgs, ChatArgs_shape. cbv zeta.
  rewrite <- not_an_object_false, <- !required_string, <- bad_parameters_false.
  destruct (not_an_object (Some v)).
  { split; [discriminate|]. intros (H & _). discriminate. }
  destruct (negb (same_type (typeof (prop v "conversation_id")) TString)).
  { split; [discriminate|]. intros (_ & H & _). discriminate. }
  destruct (negb (same_type (typeof (prop v "message")) TString)).
  { split; [discriminate|]. intros (_ & _ & H & _). discriminate. }
  destruct (bad_parameters v).
  { split; [discriminate|]. intros (_ & _ & _ & H). discriminate. }
  split; [intros _; repeat split|reflexivity].
Qed.

Lemma metadata_check candidate :
  match prop candidate "metadata" with
  | Some metadata =>
      if not_an_object (Some metadata) then false
      else if defined_but_not TString (prop metadata "title") then false
      else
        match prop metadata "tags" with
        | Some tags =>
            if negb (isArray tags) then false
            else if some_not_a_string tags then false
            else true
        | None => true
        end
  | None => true
  end = true
  <-> metadata_shape (prop candidate "metadata").
Proof.
  unfold metadata_shape. destruct (prop candidate "metadata") as [md|].
  2:{ split; [intros _; left; reflexivity|reflexivity]. }
  destruct (not_an_object (Some md)) eqn:Eo.
  { split; [discriminate|]. intros [H|(md' & E & Ho & _)]; [discriminate|].
    injection E as <-. apply not_an_object_false in Ho. congruence. }
  apply not_an_object_false in Eo.
  destruct (defined_but_not TString (prop md "title")) eqn:Et.
  { split; [discriminate|]. intros [H|(md' & E & _ & Ht & _)]; [discriminate|].
    injection E as <-. apply defined_but_not_string in Ht. congruence. }
  apply defined_but_not_string in Et.
  destruct (prop md "tags") as [tags|] eqn:Etags.
  2:{ split; [|reflexivity]. intros _. right. exists md.
      repeat split; try assumption. left. exact Etags. }
  destruct tags as [| | | |items|]; cbn [isArray negb some_not_a_string];
    try (split; [discriminate|];
         intros [H|(md' & E & _ & _ & [H|(items & H & _)])];
         [discriminate|injection E as <-; congruence
         |injection E as <-; congruence]).
  destruct (existsb _ items) eqn:Es.
  - split; [discriminate|].
    intros [H|(md' & E & _ & _ & [H|(items' & H & Hall)])]; [discriminate| |].
    + injection E as <-. congruence.
    + injection E as <-. rewrite Etags in H. injection H as <-.
      apply all_strings in Hall. congruence.
  - apply all_strings in Es. split; [|reflexivity]. intros _. right.
    exists md. repeat split; try assumption. right. exists items.
    split; [exact Etags|exact Es].
Qed.

(** X26. [isValidCreateConversationArgs] accepts exactly the values of
    the shape of the CreateConversationArgs interface: an object or
    array whose [model] and [system_prompt] are strings, whose
    [parameters] hold numbers, whose [metadata] has a string [title] and
    an array of strings as [tags], each of them where it is there. As
    every member is optional, every array is accepted. *)
Theorem isValidCreateConversationArgs_accepts_the_interface :
  (forall v, isValidCreateConversationArgs v = true
             <-> CreateConversationArgs_shape v)
  /\ forall items, isValidCreateConversationArgs (JArray items) = true.
Proof.
  split; [|reflexivity].
  intros v. unfold isValidCreateConversationArgs, CreateConversationArgs_shape.
  cbv zeta.
  rewrite <- not_an_object_false, <- !defined_but_not_string,
    <- bad_parameters_false, <- metadata_check.
  destruct (not_an_object (Some v)).
  { split; [discriminate|]. intros (H & _). discriminate. }
  destruct (defined_but_not TString (prop v "model")).
  { split; [discriminate|]. intros (_ & H & _). discriminate. }
  destruct (defined_but_not TString (prop v "system_prompt")).
  { split; [discriminate|]. intros (_ & _ & H & _). discriminate. }
  destruct (bad_parameters v).
  { split; [discriminate|]. intros (_ & _ & _ & H & _). discriminate. }
  split; [intros H; repeat split; exact H|intros (_ & _ & _ & _ & H); exact H].
Qed.

End Validators.

(* ===================================================================== *)
(** * Allocation is no reservation *)
(* ===================================================================== *)

Section Interleaving.

(** [createConversation] is its two halves, one after the other. *)
Lemma createConversation_in_two_steps k args w :
  Manager.createConversation k args w
  = try_catch
      (p <- create_begin ;; create_finish k args (fst p) (snd p))
      (fun error =>
         throw (ConversationCreateError
                  ("Failed to create conversation: " ++ message error))) w.
Proof.
  unfold Manager.createConversation, try_catch, create_begin, create_finish.
  rewrite !bind_eq. destruct (now_ISO w) as [[now|e] w1]; [|reflexivity].
  rewrite !bind_eq.
  destruct (Store.getNextConversationId w1) as [[i|e] w2]; reflexivity.
Qed.

Lemma create_begin_eq w :
  create_begin w
  = match Store.getNextConversationId (set_ticks (S (ticks w)) w) with
    | (Ok i, w') => (Ok (clock w (ticks w), i), w')
    | (Throw e, w') => (Throw e, w')
    end.
Proof.
  unfold create_begin, now_ISO. rewrite !bind_eq. unfold tick at 1.
  rewrite bind_eq. unfold get_world at 1, ret at 1. cbn [clock set_ticks].
  rewrite bind_eq.
  destruct (Store.getNextConversationId _) as [[i|e] w']; reflexivity.
Qed.

Lemma getNextConversationId_Ok w i w' :
  Store.getNextConversationId w = (Ok i, w') ->
  i = Alloc.next_id (map fst (map_to_list (files w))) /\ files w' = files w.
Proof.
  rewrite getNextConversationId_eq.
  destruct (fault w (ticks w)); [discriminate|].
  destruct (fault w (S (ticks w))); [discriminate|].
  intros H. injection H as <- <-. split; reflexivity.
Qed.

(** X27. The ID that the allocation returns depends on the entries of
    the directory only, and the allocation changes no file: as long as
    no file is written or removed, every allocation returns the same ID.
    Allocating an ID does not reserve it. *)
Theorem allocation_does_not_reserve w i w1 w2 j w3 :
  Store.getNextConversationId w = (Ok i, w1) ->
  files w2 = files w1 ->
  Store.getNextConversationId w2 = (Ok j, w3) ->
  j = i.
Proof.
  intros H1 Hf H2.
  apply getNextConversationId_Ok in H1, H2.
  destruct H1 as [-> Hf1], H2 as [-> _]. rewrite Hf, Hf1. reflexivity.
Qed.

(** Instance: two allocations in a row on the store of three
    conversations. *)
Lemma allocation_does_not_reserve_witness :
  exists w1 w3,
    Store.getNextConversationId (quiet three_days) = (Ok "4", w1)
    /\ Store.getNextConversationId w1 = (Ok "4", w3).
Proof.
  eexists _, _. split; [vm_compute; reflexivity|].
  match goal with
  | |- Store.getNextConversationId ?w1 = (Ok _, ?w3) =>
      destruct (Store.getNextConversationId w1) as [[j|e] w3'] eqn:E;
        [|vm_compute in E; discriminate];
      rewrite (allocation_does_not_reserve (quiet three_days) "4" w1 w1 j w3');
        [|vm_compute; reflexivity|reflexivity|exact E]
  end.
  f_equal. vm_compute in E. injection E as _ <-. reflexivity.
Defined.

Lemma create_finish_Ok k args now i w r w' :
  create_finish k args now i w = (Ok r, w') ->
  r = next_ref w
  /\ next_ref w' = S (next_ref w)
  /\ (forall r', heap w' r' = if Nat.eqb r' (next_ref w)
                              then new_conversation k args i now
                              else heap w r')
  /\ conversations w' = <[i := next_ref w]> (conversations w)
  /\ files w' = <[i ++ ".json"
                  := Json (JSON.stringify (new_conversation k args i now))]>
                  (files w).
Proof.
  unfold create_finish. rewrite bind_eq. unfold new_object at 1.
  rewrite bind_eq. unfold Manager.cache_set at 1, modify. rewrite bind_eq.
  change (set_conversations _ _)
    with (loaded i (new_conversation k args i now) w).
  rewrite writeConversation_eq.
  cbn [fault ticks loaded set_conversations set_next_ref set_heap].
  destruct (fault w (ticks w)); [discriminate|].
  destruct (fault w (S (ticks w))); [discriminate|].
  unfold ret. intros H. injection H as <- <-.
  cbn [written loaded heap conversations files next_ref set_trace set_files
       set_ticks set_conversations set_next_ref set_heap].
  rewrite Nat.eqb_refl. cbn [id new_conversation].
  repeat split; reflexivity.
Qed.

(** The statements after the allocation succeed exactly when their two
    stretches succeed one after the other. *)
Lemma create_finish_in_two_steps k args now i w r w' :
  create_finish k args now i w = (Ok r, w')
  <-> exists c w1,
        create_enter k args now i w = (Ok (r, c), w1)
        /\ create_write c w1 = (Ok tt, w').
Proof.
  unfold create_finish, create_enter, create_write.
  rewrite !bind_eq. unfold new_object at 1 2. rewrite !bind_eq.
  unfold Manager.cache_set at 1 2, modify. rewrite !bind_eq.
  set (w0 := set_conversations _ _).
  unfold Store.writeConversation, try_catch. rewrite !bind_eq.
  destruct (Store.ensureConversationDir w0) as [[[]|e] w1].
  2:{ split; [discriminate|]. intros (c & w1' & H & _). discriminate. }
  unfold deref at 1 2. rewrite !bind_eq. unfold ret at 2.
  destruct (fs_writeFile _ (JSON.stringify (heap w1 (next_ref w))) w1)
    as [[[]|e] w2] eqn:Ew.
  - unfold ret. split.
    + intros H. injection H as <- <-. eexists _, _. split; [reflexivity|exact Ew].
    + intros (c & w1' & H & Hw). injection H as <- <- <-.
      rewrite Ew in Hw. injection Hw as <-. reflexivity.
  - split; [discriminate|].
    intros (c & w1' & H & Hw). injection H as <- <- <-.
    rewrite Ew in Hw. discriminate.
Qed.

Lemma create_begin_Ok w p w' :
  create_begin w = (Ok p, w') ->
  snd p = Alloc.next_id (map fst (map_to_list (files w)))
  /\ files w' = files w /\ heap w' = heap w
  /\ conversations w' = conversations w /\ next_ref w' = next_ref w.
Proof.
  rewrite create_begin_eq, getNextConversationId_eq.
  cbn [fault ticks set_ticks files].
  destruct (fault w (S (ticks w))); [discriminate|].
  destruct (fault w (S (S (ticks w)))); [discriminate|].
  intros H. injection H as <- <-. repeat split; reflexivity.
Qed.

Lemma create_enter_Ok k args now i w r c w' :
  create_enter k args now i w = (Ok (r, c), w') ->
  r = next_ref w /\ c = new_conversation k args i now
  /\ next_ref w' = S (next_ref w)
  /\ (forall r', heap w' r' = if Nat.eqb r' (next_ref w)
                              then new_conversation k args i now
                              else heap w r')
  /\ conversations w' = <[i := next_ref w]> (conversations w)
  /\ files w' = files w.
Proof.
  unfold create_enter. rewrite bind_eq. unfold new_object at 1.
  rewrite bind_eq. unfold Manager.cache_set at 1, modify. rewrite bind_eq.
  rewrite ensureConversationDir_eq.
  cbn [fault ticks set_conversations set_next_ref set_heap].
  destruct (fault w (ticks w)); [discriminate|].
  unfold bind, deref, ret.
  cbn [heap set_ticks set_conversations set_next_ref set_heap].
  rewrite Nat.eqb_refl. intros H. injection H as <- <- <-.
  cbn [heap conversations files next_ref set_ticks set_conversations
       set_next_ref set_heap].
  repeat split; reflexivity.
Qed.

Lemma create_write_Ok c w w' :
  create_write c w = (Ok tt, w') ->
  files w' = <[id c ++ ".json" := Json (JSON.stringify c)]> (files w)
  /\ heap w' = heap w /\ conversations w' = conversations w
  /\ next_ref w' = next_ref w.
Proof.
  unfold create_write, fs_writeFile, Store.getConversationFilePath.
  rewrite bind_eq, io_call_eq.
  destruct (fault w (ticks w)); [discriminate|].
  unfold bind, modify, emit, modify. intros H. injection H as <-.
  repeat split; reflexivity.
Qed.

(** X28. [createConversation] awaits the allocation of its ID, and later
    the writing of its file. When a second creation allocates its ID
    while the first one awaits the writing of its file, and all steps
    succeed, both conversations get the same ID; afterwards the manager
    serves the conversation of the second creation, and the file of
    this ID holds its text: the first one is lost. *)
Theorem interleaved_creations_collide
        k args1 args2 w p1 w1 r1 c1 w2 p2 w3 w4 r2 w5 :
  create_begin w = (Ok p1, w1) ->
  create_enter k args1 (fst p1) (snd p1) w1 = (Ok (r1, c1), w2) ->
  create_begin w2 = (Ok p2, w3) ->
  create_write c1 w3 = (Ok tt, w4) ->
  create_finish k args2 (fst p2) (snd p2) w4 = (Ok r2, w5) ->
  snd p2 = snd p1
  /\ r1 <> r2
  /\ id (heap w5 r1) = snd p1 /\ id (heap w5 r2) = snd p1
  /\ Manager.getConversation (snd p1) w5 = (Ok r2, w5)
  /\ files w5 !! (snd p1 ++ ".json")
     = Some (Json (JSON.stringify (heap w5 r2))).
Proof.
  intros B1 E1 B2 W1 F2.
  apply create_begin_Ok in B1, B2.
  destruct B1 as (I1 & Bf1 & Bh1 & Bc1 & Bn1).
  destruct B2 as (I2 & Bf2 & Bh2 & Bc2 & Bn2).
  apply create_enter_Ok in E1.
  destruct E1 as (-> & -> & En & Eh & Ec & Ef).
  apply create_write_Ok in W1. destruct W1 as (Wf & Wh & Wc & Wn).
  apply create_finish_Ok in F2. destruct F2 as (-> & Fn & Fh & Fc & Ff).
  assert (snd p2 = snd p1) as Hid by (rewrite I2, Ef, Bf1; symmetry; exact I1).
  assert (next_ref w4 = S (next_ref w1)) as Hn by (rewrite Wn, Bn2; exact En).
  split; [exact Hid|]. split; [lia|].
  rewrite !Fh, Hn, Nat.eqb_refl.
  destruct (Nat.eqb_spec (next_ref w1) (S (next_ref w1))); [lia|].
  rewrite Wh, Bh2, Eh, Nat.eqb_refl. cbn [id new_conversation].
  split; [reflexivity|]. split; [exact Hid|]. split.
  - rewrite getConversation_eq, Fc, <- Hid, lookup_insert_eq, Hn. reflexivity.
  - rewrite Ff, <- Hid, lookup_insert_eq. reflexivity.
Qed.

(** Instance: two creations on an empty store, the second with a system
    prompt. *)
Lemma interleaved_creations_collide_witness :
  let second := {| arg_model := None; arg_system_prompt := Some "S";
                   arg_parameters := None; arg_metadata := None |} in
  exists p1 w1 r1 c1 w2 p2 w3 w4 r2 w5,
    create_begin (quiet ∅) = (Ok p1, w1)
    /\ create_enter unset_environment plain_args (fst p1) (snd p1) w1
       = (Ok (r1, c1), w2)
    /\ create_begin w2 = (Ok p2, w3)
    /\ create_write c1 w3 = (Ok tt, w4)
    /\ create_finish unset_environment second (fst p2) (snd p2) w4 = (Ok r2, w5)
    /\ snd p1 = "1" /\ snd p2 = "1"
    /\ r1 <> r2
    /\ Manager.getConversation "1" w5 = (Ok r2, w5)
    /\ messages (heap w5 r2) = [ {| msg_role := system; content := "S" |} ].
Proof.
  intros second. eexists _, _, _, _, _, _, _, _, _, _.
  split; [vm_compute; reflexivity|]. split; [vm_compute; reflexivity|].
  split; [vm_compute; reflexivity|]. split; [vm_compute; reflexivity|].
  split; [vm_compute; reflexivity|].
  split; [reflexivity|]. split; [reflexivity|].
  edestruct (interleaved_creations_collide unset_environment plain_args second
               (quiet ∅)) as (_ & Hne & _ & _ & Hget & _);
    [vm_compute; reflexivity|vm_compute; reflexivity|vm_compute; reflexivity
    |vm_compute; reflexivity|vm_compute; reflexivity|].
  split; [exact Hne|]. split; [exact Hget|reflexivity].
Defined.

End Interleaving.
